(** * Source-side migration of vdsm: [vdsm/virt/migration.py]

    A shallow embedding of the three threads of the module:

    - [MonitorThread] (the progress monitor) as a step function over the
      samples the thread takes;
    - [DowntimeThread] (the downtime ramp) as a loop over [range(N)];
    - [SourceThread] (the driver) in a small state-and-exception monad whose
      state carries the fields of the thread, the VM configuration, the
      shared [errCode] dictionaries, the bounded semaphore and a log of the
      calls made to the collaborators.

    Python integers are [Z]; [/] on integers is Python 2's floor division,
    which is [Z.div].  Wall-clock readings ([time.time()]) are rationals.
    Every collaborator (libvirt domain, peer server, hooks, VM object,
    volume helper) is an oracle: it returns the data the environment
    chooses, or raises the exception the environment chooses.  Each thread
    is modelled on its own; what another thread does to a shared flag is
    an input of the model.  Logging calls are left out. *)

From Stdlib Require Import ZArith QArith Lia.
From stdpp Require Import gmap strings list fin_maps.

Local Open Scope Z_scope.

(** ** Rational comparisons used for the clock *)

Definition Qltb (x y : Q) : bool := negb (Qle_bool y x).

(** ** The progress monitor: [class MonitorThread] *)

Module Monitor.

(** The tuple returned by [self._vm._dom.jobInfo()]; the two components the
    code binds to [_] are left out. *)
Record JobInfo := {
  jobType : Z; timeElapsed : Z;
  dataTotal : Z; dataProcessed : Z; dataRemaining : Z;
  memTotal : Z; memProcessed : Z; memRemaining : Z;
  fileTotal : Z; fileProcessed : Z }.

(** [config.getint('vars', ...)] values read by the monitor. *)
Record Config := {
  _MIGRATION_MONITOR_INTERVAL : Z;
  migration_max_time_per_gib_mem : Z;
  migration_progress_timeout : Z }.

(** The nested function of [MonitorThread.run]. *)
Definition calculateProgress (remaining total : Z) : Z :=
  if remaining =? 0 then 100
  else
    let progress := if total =? 0 then 0 else 100 - 100 * remaining / total in
    if progress <? 100 then progress else 99.

(** The fields of the thread object, which the driver also reads
    ([progress]) and writes ([stop()] sets [_stop]). *)
Record MonitorThread := {
  _stop : bool;
  _startTime : Q;
  progress : Z }.

(** [MonitorThread.__init__] *)
Definition __init__ (startTime : Q) : MonitorThread :=
  {| _stop := false; _startTime := startTime; progress := 0 |}.

(** [MonitorThread.stop] *)
Definition stop (self : MonitorThread) : MonitorThread :=
  {| _stop := true; _startTime := _startTime self; progress := progress self |}.

Definition set_progress (p : Z) (self : MonitorThread) : MonitorThread :=
  {| _stop := _stop self; _startTime := _startTime self; progress := p |}.

(** Where the thread is: inside the [while] loop, returned from [run], or
    killed by an exception that escaped [run]. *)
Inductive Phase := Running | Exited | Died.

(** The thread object together with the locals of [run] and the calls to
    [abortJob] it has made. *)
Record RunState := {
  self : MonitorThread;
  phase : Phase;
  migrationMaxTime : Z;
  lastProgressTime : Q;
  lowmark : option Z;
  abortJobCalls : nat }.

(** What one turn of the loop observes: whether another thread has called
    [stop()] since the last turn, the clock, and what [jobInfo()] and
    (when it is called) [abortJob()] do. *)
Record Tick := {
  stopRequested : bool;
  jobInfo : option JobInfo;      (* [None]: [jobInfo()] raises *)
  now : Q;
  abortJobRaises : bool }.

(** The prologue of [run], up to the [while]: [memSize] is
    [int(self._vm.conf['memSize'])] ([None] when that raises) and [t0] is
    the reading of [time.time()] taken there. *)
Definition start (cfg : Config) (memSize : option Z) (t0 : Q)
    (obj : MonitorThread) : RunState :=
  match memSize with
  | None =>
      {| self := obj; phase := Died; migrationMaxTime := 0;
         lastProgressTime := t0; lowmark := None; abortJobCalls := 0 |}
  | Some memSize =>
      {| self := obj; phase := Running;
         migrationMaxTime :=
           (migration_max_time_per_gib_mem cfg * memSize + 1023) / 1024;
         lastProgressTime := t0;
         lowmark := None;
         abortJobCalls := 0 |}
  end.

(** The three-way [if] of the loop body: the first component is [abort],
    the others the new [lowmark] and [lastProgressTime]. *)
Definition decide_abort (cfg : Config) (st : RunState) (now : Q)
    (dataRemaining : Z) : bool * option Z * Q :=
  if (0 <? migrationMaxTime st) &&
     Qltb (inject_Z (migrationMaxTime st)) (now - _startTime (self st))
  then (true, lowmark st, lastProgressTime st)
  else
    match lowmark st with
    | None => (false, Some dataRemaining, now)
    | Some lm =>
        if lm >? dataRemaining then (false, Some dataRemaining, now)
        else if Qltb (inject_Z (migration_progress_timeout cfg))
                     (now - lastProgressTime st)
        then (true, lowmark st, lastProgressTime st)
        else (false, lowmark st, lastProgressTime st)
    end.

(** One turn of [while not self._stop.isSet()]. *)
Definition step (cfg : Config) (st : RunState) (tk : Tick) : RunState :=
  match phase st with
  | Running =>
      let obj := if stopRequested tk then stop (self st) else self st in
      if _stop obj then
        {| self := obj; phase := Exited;
           migrationMaxTime := migrationMaxTime st;
           lastProgressTime := lastProgressTime st;
           lowmark := lowmark st; abortJobCalls := abortJobCalls st |}
      else
        match jobInfo tk with
        | None =>
            {| self := obj; phase := Died;
               migrationMaxTime := migrationMaxTime st;
               lastProgressTime := lastProgressTime st;
               lowmark := lowmark st; abortJobCalls := abortJobCalls st |}
        | Some ji =>
            let '(abort, lowmark', last') :=
              decide_abort cfg st (now tk) (dataRemaining ji) in
            if abort then
              if abortJobRaises tk then
                {| self := obj; phase := Died;
                   migrationMaxTime := migrationMaxTime st;
                   lastProgressTime := last'; lowmark := lowmark';
                   abortJobCalls := S (abortJobCalls st) |}
              else
                {| self := stop obj; phase := Exited;
                   migrationMaxTime := migrationMaxTime st;
                   lastProgressTime := last'; lowmark := lowmark';
                   abortJobCalls := S (abortJobCalls st) |}
            else
              {| self :=
                   if jobType ji =? 0 then obj
                   else set_progress
                          (calculateProgress (dataRemaining ji) (dataTotal ji))
                          obj;
                 phase := Running;
                 migrationMaxTime := migrationMaxTime st;
                 lastProgressTime := last'; lowmark := lowmark';
                 abortJobCalls := abortJobCalls st |}
        end
  | _ => st
  end.

(** [run] over the turns the thread gets to make. *)
Definition run (cfg : Config) (memSize : option Z) (t0 : Q)
    (obj : MonitorThread) (ticks : list Tick) : RunState :=
  fold_left (step cfg) ticks (start cfg memSize t0 obj).

End Monitor.

(** ** The downtime ramp: [class DowntimeThread] *)

Module Downtime.

(** [config.getint('vars', ...)] values read by [__init__]. *)
Record Config := {
  DOWNTIME_STEPS : Z;
  migration_downtime_delay : Z }.

(** [self._wait] as [__init__] computes it. *)
Definition _wait (cfg : Config) (memSize : Z) : Z :=
  (migration_downtime_delay cfg * Z.max memSize 2048 + 1023) / 1024.

(** What the thread does to its collaborators. *)
Inductive Event :=
  | Wait (timeout : Z)                  (* [self._stop.wait(timeout)] *)
  | MigrateSetMaxDowntime (downtime : Z).

Inductive Exit := Finished | Cancelled | Died.

(** The body of [for i in range(self.DOWNTIME_STEPS)], over the indices
    still to visit.  [stopSet i] is [self._stop.isSet()] in turn [i] and
    [callRaises i] says whether [migrateSetMaxDowntime] raises there. *)
Fixpoint loop (cfg : Config) (wait downtime : Z)
    (stopSet callRaises : nat -> bool) (todo : list nat) : list Event * Exit :=
  match todo with
  | [] => ([], Finished)
  | i :: todo' =>
      let w := Wait (wait / DOWNTIME_STEPS cfg) in
      if stopSet i then ([w], Cancelled)
      else
        let d := downtime * (Z.of_nat i + 1) / DOWNTIME_STEPS cfg in
        if callRaises i then ([w; MigrateSetMaxDowntime d], Died)
        else
          let '(evs, ex) := loop cfg wait downtime stopSet callRaises todo' in
          (w :: MigrateSetMaxDowntime d :: evs, ex)
  end.

(** [DowntimeThread.run] for a thread built with [downtime] on a VM whose
    [int(vm.conf['memSize'])] is [memSize]. *)
Definition run (cfg : Config) (memSize downtime : Z)
    (stopSet callRaises : nat -> bool) : list Event * Exit :=
  loop cfg (_wait cfg memSize) downtime stopSet callRaises
       (seq 0 (Z.to_nat (DOWNTIME_STEPS cfg))).

(** The values passed to [migrateSetMaxDowntime], in order. *)
Definition downtimes (evs : list Event) : list Z :=
  omap (fun e => match e with
                 | MigrateSetMaxDowntime d => Some d
                 | Wait _ => None
                 end) evs.

End Downtime.

(** ** The driver: [class SourceThread] *)

Module Source.

(** *** Exceptions *)

(** [libvirt.libvirtError] carries the code that [get_error_code()]
    returns; every other exception the code can meet is an [Exception]
    that is not a [libvirtError]. *)
Inductive exn :=
  | LibvirtError (code : Z)
  | Exception (msg : string).

(** libvirt's [VIR_ERR_OPERATION_ABORTED]. *)
Definition VIR_ERR_OPERATION_ABORTED : Z := 78.

(** The [VIR_MIGRATE_*] flags the code combines. Their values belong to the
    libvirt binding, not to this module: they are read from the
    environment. *)
Record MigrateFlags := {
  VIR_MIGRATE_LIVE : Z;
  VIR_MIGRATE_PEER2PEER : Z;
  VIR_MIGRATE_TUNNELLED : Z;
  VIR_MIGRATE_ABORT_ON_ERROR : Z }.

Definition get_error_code (e : exn) : option Z :=
  match e with LibvirtError c => Some c | Exception _ => None end.

Definition str (e : exn) : string :=
  match e with
  | LibvirtError _ => "libvirtError"
  | Exception msg => msg
  end.

(** *** Values held in the VM configuration and in the migration params *)

Abbreviation drive := (gmap string string).

Inductive value :=
  | VStr (s : string)
  | VInt (z : Z)
  | VFloat (q : Q)
  | VDict (m : gmap string string)
  | VDrives (l : list drive).

Abbreviation params := (gmap string value).

(** Python truthiness. *)
Definition truthy (v : value) : bool :=
  match v with
  | VStr s => negb (String.eqb s "")
  | VInt z => negb (z =? 0)
  | VFloat q => negb (Qeq_bool q 0)
  | VDict m => negb (bool_decide (m = ∅))
  | VDrives l => negb (bool_decide (l = []))
  end.

Fixpoint is_prefix (p s : string) : bool :=
  match p, s with
  | EmptyString, _ => true
  | String a p', String b s' => Ascii.eqb a b && is_prefix p' s'
  | String _ _, EmptyString => false
  end.

(** [p in s] on two strings. *)
Fixpoint is_substring (p s : string) : bool :=
  is_prefix p s ||
  match s with
  | EmptyString => false
  | String _ s' => is_substring p s'
  end.

(** *** Status dictionaries and where they live *)

(** [{'status': {'code': c, 'message': m}, 'progress': p}]; the entries of
    [errCode] and the peer's responses have no ['progress'] key until the
    driver writes one. *)
Record StatusDict := {
  code : Z;
  message : string;
  progress : option Z }.

Inductive ErrKey := E_exist | E_noConPeer | E_migrateErr | E_migCancelErr.

(** [self.status] is a reference: to the dictionary [__init__] built, to
    an entry of the module-level [errCode] table, or to the response of the
    peer's [migrationCreate]. *)
Inductive Loc :=
  | Own
  | ErrCode (k : ErrKey)
  | Response.

Definition Loc_eqb (a b : Loc) : bool :=
  match a, b with
  | Own, Own | Response, Response => true
  | ErrCode E_exist, ErrCode E_exist
  | ErrCode E_noConPeer, ErrCode E_noConPeer
  | ErrCode E_migrateErr, ErrCode E_migrateErr
  | ErrCode E_migCancelErr, ErrCode E_migCancelErr => true
  | _, _ => false
  end.

(** *** Calls to collaborators *)

(** The moments at which another thread may call [stop()]. *)
Inductive StopPoint :=
  | BeforeSlotCheck       (* any time up to the check that follows acquire *)
  | WhilePreparing        (* after that check, [_preparingMigrationEvt] still true *)
  | BeforeMigrateCheck    (* after [_preparingMigrationEvt = False] *)
  | DuringMigrate.        (* while [migrateToURI2] runs *)

(** One label per call site, so that the environment can let each of them
    fail on its own. *)
Inductive Site :=
  | S_cannonizeHostPort | S_connect | S_getVmStats
  | S_vm_status | S_vm_getStats | S_XMLDesc_params
  | S_isResponsive | S_desktopLock | S_getStats_session (i : nat) | S_vm_pause
  | S_saveState
  | S_XMLDesc_hook | S_before_vm_hibernate | S_vmStats_pause
  | S_prepareVolumePath_dst | S_save | S_teardownVolumePath_dst | S_vmStats_cont
  | S_customDevices | S_before_device_migrate_source (i : nat)
  | S_before_vm_migrate_source | S_migrationCreate
  | S_DowntimeThread | S_MonitorThread_start | S_reviveTicket
  | S_migrateToURI2
  | S_setDownStatus
  | S_prepareVolumePath_dstparams | S_pickle_dump | S_teardownVolumePath_dstparams
  | S_destroy | S_vm_cont
  | S_abortJob (p : StopPoint).

(** What the log records. *)
Inductive Event :=
  | Acquire                              (* [_ongoingMigrations.acquire()] *)
  | Release                              (* [_ongoingMigrations.release()] *)
  | SetMigrationParams                   (* [conf['_migrationParams'] = {...}] *)
  | DelMigrationParams                   (* [del conf['_migrationParams']] *)
  | Call (s : Site)
  | PrepareVolumePath (vol : string)
  | TeardownVolumePath (vol : string)
  | Save (fname : string)                (* [self._vm._dom.save(fname)] *)
  | PickleDump (fname : string) (p : params)
  | MigrateToURI2 (duri muri : string) (flags maxBandwidth : Z)
  | AbortJob
  | CancelDowntimeThread.

(** A logged call and the exception it raised, if any. *)
Definition Entry : Type := Event * option exn.

(** *** The request, the environment and the state *)

(** The constructor arguments of [SourceThread] and [vm.id]. *)
Record Request := {
  _dst : string;
  _dstparams : string;
  _mode : string;
  _method : string;
  _tunneled : bool;
  _abortOnError : bool;
  _dstqemu : string;
  _downtime : Z;
  vm_id : string }.

Record Env := {
  raises : Site -> option exn;
  stop_called : StopPoint -> bool;
  (* configuration *)
  ssl : bool;
  monitor_interval : Z;
  migration_max_bandwidth : Z;
  (* the libvirt binding *)
  libvirt : MigrateFlags;
  (* clock *)
  time_start : Q;                 (* [time.time()] at the top of [run] *)
  time_params : Q;                (* ... in [_setupRemoteMachineParams] *)
  vm_startTime : Q;               (* [self._vm._startTime] *)
  (* data returned by collaborators *)
  hostPort : string * string;     (* [hostPort.rsplit(':', 1)] *)
  getVmStats_code : Z;
  vm_status : params;
  vm_getStats : params;
  XMLDesc : string;
  isResponsive : bool;
  session : nat -> option string; (* [getStats()['session']] at poll [i] *)
  customDevices : nat;            (* how many devices [_customDevices()] yields *)
  migrationCreate_response : StatusDict;
  prepareVolumePath : string -> string }.

Record State := {
  status : Loc;                           (* [self.status] *)
  heap : Loc -> StatusDict;
  _machineParams : params;
  _preparingMigrationEvt : bool;
  _migrationCanceledEvt : bool;
  _monitorThread : option Monitor.MonitorThread;
  destServer : bool;                      (* is the attribute bound? *)
  remoteHost : option string;
  conf : params;                          (* [self._vm.conf] *)
  lastStatus : string;                    (* [self._vm.lastStatus] *)
  sem_value : Z;                          (* [_ongoingMigrations]: free slots *)
  sem_bound : Z;                          (* ... and its initial value *)
  trace : list Entry }.

Definition set_status (v : Loc) (s : State) : State :=
  {| status := v; heap := heap s; _machineParams := _machineParams s;
     _preparingMigrationEvt := _preparingMigrationEvt s;
     _migrationCanceledEvt := _migrationCanceledEvt s;
     _monitorThread := _monitorThread s; destServer := destServer s;
     remoteHost := remoteHost s; conf := conf s; lastStatus := lastStatus s;
     sem_value := sem_value s; sem_bound := sem_bound s; trace := trace s |}.

Definition set_heap (v : Loc -> StatusDict) (s : State) : State :=
  {| status := status s; heap := v; _machineParams := _machineParams s;
     _preparingMigrationEvt := _preparingMigrationEvt s;
     _migrationCanceledEvt := _migrationCanceledEvt s;
     _monitorThread := _monitorThread s; destServer := destServer s;
     remoteHost := remoteHost s; conf := conf s; lastStatus := lastStatus s;
     sem_value := sem_value s; sem_bound := sem_bound s; trace := trace s |}.

Definition set_machineParams (v : params) (s : State) : State :=
  {| status := status s; heap := heap s; _machineParams := v;
     _preparingMigrationEvt := _preparingMigrationEvt s;
     _migrationCanceledEvt := _migrationCanceledEvt s;
     _monitorThread := _monitorThread s; destServer := destServer s;
     remoteHost := remoteHost s; conf := conf s; lastStatus := lastStatus s;
     sem_value := sem_value s; sem_bound := sem_bound s; trace := trace s |}.

Definition set_preparingMigrationEvt (v : bool) (s : State) : State :=
  {| status := status s; heap := heap s; _machineParams := _machineParams s;
     _preparingMigrationEvt := v;
     _migrationCanceledEvt := _migrationCanceledEvt s;
     _monitorThread := _monitorThread s; destServer := destServer s;
     remoteHost := remoteHost s; conf := conf s; lastStatus := lastStatus s;
     sem_value := sem_value s; sem_bound := sem_bound s; trace := trace s |}.

Definition set_migrationCanceledEvt (v : bool) (s : State) : State :=
  {| status := status s; heap := heap s; _machineParams := _machineParams s;
     _preparingMigrationEvt := _preparingMigrationEvt s;
     _migrationCanceledEvt := v;
     _monitorThread := _monitorThread s; destServer := destServer s;
     remoteHost := remoteHost s; conf := conf s; lastStatus := lastStatus s;
     sem_value := sem_value s; sem_bound := sem_bound s; trace := trace s |}.

Definition set_monitorThread (v : option Monitor.MonitorThread) (s : State)
    : State :=
  {| status := status s; heap := heap s; _machineParams := _machineParams s;
     _preparingMigrationEvt := _preparingMigrationEvt s;
     _migrationCanceledEvt := _migrationCanceledEvt s;
     _monitorThread := v; destServer := destServer s;
     remoteHost := remoteHost s; conf := conf s; lastStatus := lastStatus s;
     sem_value := sem_value s; sem_bound := sem_bound s; trace := trace s |}.

Definition set_destServer (v : bool) (s : State) : State :=
  {| status := status s; heap := heap s; _machineParams := _machineParams s;
     _preparingMigrationEvt := _preparingMigrationEvt s;
     _migrationCanceledEvt := _migrationCanceledEvt s;
     _monitorThread := _monitorThread s; destServer := v;
     remoteHost := remoteHost s; conf := conf s; lastStatus := lastStatus s;
     sem_value := sem_value s; sem_bound := sem_bound s; trace := trace s |}.

Definition set_remoteHost (v : option string) (s : State) : State :=
  {| status := status s; heap := heap s; _machineParams := _machineParams s;
     _preparingMigrationEvt := _preparingMigrationEvt s;
     _migrationCanceledEvt := _migrationCanceledEvt s;
     _monitorThread := _monitorThread s; destServer := destServer s;
     remoteHost := v; conf := conf s; lastStatus := lastStatus s;
     sem_value := sem_value s; sem_bound := sem_bound s; trace := trace s |}.

Definition set_conf (v : params) (s : State) : State :=
  {| status := status s; heap := heap s; _machineParams := _machineParams s;
     _preparingMigrationEvt := _preparingMigrationEvt s;
     _migrationCanceledEvt := _migrationCanceledEvt s;
     _monitorThread := _monitorThread s; destServer := destServer s;
     remoteHost := remoteHost s; conf := v; lastStatus := lastStatus s;
     sem_value := sem_value s; sem_bound := sem_bound s; trace := trace s |}.

Definition set_lastStatus (v : string) (s : State) : State :=
  {| status := status s; heap := heap s; _machineParams := _machineParams s;
     _preparingMigrationEvt := _preparingMigrationEvt s;
     _migrationCanceledEvt := _migrationCanceledEvt s;
     _monitorThread := _monitorThread s; destServer := destServer s;
     remoteHost := remoteHost s; conf := conf s; lastStatus := v;
     sem_value := sem_value s; sem_bound := sem_bound s; trace := trace s |}.

Definition set_sem_value (v : Z) (s : State) : State :=
  {| status := status s; heap := heap s; _machineParams := _machineParams s;
     _preparingMigrationEvt := _preparingMigrationEvt s;
     _migrationCanceledEvt := _migrationCanceledEvt s;
     _monitorThread := _monitorThread s; destServer := destServer s;
     remoteHost := remoteHost s; conf := conf s; lastStatus := lastStatus s;
     sem_value := v; sem_bound := sem_bound s; trace := trace s |}.

Definition log (e : Entry) (s : State) : State :=
  {| status := status s; heap := heap s; _machineParams := _machineParams s;
     _preparingMigrationEvt := _preparingMigrationEvt s;
     _migrationCanceledEvt := _migrationCanceledEvt s;
     _monitorThread := _monitorThread s; destServer := destServer s;
     remoteHost := remoteHost s; conf := conf s; lastStatus := lastStatus s;
     sem_value := sem_value s; sem_bound := sem_bound s;
     trace := trace s ++ [e] |}.

(** Writes through [self.status]: they land in whichever dictionary the
    reference points to. *)
Definition heap_update (l : Loc) (f : StatusDict -> StatusDict)
    (h : Loc -> StatusDict) : Loc -> StatusDict :=
  fun l' => if Loc_eqb l l' then f (h l') else h l'.

Definition with_code (c : Z) (d : StatusDict) : StatusDict :=
  {| code := c; message := message d; progress := progress d |}.
Definition with_message (m : string) (d : StatusDict) : StatusDict :=
  {| code := code d; message := m; progress := progress d |}.
Definition with_progress (p : Z) (d : StatusDict) : StatusDict :=
  {| code := code d; message := message d; progress := Some p |}.

Definition write_status (f : StatusDict -> StatusDict) (s : State) : State :=
  set_heap (heap_update (status s) f (heap s)) s.

(** [self.status] read through the reference. *)
Definition read_status (s : State) : StatusDict := heap s (status s).

(** *** The monad *)

(** A computation returns, raises, or blocks for ever (only [acquire] on an
    exhausted semaphore does). *)
Inductive Result (A : Type) :=
  | Ok (a : A)
  | Raise (e : exn)
  | Block.
Arguments Ok {A} a.
Arguments Raise {A} e.
Arguments Block {A}.

Definition M (A : Type) : Type := State -> Result A * State.

Definition ret {A} (a : A) : M A := fun s => (Ok a, s).

Definition bind {A B} (m : M A) (k : A -> M B) : M B :=
  fun s =>
    match m s with
    | (Ok a, s') => k a s'
    | (Raise e, s') => (Raise e, s')
    | (Block, s') => (Block, s')
    end.

Definition raise {A} (e : exn) : M A := fun s => (Raise e, s).

Definition get : M State := fun s => (Ok s, s).

Definition modify (f : State -> State) : M unit := fun s => (Ok tt, f s).

(** [try: m except Exception as e: h e] *)
Definition try_except {A} (m : M A) (h : exn -> M A) : M A :=
  fun s =>
    match m s with
    | (Raise e, s') => h e s'
    | r => r
    end.

(** [try: m except libvirt.libvirtError as e: h e] *)
Definition try_except_libvirt {A} (m : M A) (h : exn -> M A) : M A :=
  fun s =>
    match m s with
    | (Raise (LibvirtError c), s') => h (LibvirtError c) s'
    | r => r
    end.

(** [try: m finally: f]: an exception of [f] replaces the outcome of [m]. *)
Definition try_finally {A} (m : M A) (f : M unit) : M A :=
  fun s =>
    match m s with
    | (Block, s') => (Block, s')
    | (r, s') =>
        match f s' with
        | (Ok _, s'') => (r, s'')
        | (Raise e, s'') => (Raise e, s'')
        | (Block, s'') => (Block, s'')
        end
    end.

Declare Scope py_scope.
Delimit Scope py_scope with py.
Notation "x <- m ;; k" := (bind m (fun x => k))
  (at level 100, m at next level, right associativity) : py_scope.
Notation "m ;; k" := (bind m (fun _ => k))
  (at level 100, right associativity) : py_scope.
Local Open Scope py_scope.

Definition when (b : bool) (m : M unit) : M unit := if b then m else ret tt.

(** *** The methods of [SourceThread] *)

Section Driver.

Context (env : Env) (rq : Request).

(** A call to a collaborator: it is logged as [ev] and raises what the
    environment says this site raises. *)
Definition callE (site : Site) (ev : Event) : M unit :=
  fun s =>
    match raises env site with
    | Some e => (Raise e, log (ev, Some e) s)
    | None => (Ok tt, log (ev, None) s)
    end.

Definition call (site : Site) : M unit := callE site (Call site).

(** [__init__]: the fields the constructor sets, on top of the VM and the
    module-level state the thread finds. *)
Definition __init__ (errCode : ErrKey -> StatusDict) (vm_conf : params)
    (vm_lastStatus : string) (sem_value sem_bound : Z) : State :=
  {| status := Own;
     heap := fun l =>
       match l with
       | Own => {| code := 0; message := "Migration in progress";
                   progress := Some 0 |}
       | ErrCode k => errCode k
       | Response => {| code := 0; message := ""; progress := None |}
       end;
     _machineParams := ∅;
     _preparingMigrationEvt := true;
     _migrationCanceledEvt := false;
     _monitorThread := None;
     destServer := false;
     remoteHost := None;
     conf := vm_conf;
     lastStatus := vm_lastStatus;
     sem_value := sem_value;
     sem_bound := sem_bound;
     trace := [] |}.

(** [getStat] *)
Definition getStat : M StatusDict :=
  s <- get ;;
  match _monitorThread s with
  | Some m => modify (write_status (with_progress (Monitor.progress m)))
  | None => ret tt
  end ;;
  s' <- get ;;
  ret (read_status s').

(** [_setupVdsConnection] *)
Definition _setupVdsConnection : M unit :=
  if String.eqb (_mode rq) "file" then ret tt
  else
    call S_cannonizeHostPort ;;
    modify (set_remoteHost (Some (fst (hostPort env)))) ;;
    call S_connect ;;
    modify (set_destServer true) ;;
    try_except
      (call S_getVmStats ;;
       when (getVmStats_code env =? 0)
            (modify (set_status (ErrCode E_exist))))
      (fun _ => modify (set_status (ErrCode E_noConPeer))).

(** The inner [for drive in self._machineParams['drives']] of
    [_patchConfigForLegacy]; it returns [new_drives]. *)
Fixpoint patch_drives (item : string) (drives new_drives : list drive)
    : M (list drive) :=
  match drives with
  | [] => ret new_drives
  | d :: drives' =>
      match d !! "device" with
      | None => raise (Exception "KeyError: 'device'")
      | Some dev =>
          if String.eqb dev item then
            match d !! "path" with
            | None => raise (Exception "KeyError: 'path'")
            | Some path =>
                modify (fun s => set_machineParams
                                   (<[item := VStr path]> (_machineParams s)) s) ;;
                patch_drives item drives' new_drives
            end
          else patch_drives item drives' (new_drives ++ [d])
      end
  end.

(** What iterating over a value as a list of drive dictionaries yields;
    [None] when the loop body would raise [TypeError]. *)
Definition iter_drives (v : value) : option (list drive) :=
  match v with
  | VDrives l => Some l
  | VStr s => if String.eqb s "" then Some [] else None
  | VDict m => if bool_decide (m = ∅) then Some [] else None
  | VInt _ | VFloat _ => None
  end.

Definition patch_item (item : string) : M unit :=
  s <- get ;;
  match _machineParams s !! "drives" with
  | None => raise (Exception "KeyError: 'drives'")
  | Some v =>
      match iter_drives v with
      | None => raise (Exception "TypeError")
      | Some drives =>
          new_drives <- patch_drives item drives [] ;;
          modify (fun s => set_machineParams
                             (<["drives" := VDrives new_drives]>
                                (_machineParams s)) s)
      end
  end.

(** [_patchConfigForLegacy] *)
Definition _patchConfigForLegacy : M unit :=
  s <- get ;;
  when (bool_decide (is_Some (_machineParams s !! "drives")))
       (patch_item "cdrom" ;; patch_item "floppy") ;;
  modify (fun s => set_machineParams
                     (<["afterMigrationStatus" := VStr ""]>
                        (_machineParams s)) s).

(** [if k in src: dst[k] = src[k]] *)
Definition copy_key (k : string) (src dst : params) : params :=
  match src !! k with
  | Some v => <[k := v]> dst
  | None => dst
  end.

(** [_setupRemoteMachineParams] *)
Definition _setupRemoteMachineParams : M unit :=
  call S_vm_status ;;
  modify (fun s => set_machineParams (vm_status env ∪ _machineParams s) s) ;;
  _patchConfigForLegacy ;;
  modify (fun s => set_machineParams
                     (<["elapsedTimeOffset" :=
                          VFloat (time_params env - vm_startTime env)%Q]>
                        (_machineParams s)) s) ;;
  call S_vm_getStats ;;
  let vmStats := vm_getStats env in
  modify (fun s => set_machineParams
                     (copy_key "guestFQDN" vmStats
                        (copy_key "guestIPs" vmStats
                           (copy_key "username" vmStats (_machineParams s)))) s) ;;
  modify (fun s => set_machineParams
                     (delete "pid" (delete "_migrationParams"
                                      (_machineParams s))) s) ;;
  when (negb (String.eqb (_mode rq) "file"))
       (modify (fun s => set_machineParams
                           (<["migrationDest" := VStr "libvirt"]>
                              (_machineParams s)) s)) ;;
  call S_XMLDesc_params ;;
  modify (fun s => set_machineParams
                     (<["_srcDomXML" := VStr (XMLDesc env)]>
                        (_machineParams s)) s).

(** The [while lockTimeout] loop of [_prepareGuest]; [i] counts the polls. *)
Fixpoint wait_for_lock (lockTimeout i : nat) : M unit :=
  match lockTimeout with
  | O => ret tt
  | S lockTimeout' =>
      call (S_getStats_session i) ;;
      match session env i with
      | None => raise (Exception "KeyError: 'session'")
      | Some st =>
          if String.eqb st "Locked" || String.eqb st "LoggedOff" then ret tt
          else wait_for_lock lockTimeout' (S i)
      end
  end.

(** [_prepareGuest] *)
Definition _prepareGuest : M unit :=
  if String.eqb (_mode rq) "file" then
    call S_isResponsive ;;
    let lockTimeout := if isResponsive env then 30%nat else 0%nat in
    call S_desktopLock ;;
    wait_for_lock lockTimeout 0 ;;
    call S_vm_pause
  else modify (set_lastStatus "Migration Source").

(** [_recover] *)
Definition _recover (message : string) : M unit :=
  s <- get ;;
  when (code (read_status s) =? 0)
       (modify (set_status (ErrCode E_migrateErr))) ;;
  when (negb (String.eqb (_mode rq) "file"))
       (try_except
          (s <- get ;;
           if destServer s then call S_destroy
           else raise (Exception "AttributeError: destServer"))
          (fun _ => ret tt)) ;;
  when (String.eqb (_mode rq) "file" || negb (String.eqb (_method rq) "online"))
       (call S_vm_cont) ;;
  modify (set_lastStatus "Up").

(** The transient keys [_finishSuccessfully] deletes before pickling. *)
Definition strip_transient (p : params) : params :=
  delete "pid" (delete "display" (delete "displayIp" p)).

(** [_finishSuccessfully] *)
Definition _finishSuccessfully : M unit :=
  modify (write_status (with_progress 100)) ;;
  if negb (String.eqb (_mode rq) "file") then
    call S_setDownStatus ;;
    modify (write_status (with_message "Migration done"))
  else
    modify (fun s => set_machineParams (strip_transient (_machineParams s)) s) ;;
    callE S_prepareVolumePath_dstparams (PrepareVolumePath (_dstparams rq)) ;;
    let fname := prepareVolumePath env (_dstparams rq) in
    try_finally
      (s <- get ;;
       callE S_pickle_dump (PickleDump fname (_machineParams s)))
      (callE S_teardownVolumePath_dstparams
             (TeardownVolumePath (_dstparams rq))) ;;
    call S_setDownStatus ;;
    modify (write_status (with_message "SaveState done")).

(** [_raiseAbortError] *)
Definition _raiseAbortError {A} : M A :=
  raise (LibvirtError VIR_ERR_OPERATION_ABORTED).

(** [stop], called at point [p]. *)
Definition stop (p : StopPoint) : M unit :=
  try_except_libvirt
    (modify (set_migrationCanceledEvt true) ;;
     callE (S_abortJob p) AbortJob)
    (fun e =>
       s <- get ;;
       if negb (_preparingMigrationEvt s) then raise e else ret tt).

(** Another thread calls [stop()] at point [p] if the environment says so;
    what [stop] raises goes to that thread, not to the driver. *)
Definition concurrent_stop (p : StopPoint) : M unit :=
  fun s => if stop_called env p then (Ok tt, snd (stop p s)) else (Ok tt, s).

(** [SourceThread._ongoingMigrations.acquire()] and [.release()] on a
    [threading.BoundedSemaphore]. *)
Definition acquire : M unit :=
  fun s =>
    if 0 <? sem_value s
    then (Ok tt, log (Acquire, None) (set_sem_value (sem_value s - 1) s))
    else (Block, s).

Definition release : M unit :=
  fun s =>
    if sem_bound s <=? sem_value s
    then let e := Exception "ValueError: Semaphore released too many times" in
         (Raise e, log (Release, Some e) s)
    else (Ok tt, log (Release, None) (set_sem_value (sem_value s + 1) s)).

(** [for dev in self._vm._customDevices(): hooks.before_device_migrate_source(...)] *)
Fixpoint device_hooks (n i : nat) : M unit :=
  match n with
  | O => ret tt
  | S n' => call (S_before_device_migrate_source i) ;; device_hooks n' (S i)
  end.

(** [x in v] for a string [x]; [None] when Python raises [TypeError]. *)
Definition contains (x : string) (v : value) : option bool :=
  match v with
  | VStr s => Some (is_substring x s)
  | VDict m => Some (bool_decide (is_Some (m !! x)))
  | VDrives _ => Some false
  | VInt _ | VFloat _ => None
  end.

Definition migrate_flags : Z :=
  Z.lor (Z.lor (Z.lor (VIR_MIGRATE_LIVE (libvirt env))
                      (VIR_MIGRATE_PEER2PEER (libvirt env)))
               (if _tunneled rq then VIR_MIGRATE_TUNNELLED (libvirt env)
                else 0))
        (if _abortOnError rq then VIR_MIGRATE_ABORT_ON_ERROR (libvirt env)
         else 0).

(** [self._vm._dom.migrateToURI2(...)]; another thread may call [stop()]
    while the call is in progress. *)
Definition migrateToURI2 (duri muri : string) (flags maxBandwidth : Z)
    : M unit :=
  fun s =>
    let out := raises env S_migrateToURI2 in
    let s1 := log (MigrateToURI2 duri muri flags maxBandwidth, out) s in
    let s2 := snd (concurrent_stop DuringMigrate s1) in
    match out with
    | Some e => (Raise e, s2)
    | None => (Ok tt, s2)
    end.

(** The [try] block at the end of [_startUnderlyingMigration]. *)
Definition migrate_try (duri muri : string) : M unit :=
  s <- get ;;
  match conf s !! "display" with
  | None => raise (Exception "KeyError: 'display'")
  | Some display =>
      match contains "qxl" display with
      | None => raise (Exception "TypeError")
      | Some qxl =>
          when (qxl &&
                match conf s !! "clientIp" with
                | Some ip => truthy ip
                | None => false
                end)
               (call S_reviveTicket) ;;
          let maxBandwidth := migration_max_bandwidth env in
          concurrent_stop WhilePreparing ;;
          modify (set_preparingMigrationEvt false) ;;
          concurrent_stop BeforeMigrateCheck ;;
          s <- get ;;
          if negb (_migrationCanceledEvt s)
          then migrateToURI2 duri muri migrate_flags maxBandwidth
          else _raiseAbortError
      end
  end.

(** Its [finally] clause: [t.cancel()] and [self._monitorThread.stop()]. *)
Definition migrate_finally : M unit :=
  modify (log (CancelDowntimeThread, None)) ;;
  when (negb (monitor_interval env =? 0))
       (s <- get ;;
        match _monitorThread s with
        | Some m => modify (set_monitorThread (Some (Monitor.stop m)))
        | None => raise (Exception "AttributeError")
        end).

(** [self.status = response] *)
Definition adopt (response : StatusDict) (s : State) : State :=
  set_status Response
    (set_heap (fun l => match l with
                        | Response => response
                        | _ => heap s l
                        end) s).

(** [self._vm.conf['_migrationParams']['dstqemu']] *)
Definition conf_dstqemu (s : State) : option string :=
  match conf s !! "_migrationParams" with
  | Some (VDict mp) => mp !! "dstqemu"
  | _ => None
  end.

(** The [else] branch of [_startUnderlyingMigration]. *)
Definition _startUnderlyingMigration_remote (startTime : Q) : M unit :=
  call S_customDevices ;;
  device_hooks (customDevices env) 0 ;;
  call S_XMLDesc_hook ;;
  call S_before_vm_migrate_source ;;
  call S_migrationCreate ;;
  let response := migrationCreate_response env in
  if negb (code response =? 0) then
    modify (adopt response) ;;
    raise (Exception ("migration destination error: " +:+ message response))
  else
    let transport := if ssl env then "tls" else "tcp" in
    s <- get ;;
    match remoteHost s with
    | None => raise (Exception "AttributeError: remoteHost")
    | Some remoteHost =>
        let duri := "qemu+" +:+ transport +:+ "://" +:+ remoteHost +:+ "/system" in
        match conf_dstqemu s with
        | None => raise (Exception "KeyError or TypeError: dstqemu")
        | Some dstqemu =>
            let muri :=
              if negb (String.eqb dstqemu "") then "tcp://" +:+ dstqemu
              else "tcp://" +:+ remoteHost in
            call S_DowntimeThread ;;
            when (negb (monitor_interval env =? 0))
                 (modify (set_monitorThread
                            (Some (Monitor.__init__ startTime))) ;;
                  call S_MonitorThread_start) ;;
            try_finally (migrate_try duri muri) migrate_finally
        end
    end.

(** The [if self._mode == 'file'] branch of [_startUnderlyingMigration]. *)
Definition _startUnderlyingMigration_file : M unit :=
  call S_XMLDesc_hook ;;
  call S_before_vm_hibernate ;;
  try_except
    (call S_vmStats_pause ;;
     callE S_prepareVolumePath_dst (PrepareVolumePath (_dst rq)) ;;
     let fname := prepareVolumePath env (_dst rq) in
     try_finally
       (callE S_save (Save fname))
       (callE S_teardownVolumePath_dst (TeardownVolumePath (_dst rq))))
    (fun e => call S_vmStats_cont ;; raise e).

(** [_startUnderlyingMigration] *)
Definition _startUnderlyingMigration (startTime : Q) : M unit :=
  if String.eqb (_mode rq) "file" then _startUnderlyingMigration_file
  else _startUnderlyingMigration_remote startTime.

(** The value stored under [_migrationParams]. *)
Definition migrationParams : value :=
  VDict (<["dst" := _dst rq]> (<["mode" := _mode rq]>
        (<["method" := _method rq]> (<["dstparams" := _dstparams rq]>
        (<["dstqemu" := _dstqemu rq]> ∅))))).

(** The statements of the inner [try] of [run] that follow the check of the
    cancellation flag, from [saveState] on. *)
Definition run_transfer (startTime : Q) : M unit :=
  call S_saveState ;;
  _startUnderlyingMigration startTime ;;
  _finishSuccessfully.

(** [self._vm.conf['_migrationParams'] = {...}] *)
Definition set_migrationParams (s : State) : State :=
  log (SetMigrationParams, None)
      (set_conf (<["_migrationParams" := migrationParams]> (conf s)) s).

(** The body of the inner [try] of [run]. *)
Definition run_body (startTime : Q) : M unit :=
  concurrent_stop BeforeSlotCheck ;;
  s <- get ;;
  when (_migrationCanceledEvt s) _raiseAbortError ;;
  modify set_migrationParams ;;
  run_transfer startTime.

(** Its [except libvirt.libvirtError as e] handler. *)
Definition run_handler (e : exn) : M unit :=
  when (bool_decide (get_error_code e = Some VIR_ERR_OPERATION_ABORTED))
       (modify (fun s => write_status
                           (with_code (code (heap s (ErrCode E_migCancelErr)))) s) ;;
        modify (write_status (with_message "Migration canceled"))) ;;
  raise e.

(** [del self._vm.conf['_migrationParams']] *)
Definition del_migrationParams (s : State) : State :=
  log (DelMigrationParams, None)
      (set_conf (delete "_migrationParams" (conf s)) s).

(** Its [finally] clause. *)
Definition run_finally : M unit :=
  s <- get ;;
  when (bool_decide (is_Some (conf s !! "_migrationParams")))
       (modify del_migrationParams) ;;
  release.

(** Everything [run] does before it asks for the slot. *)
Definition run_setup : M unit :=
  _setupVdsConnection ;;
  _setupRemoteMachineParams ;;
  _prepareGuest.

(** The inner [try ... except libvirt.libvirtError ...] of [run]. *)
Definition run_guarded (startTime : Q) : M unit :=
  try_except_libvirt (run_body startTime) run_handler.

(** [run] *)
Definition run : M unit :=
  try_except
    (let startTime := time_start env in
     run_setup ;;
     acquire ;;
     try_finally (run_guarded startTime) run_finally)
    (fun e => _recover (str e)).

End Driver.

(** *** The class method *)

Definition set_sem_bound (v : Z) (s : State) : State :=
  {| status := status s; heap := heap s; _machineParams := _machineParams s;
     _preparingMigrationEvt := _preparingMigrationEvt s;
     _migrationCanceledEvt := _migrationCanceledEvt s;
     _monitorThread := _monitorThread s; destServer := destServer s;
     remoteHost := remoteHost s; conf := conf s; lastStatus := lastStatus s;
     sem_value := sem_value s; sem_bound := v; trace := trace s |}.

(** [setMaxOutgoingMigrations]: the class attribute is bound to a new
    [threading.BoundedSemaphore(n)], whose constructor refuses a negative
    [n]. *)
Definition setMaxOutgoingMigrations (n : Z) : M unit :=
  fun s =>
    if n <? 0
    then (Raise (Exception "ValueError: semaphore initial value must be >= 0"),
          s)
    else (Ok tt, set_sem_bound n (set_sem_value n s)).

End Source.

(** * Statements

    The vocabulary in which the properties of the three threads are stated:
    what [getStat] exposes while a monitor runs, the shape of the log of a
    driver run, and the readings of the specification that the code does
    not satisfy, as they are written. *)

Import Source.
Local Open Scope py_scope.

(** ** What a caller of [getStat] sees while the monitor samples *)

(** The ['progress'] entry of the dictionary [getStat] returns. *)
Definition getStat_progress (s : Source.State) : option Z :=
  match fst (Source.getStat s) with
  | Source.Ok d => Source.progress d
  | _ => None
  end.

(** The progress a caller of [getStat] reads after the monitor of driver
    [s] has gone through [ticks]. *)
Definition observe (s : Source.State) (cfg : Monitor.Config)
    (memSize : option Z) (t0 : Q) (ticks : list Monitor.Tick) : option Z :=
  match Source._monitorThread s with
  | Some obj =>
      getStat_progress
        (Source.set_monitorThread
           (Some (Monitor.self (Monitor.run cfg memSize t0 obj ticks))) s)
  | None => getStat_progress s
  end.

(** The driver has gone through [_finishSuccessfully], the only place that
    writes these two messages. *)
Definition finished_successfully (s : Source.State) : Prop :=
  Source.message (Source.read_status s) = "Migration done"%string \/
  Source.message (Source.read_status s) = "SaveState done"%string.

(** The specification's reading: the exposed progress never decreases
    while the status code is 0, and stays at or below 99 until the
    migration has finished successfully. *)
Definition C2_as_stated : Prop :=
  forall (s : Source.State) cfg memSize t0 startTime ticks tk p1 p2,
    Source._monitorThread s = Some (Monitor.__init__ startTime) ->
    Source.code (Source.read_status s) = 0 ->
    observe s cfg memSize t0 ticks = Some p1 ->
    observe s cfg memSize t0 (ticks ++ [tk]) = Some p2 ->
    p1 <= p2 /\ (~ finished_successfully s -> p2 <= 99).

(** Samples that all report [total] as [dataTotal] and a [dataRemaining]
    within [0..bound] that never grows from one sample to the next. *)
Fixpoint steady (total bound : Z) (ticks : list Monitor.Tick) : Prop :=
  match ticks with
  | [] => True
  | tk :: ticks' =>
      match Monitor.jobInfo tk with
      | None => steady total bound ticks'
      | Some ji =>
          Monitor.dataTotal ji = total /\
          0 <= Monitor.dataRemaining ji <= bound /\
          steady total (Monitor.dataRemaining ji) ticks'
      end
  end.

(** A sample taken at time [t], with only memory to transfer. *)
Definition sample (jt total remaining : Z) (t : Q) : Monitor.Tick :=
  {| Monitor.stopRequested := false;
     Monitor.jobInfo := Some {| Monitor.jobType := jt; Monitor.timeElapsed := 0;
        Monitor.dataTotal := total; Monitor.dataProcessed := total - remaining;
        Monitor.dataRemaining := remaining;
        Monitor.memTotal := total; Monitor.memProcessed := total - remaining;
        Monitor.memRemaining := remaining;
        Monitor.fileTotal := 0; Monitor.fileProcessed := 0 |};
     Monitor.now := t;
     Monitor.abortJobRaises := false |}.

(** ** A VM and its driver, for the worked examples *)

(** The four entries of [errCode] the module uses. *)
Definition example_errCode (k : Source.ErrKey) : Source.StatusDict :=
  match k with
  | Source.E_exist =>
      {| Source.code := 4; Source.message := "Virtual machine already exists";
         Source.progress := None |}
  | Source.E_noConPeer =>
      {| Source.code := 10; Source.message := "Could not connect to peer VDS";
         Source.progress := None |}
  | Source.E_migrateErr =>
      {| Source.code := 12; Source.message := "Fatal error during migration";
         Source.progress := None |}
  | Source.E_migCancelErr =>
      {| Source.code := 82; Source.message := "Migration not in progress";
         Source.progress := None |}
  end.

Definition example_conf : Source.params :=
  <["memSize" := Source.VInt 1024]> (<["display" := Source.VStr "vnc"]> ∅).

(** A driver fresh from [__init__], with one free migration slot. *)
Definition example_state : Source.State :=
  Source.__init__ example_errCode example_conf "Up" 1 1.

(** The same driver once [_startUnderlyingMigration] has created the
    monitor. *)
Definition migrating_state : Source.State :=
  Source.set_monitorThread (Some (Monitor.__init__ 0)) example_state.

Definition example_monitor_cfg : Monitor.Config :=
  {| Monitor._MIGRATION_MONITOR_INTERVAL := 10;
     Monitor.migration_max_time_per_gib_mem := 64;
     Monitor.migration_progress_timeout := 150 |}.

(** ** The abort policy of the monitor *)

(** The monitor's progress is at most what any sample within [0..bound]
    would give. *)
Definition below (total bound : Z) (st : Monitor.RunState) : Prop :=
  forall r, 0 <= r <= bound ->
    Monitor.progress (Monitor.self st) <= Monitor.calculateProgress r total.

(** [0 < migrationMaxTime < now - self._startTime] *)
Definition overrun (st : Monitor.RunState) (now : Q) : Prop :=
  0 < Monitor.migrationMaxTime st /\
  (inject_Z (Monitor.migrationMaxTime st) <
   now - Monitor._startTime (Monitor.self st))%Q.







(** ** The values of the downtime ramp *)

(** [downtime * k / DOWNTIME_STEPS] *)
Definition ramp_value (D N : Z) (k : nat) : Z := D * Z.of_nat k / N.

(** ... for [k = 1..n]. *)
Definition ramp_values (D N : Z) (n : nat) : list Z :=
  map (ramp_value D N) (seq 1 n).

(** Any two elements of [l] are related by [R] in the order they occur. *)
Definition increasing (R : Z -> Z -> Prop) (l : list Z) : Prop :=
  forall (i j : nat) (x y : Z),
    l !! i = Some x -> l !! j = Some y -> (i < j)%nat -> R x y.

(** The specification's reading: an uncancelled run makes the [N] calls
    [D*k/N], [k = 1..N], and these increase strictly. *)
Definition C7_as_stated : Prop :=
  forall cfg memSize D stopSet callRaises,
    (forall i, stopSet i = false) ->
    (forall i, callRaises i = false) ->
    let calls :=
      Downtime.downtimes (fst (Downtime.run cfg memSize D stopSet callRaises)) in
    calls = ramp_values D (Downtime.DOWNTIME_STEPS cfg)
                        (Z.to_nat (Downtime.DOWNTIME_STEPS cfg)) /\
    increasing Z.lt calls.

Definition example_ramp_cfg : Downtime.Config :=
  {| Downtime.DOWNTIME_STEPS := 10; Downtime.migration_downtime_delay := 75 |}.

(** ** Relations between the states before and after a computation *)

(** [m] never blocks, and relates every state to the one it leaves. *)
Definition respects {A} (R : State -> State -> Prop) (m : M A) : Prop :=
  forall s, fst (m s) <> Block /\ R s (snd (m s)).

(** The log grew by entries that all satisfy [P]. *)
Definition appends (P : Entry -> Prop) (s s' : State) : Prop :=
  exists evs, trace s' = trace s ++ evs /\ Forall P evs.

(** The VM configuration, resp. the semaphore, is as it was. *)
Definition conf_same (s s' : State) : Prop := conf s' = conf s.

Definition sem_same (s s' : State) : Prop :=
  sem_value s' = sem_value s /\ sem_bound s' = sem_bound s.

(** All three together. *)
Definition frame (P : Entry -> Prop) (s s' : State) : Prop :=
  conf_same s s' /\ sem_same s s' /\ appends P s s'.

(** ** Kinds of log entries *)

Definition is_slot (e : Event) : bool :=
  match e with Acquire | Release => true | _ => false end.

Definition is_conf_event (e : Event) : bool :=
  match e with SetMigrationParams | DelMigrationParams => true | _ => false end.

Definition is_hypervisor_migration (e : Event) : bool :=
  match e with MigrateToURI2 _ _ _ _ | Save _ => true | _ => false end.

Definition is_volume (e : Event) : bool :=
  match e with
  | PrepareVolumePath _ | TeardownVolumePath _ | Save _ | PickleDump _ _ => true
  | _ => false
  end.

(** Entries that only record a call to a collaborator outside the
    hypervisor migration itself. *)
Definition benign (e : Entry) : Prop :=
  match e.1 with
  | Call _ | AbortJob | CancelDowntimeThread => True
  | _ => False
  end.

(** Entries the underlying transfer may log besides the benign ones. *)
Definition transfer_entry (e : Entry) : Prop :=
  match e.1 with
  | Call _ | AbortJob | CancelDowntimeThread
  | MigrateToURI2 _ _ _ _ | Save _
  | PrepareVolumePath _ | TeardownVolumePath _ => True
  | _ => False
  end.

(** Neither a slot operation, nor a write to [_migrationParams], nor a
    hypervisor migration call. *)
Definition quiet (e : Entry) : Prop :=
  is_slot e.1 = false /\ is_conf_event e.1 = false /\
  is_hypervisor_migration e.1 = false.

(** What may be logged between the write and the delete of
    [_migrationParams]. *)
Definition inner (e : Entry) : Prop :=
  is_slot e.1 = false /\ is_conf_event e.1 = false.

(** ** The log of a driver run *)

(** The state right after [acquire] has taken a slot. *)
Definition acquired (s : State) : State :=
  log (Acquire, None) (set_sem_value (sem_value s - 1) s).

(** Does the run get as far as taking the slot? *)
Definition acquires (env : Env) (rq : Request) (s : State) : bool :=
  match fst (run_setup env rq s) with
  | Ok _ => 0 <? sem_value s
  | _ => false
  end.

(** [evs] is what some execution of the transfer block logs. *)
Definition transfer_events (env : Env) (rq : Request) (evs : list Entry)
    : Prop :=
  exists s, trace (snd (run_transfer env rq (time_start env) s)) = trace s ++ evs.

(** What the log shows between [Acquire] and [Release]. *)
Definition slot_interval (env : Env) (rq : Request) (s : State)
    (core : list Entry) : Prop :=
  (core = [] /\ conf s !! "_migrationParams" = None) \/
  (core = [(DelMigrationParams, None)] /\
   is_Some (conf s !! "_migrationParams")) \/
  (exists mid,
     transfer_events env rq mid /\
     core = [(SetMigrationParams, None)] ++ mid ++ [(DelMigrationParams, None)]).

(** The log of a whole run. *)
Definition run_log (env : Env) (rq : Request) (s s' : State) : Prop :=
  exists pre, Forall benign pre /\
    trace (snd (run_setup env rq s)) = trace s ++ pre /\
    if acquires env rq s then
      conf s' = delete "_migrationParams" (conf s) /\
      exists mid0 core post,
        Forall benign mid0 /\ slot_interval env rq s core /\ Forall benign post /\
        trace s' = trace s ++ pre ++ [(Acquire, None)] ++ mid0 ++ core ++
                   [(Release, None)] ++ post
    else
      conf s' = conf s /\
      exists post, Forall benign post /\ trace s' = trace s ++ pre ++ post.

(** The slot entries of a log, in order. *)
Fixpoint slot_proj (l : list Entry) : list Entry :=
  match l with
  | [] => []
  | e :: l' => if is_slot e.1 then e :: slot_proj l' else slot_proj l'
  end.

(** The entries that matter for [_migrationParams]: the slot, the two
    writes to the configuration and the hypervisor's migration calls. *)
Fixpoint key_proj (l : list Entry) : list Event :=
  match l with
  | [] => []
  | e :: l' =>
      if is_slot e.1 || is_conf_event e.1 || is_hypervisor_migration e.1
      then e.1 :: key_proj l' else key_proj l'
  end.

(** The order the specification asks for: acquire, write, hypervisor
    calls, delete, release. *)
Definition params_protocol (l : list Event) : Prop :=
  l = [] \/ l = [Acquire; Release] \/
  exists hv, Forall (fun e => is_hypervisor_migration e = true) hv /\
             l = [Acquire; SetMigrationParams] ++ hv ++
                 [DelMigrationParams; Release].

(** The calls to the volume helper and the uses of the paths it returned,
    in order. *)
Fixpoint vol_proj (l : list Entry) : list Entry :=
  match l with
  | [] => []
  | e :: l' => if is_volume e.1 then e :: vol_proj l' else vol_proj l'
  end.

(** The second bracket, for the params file: the volume of [_dstparams]
    could not be prepared, or it was prepared, the dictionary [p] was
    pickled to its path, and it was torn down. *)
Definition params_bracket (env : Env) (rq : Request) (l : list Entry) : Prop :=
  (exists e, l = [(PrepareVolumePath (_dstparams rq), Some e)]) \/
  (exists p o3 o4,
     l = [(PrepareVolumePath (_dstparams rq), None);
          (PickleDump (prepareVolumePath env (_dstparams rq)) p, o3);
          (TeardownVolumePath (_dstparams rq), o4)]).

(** The volume calls of a file-mode run: none; or the volume of [_dst] could
    not be prepared; or it was prepared, the domain was saved to its path
    and it was torn down, one of the two failing; or all three went well
    and the second bracket follows. *)
Definition volume_protocol (env : Env) (rq : Request) (l : list Entry) : Prop :=
  l = [] \/
  (exists e, l = [(PrepareVolumePath (_dst rq), Some e)]) \/
  (exists o1 o2,
     (o1 <> None \/ o2 <> None) /\
     l = [(PrepareVolumePath (_dst rq), None);
          (Save (prepareVolumePath env (_dst rq)), o1);
          (TeardownVolumePath (_dst rq), o2)]) \/
  (exists tail,
     l = [(PrepareVolumePath (_dst rq), None);
          (Save (prepareVolumePath env (_dst rq)), None);
          (TeardownVolumePath (_dst rq), None)] ++ tail /\
     params_bracket env rq tail).

(** The specification's reading: whenever a file-mode run both saves the
    domain and pickles the parameters, it does so to two distinct paths. *)
Definition C10_as_stated : Prop :=
  forall env rq s new,
    sem_value s <= sem_bound s ->
    String.eqb (_mode rq) "file" = true ->
    trace (run env rq s).2 = trace s ++ new ->
    forall f1 o1 f2 p o2,
      In (Save f1, o1) new -> In (PickleDump f2 p, o2) new -> f1 <> f2.

(** Does the call at [site] return? *)
Definition returns (env : Env) (site : Site) : bool :=
  match raises env site with None => true | Some _ => false end.

(** The second bracket, by what each call does: the volume of [_dstparams]
    is prepared; if that returns, the snapshot [mp] without its transient
    keys is pickled to its path, and the volume is torn down whatever the
    pickling did. *)
Definition params_volume_log (env : Env) (rq : Request) (mp : params)
    : list Entry :=
  match raises env S_prepareVolumePath_dstparams with
  | Some e => [(PrepareVolumePath (_dstparams rq), Some e)]
  | None =>
      [(PrepareVolumePath (_dstparams rq), None);
       (PickleDump (prepareVolumePath env (_dstparams rq)) (strip_transient mp),
        raises env S_pickle_dump);
       (TeardownVolumePath (_dstparams rq),
        raises env S_teardownVolumePath_dstparams)]
  end.

(** The volume calls of a save to file that gets as far as the volume of
    [_dst], by what each call does: the volume is prepared; if that
    returns, the domain is saved to its path and the volume is torn down
    whatever the save did; and if both returned, the second bracket
    follows. *)
Definition volume_log (env : Env) (rq : Request) (mp : params) : list Entry :=
  match raises env S_prepareVolumePath_dst with
  | Some e => [(PrepareVolumePath (_dst rq), Some e)]
  | None =>
      [(PrepareVolumePath (_dst rq), None);
       (Save (prepareVolumePath env (_dst rq)), raises env S_save);
       (TeardownVolumePath (_dst rq), raises env S_teardownVolumePath_dst)] ++
      match raises env S_save, raises env S_teardownVolumePath_dst with
      | None, None => params_volume_log env rq mp
      | _, _ => []
      end
  end.

(** The calls of the transfer that come before the volume of [_dst] all
    return: [saveState], [XMLDesc], the hibernation hook and
    [_vmStats.pause]. *)
Definition transfer_reaches_save (env : Env) : bool :=
  returns env S_saveState && returns env S_XMLDesc_hook &&
  returns env S_before_vm_hibernate && returns env S_vmStats_pause.

(** The run gets as far as the volume of [_dst]: its preparation returns
    and a slot is free, no [stop()] comes before the check of the
    cancellation flag, which was not set, and the calls before the volume
    return. *)
Definition reaches_save (env : Env) (rq : Request) (s : State) : bool :=
  acquires env rq s && negb (stop_called env BeforeSlotCheck) &&
  negb (_migrationCanceledEvt s) && transfer_reaches_save env.

(** A [pickle.dump] entry carries none of the transient keys. *)
Definition pickle_ok (e : Entry) : Prop :=
  match e.1 with
  | PickleDump _ p =>
      p !! "displayIp" = None /\ p !! "display" = None /\ p !! "pid" = None
  | _ => True
  end.

(** ** Cancellation *)

(** The code stored in [errCode['migCancelErr']] is not touched. *)
Definition cancel_code_same (s s' : State) : Prop :=
  code (heap s' (ErrCode E_migCancelErr)) = code (heap s (ErrCode E_migCancelErr)).


Definition is_migrate (e : Event) : bool :=
  match e with MigrateToURI2 _ _ _ _ => true | _ => false end.

(** Does the log show a call to [migrateToURI2]? *)
Definition has_migrate (l : list Entry) : bool :=
  existsb (fun e => is_migrate e.1) l.

Definition no_migrate (e : Entry) : Prop := is_migrate e.1 = false.


(** The monitor object, once created, stays. *)
Definition monitor_kept (s s' : State) : Prop :=
  is_Some (_monitorThread s) -> is_Some (_monitorThread s').

(** ** Environments and requests for the worked examples *)

(** Every collaborator answers as in an uneventful migration; the peer
    answers the [getVmStats] probe with [probe_code]. *)
(** The flag values of libvirt's public header. *)
Definition example_flags : MigrateFlags :=
  {| VIR_MIGRATE_LIVE := 1; VIR_MIGRATE_PEER2PEER := 2;
     VIR_MIGRATE_TUNNELLED := 4; VIR_MIGRATE_ABORT_ON_ERROR := 4096 |}.

Definition example_env (probe_code : Z) (raises : Site -> option exn)
    (stop_called : StopPoint -> bool) : Env :=
  {| raises := raises;
     stop_called := stop_called;
     ssl := false;
     monitor_interval := 10;
     migration_max_bandwidth := 32;
     libvirt := example_flags;
     time_start := 100;
     time_params := 101;
     vm_startTime := 50;
     hostPort := ("dst.example", "54321");
     getVmStats_code := probe_code;
     vm_status := <["status" := VStr "Up"]> (<["display" := VStr "vnc"]>
                  (<["displayIp" := VStr "0"]> (<["pid" := VStr "4711"]> ∅)));
     vm_getStats := <["username" := VStr "root"]> ∅;
     XMLDesc := "<domain/>";
     isResponsive := false;
     session := fun _ => Some "Locked";
     customDevices := 0;
     migrationCreate_response :=
       {| code := 0; message := "Done"; progress := None |};
     prepareVolumePath := fun vol => "/rhev/" +:+ vol |}.

Definition remote_request : Request :=
  {| _dst := "dst.example"; _dstparams := ""; _mode := "remote";
     _method := "online"; _tunneled := false; _abortOnError := false;
     _dstqemu := ""; _downtime := 500; vm_id := "vm1" |}.

Definition file_request : Request :=
  {| _dst := "hibernate-volume"; _dstparams := "params-volume";
     _mode := "file"; _method := "online"; _tunneled := false;
     _abortOnError := false; _dstqemu := ""; _downtime := 500;
     vm_id := "vm1" |}.

(** A save to file asked for with the constructor's defaults for [dst]
    and [dstparams]. *)
Definition same_volume_request : Request :=
  {| _dst := ""; _dstparams := ""; _mode := "file"; _method := "online";
     _tunneled := false; _abortOnError := false; _dstqemu := "";
     _downtime := 500; vm_id := "vm1" |}.

Definition no_raise : Site -> option exn := fun _ => None.
Definition no_stop : StopPoint -> bool := fun _ => false.

(** Where the example driver ends up. *)
Definition final (env : Env) (rq : Request) : State :=
  snd (run env rq example_state).

(** The specification's reading: when the probe finds the VM on the peer,
    the run ends with status [exist], never takes the slot and never calls
    the hypervisor's migration. *)
Definition C1_as_stated : Prop :=
  forall env rq s,
    _mode rq = "remote"%string ->
    raises env S_cannonizeHostPort = None ->
    raises env S_connect = None ->
    raises env S_getVmStats = None ->
    getVmStats_code env = 0 ->
    sem_value s <= sem_bound s ->
    let s' := snd (run env rq s) in
    status s' = ErrCode E_exist /\
    forall new,
      trace s' = trace s ++ new ->
      Forall (fun e => e.1 <> Acquire /\ is_hypervisor_migration e.1 = false)
             new.

(** The peer does not know the VM, the hypervisor reports the migration as
    aborted, and [stop()] is called while [migrateToURI2] runs; every
    [abortJob] fails. *)
Definition cancelled_env : Env :=
  example_env 1
    (fun site =>
       match site with
       | S_migrateToURI2 => Some (LibvirtError VIR_ERR_OPERATION_ABORTED)
       | S_abortJob _ => Some (LibvirtError 55)
       | _ => None
       end)
    (fun p => match p with DuringMigrate => true | _ => false end).

(** ** The monitor over a whole run *)

(** What the monitor keeps true of itself: while it samples it has not
    called [abortJob]; it never calls it twice; and it returns from [run]
    only with its stop event set. *)
Definition monitor_inv (st : Monitor.RunState) : Prop :=
  (Monitor.phase st = Monitor.Running -> Monitor.abortJobCalls st = 0%nat) /\
  (Monitor.abortJobCalls st <= 1)%nat /\
  (Monitor.phase st = Monitor.Exited ->
   Monitor._stop (Monitor.self st) = true).

(** [lm] is the least [dataRemaining] among the samples. *)
Definition least_remaining (ticks : list Monitor.Tick) (lm : Z) : Prop :=
  (forall tk, tk ∈ ticks ->
     exists ji, Monitor.jobInfo tk = Some ji /\ lm <= Monitor.dataRemaining ji) /\
  (exists tk ji, tk ∈ ticks /\ Monitor.jobInfo tk = Some ji /\
                 Monitor.dataRemaining ji = lm).

(** The samples arrive, nobody asks the monitor to stop, and each sample
    reports less data remaining than the one before ([bound], when there
    is one before). *)
Fixpoint descending (bound : option Z) (ticks : list Monitor.Tick) : Prop :=
  match ticks with
  | [] => True
  | tk :: ticks' =>
      Monitor.stopRequested tk = false /\
      exists ji,
        Monitor.jobInfo tk = Some ji /\
        (forall b, bound = Some b -> Monitor.dataRemaining ji < b) /\
        descending (Some (Monitor.dataRemaining ji)) ticks'
  end.

(** The [dataRemaining] of the samples. *)
Definition remainings (ticks : list Monitor.Tick) : list Z :=
  omap (fun tk => Monitor.dataRemaining <$> Monitor.jobInfo tk) ticks.

(** ** The waits of the downtime ramp *)

(** The timeouts passed to [self._stop.wait], in order. *)
Definition waits (evs : list Downtime.Event) : list Z :=
  omap (fun e => match e with
                 | Downtime.Wait t => Some t
                 | Downtime.MigrateSetMaxDowntime _ => None
                 end) evs.

(** The time the ramp spends waiting when every timeout runs out. *)
Definition total_wait (evs : list Downtime.Event) : Z :=
  foldr Z.add 0 (waits evs).

(** The order of the ramp's events: a wait, then the call that follows it,
    then a wait again; the last wait may stand alone, a call never does. *)
Fixpoint wait_first (evs : list Downtime.Event) : bool :=
  match evs with
  | [] => true
  | [Downtime.Wait _] => true
  | Downtime.Wait _ :: Downtime.MigrateSetMaxDowntime _ :: evs' =>
      wait_first evs'
  | _ => false
  end.

(** ** The preparation of the guest and of the parameter snapshot *)

(** Is the entry one of the polls of the guest's session state? *)
Definition is_poll (e : Entry) : bool :=
  match e.1 with Call (S_getStats_session _) => true | _ => false end.

(** The polls of a log. *)
Definition polls (l : list Entry) : list Entry :=
  filter (fun e => is_poll e = true) l.

(** [session] answers ["Locked"] or ["LoggedOff"] at poll [i]. *)
Definition locked_at (env : Env) (i : nat) : bool :=
  match session env i with
  | Some st => String.eqb st "Locked" || String.eqb st "LoggedOff"
  | None => false
  end.

(** [drive['device'] == item], for a drive that has the key. *)
Definition has_device (item : string) (d : drive) : bool :=
  match d !! "device" with
  | Some dev => String.eqb dev item
  | None => false
  end.

Definition is_legacy (d : drive) : bool :=
  has_device "cdrom" d || has_device "floppy" d.

(** Every drive names its device, and the cdroms and floppies have a path. *)
Definition drives_ok (l : list drive) : bool :=
  forallb (fun d => bool_decide (is_Some (d !! "device")) &&
                    (negb (is_legacy d) || bool_decide (is_Some (d !! "path"))))
          l.

(** The path of the last drive of [l] whose device is [item]. *)
Definition legacy_path (item : string) (l : list drive) : option string :=
  last (omap (fun d => if has_device item d then d !! "path" else None) l).

(** The drives [_patchConfigForLegacy] keeps. *)
Definition modern_drives (l : list drive) : list drive :=
  filter (fun d => is_legacy d = false) l.

(** Four drives: a disk, two cdroms and a floppy. *)
Definition example_drives : list drive :=
  [ <["device" := "disk"%string]> (<["path" := "/dev/vg/root"%string]> ∅);
    <["device" := "cdrom"%string]> (<["path" := "/iso/a.iso"%string]> ∅);
    <["device" := "floppy"%string]> (<["path" := "/img/b.vfd"%string]> ∅);
    <["device" := "cdrom"%string]> (<["path" := "/iso/c.iso"%string]> ∅) ].

(** ** Threads of a remote transfer *)

(** Neither the creation of the downtime thread nor its cancellation. *)
Definition quiet_thread (e : Entry) : Prop :=
  e <> (Call S_DowntimeThread, None) /\ e.1 <> CancelDowntimeThread.

(** [evs] shows no downtime thread, or one that is created and cancelled
    at the end. *)
Definition thread_cancelled (evs : list Entry) : Prop :=
  Forall quiet_thread evs \/
  exists pre mid,
    evs = pre ++ [(Call S_DowntimeThread, None)] ++ mid ++
          [(CancelDowntimeThread, None)] /\
    Forall quiet_thread pre /\ Forall quiet_thread mid.

(** The monitor, if there is one, has been told to stop. *)
Definition monitor_stopped (s : State) : Prop :=
  forall m, _monitorThread s = Some m -> Monitor._stop m = true.

(** No thread is created or cancelled, and the monitor field stays. *)
Definition threads_same (s s' : State) : Prop :=
  appends quiet_thread s s' /\ _monitorThread s' = _monitorThread s.

(** [m], entered without a monitor, leaves no thread behind. *)
Definition tidy {A} (m : M A) : Prop :=
  forall s, _monitorThread s = None ->
    exists evs, trace (m s).2 = trace s ++ evs /\ thread_cancelled evs /\
                monitor_stopped (m s).2.

(** ** How a run ends *)

(** As long as [self.status] is not [errCode['migrateErr']], that entry of
    the table is not written. *)
Definition migrateErr_kept (s s' : State) : Prop :=
  status s <> ErrCode E_migrateErr ->
  status s' <> ErrCode E_migrateErr /\
  heap s' (ErrCode E_migrateErr) = heap s (ErrCode E_migrateErr).

(** Does [_recover] call [vm.cont()]? *)
Definition recovers (rq : Request) : bool :=
  String.eqb (_mode rq) "file" || negb (String.eqb (_method rq) "online").

(** A run that follows [setMaxOutgoingMigrations(n)]. *)
Definition run_after_setMax (env : Env) (rq : Request) (n : Z) : M unit :=
  setMaxOutgoingMigrations n ;; run env rq.

(** [setMaxOutgoingMigrations(n)] between the [acquire] and the [release]
    of a run. *)
Definition setMax_while_held (n : Z) : M unit :=
  acquire ;; setMaxOutgoingMigrations n ;; release.

(** ** A run that is cancelled before it starts the transfer *)

(** The calls [run] makes between the write of [_migrationParams] and the
    end of [_finishSuccessfully]. *)
Definition transfer_site (site : Site) : bool :=
  match site with
  | S_saveState | S_XMLDesc_hook | S_before_vm_hibernate | S_vmStats_pause
  | S_prepareVolumePath_dst | S_save | S_teardownVolumePath_dst
  | S_vmStats_cont | S_customDevices | S_before_device_migrate_source _
  | S_before_vm_migrate_source | S_migrationCreate | S_DowntimeThread
  | S_MonitorThread_start | S_reviveTicket | S_migrateToURI2
  | S_setDownStatus | S_prepareVolumePath_dstparams | S_pickle_dump
  | S_teardownVolumePath_dstparams => true
  | _ => false
  end.

(** Entries that show nothing of a transfer: the slot, the removal of
    [_migrationParams], [abortJob], and the calls of the preparation and of
    the recovery. *)
Definition idle (e : Entry) : Prop :=
  match e.1 with
  | Acquire | Release | DelMigrationParams | AbortJob => True
  | Call site => transfer_site site = false
  | _ => False
  end.

(** A cancellation that has been asked for stays asked for. *)
Definition cancel_kept (s s' : State) : Prop :=
  _migrationCanceledEvt s = true -> _migrationCanceledEvt s' = true.

(** ** What the hypervisor is asked *)

(** [duri] and [muri] as [_startUnderlyingMigration] builds them. *)
Definition dest_uri (env : Env) : string :=
  "qemu+" +:+ (if ssl env then "tls" else "tcp") +:+ "://" +:+
  (hostPort env).1 +:+ "/system".

Definition migration_uri (env : Env) (rq : Request) : string :=
  if negb (String.eqb (_dstqemu rq) "") then "tcp://" +:+ _dstqemu rq
  else "tcp://" +:+ (hostPort env).1.

(** The one entry a call to [migrateToURI2] may leave in the log of a run
    of request [rq]. *)
Definition migrate_entry (env : Env) (rq : Request) (o : option exn) : Entry :=
  (MigrateToURI2 (dest_uri env) (migration_uri env rq) (migrate_flags env rq)
     (migration_max_bandwidth env), o).

(** [evs] shows no call to [migrateToURI2], or one, with the arguments of
    [migrate_entry]. *)
Definition migrates_once (env : Env) (rq : Request) (evs : list Entry) : Prop :=
  Forall no_migrate evs \/
  exists pre o post,
    evs = pre ++ [migrate_entry env rq o] ++ post /\
    Forall no_migrate pre /\ Forall no_migrate post.

(** [m] asks the hypervisor to migrate at most once, with those arguments. *)
Definition once {A} (env : Env) (rq : Request) (m : M A) : Prop :=
  forall s, exists evs,
    trace (m s).2 = trace s ++ evs /\ migrates_once env rq evs.

(** The driver knows the peer, and the VM configuration names the
    destination qemu of the request. *)
Definition ready (env : Env) (rq : Request) (s : State) : Prop :=
  remoteHost s = Some (hostPort env).1 /\ conf_dstqemu s = Some (_dstqemu rq).

(** ... the same from a state that is [ready]. *)
Definition once_from {A} (env : Env) (rq : Request) (m : M A) : Prop :=
  forall s, ready env rq s ->
    exists evs, trace (m s).2 = trace s ++ evs /\ migrates_once env rq evs.

(** [ready] stays and no migration is asked for. *)
Definition keeps_ready (env : Env) (rq : Request) (s s' : State) : Prop :=
  (ready env rq s -> ready env rq s') /\ appends no_migrate s s'.

(** [stop()] does not touch the peer's name. *)
Definition host_same (s s' : State) : Prop := remoteHost s' = remoteHost s.

(** ** Runs in which nothing fails, and a peer that refuses *)

(** The log grown by the entries [l]. *)
Definition logs (l : list Entry) (s : State) : State :=
  {| status := status s; heap := heap s; _machineParams := _machineParams s;
     _preparingMigrationEvt := _preparingMigrationEvt s;
     _migrationCanceledEvt := _migrationCanceledEvt s;
     _monitorThread := _monitorThread s; destServer := destServer s;
     remoteHost := remoteHost s; conf := conf s; lastStatus := lastStatus s;
     sem_value := sem_value s; sem_bound := sem_bound s;
     trace := trace s ++ l |}.

(** What the parameter snapshot leaves alone of the driver's own fields. *)
Definition driver_same (s s' : State) : Prop :=
  remoteHost s' = remoteHost s /\ destServer s' = destServer s /\
  _migrationCanceledEvt s' = _migrationCanceledEvt s /\
  _monitorThread s' = _monitorThread s /\ lastStatus s' = lastStatus s.

(** The flag [stop()] sets is not touched. *)
Definition flag_same (s s' : State) : Prop :=
  _migrationCanceledEvt s' = _migrationCanceledEvt s.

(** The entries of [n] device hooks that return, from device [i] on. *)
Definition hook_entries (n i : nat) : list Entry :=
  map (fun j => (Call (S_before_device_migrate_source j), None)) (seq i n).

(** Is the SPICE ticket revived before the migration? *)
Definition revives (s : State) : bool :=
  match conf s !! "display" with
  | Some display =>
      match contains "qxl" display with
      | Some qxl =>
          qxl && match conf s !! "clientIp" with
                 | Some ip => truthy ip
                 | None => false
                 end
      | None => false
      end
  | None => false
  end.

(** The display of the VM is a value [in] can be asked of. *)
Definition display_ok (s : State) : bool :=
  match conf s !! "display" with
  | Some display => bool_decide (is_Some (contains "qxl" display))
  | None => false
  end.

(** The log of a remote migration in which nothing fails, from the
    acquisition of the slot on. *)
Definition remote_success_log (env : Env) (rq : Request) (s : State)
    : list Entry :=
  [(Acquire, None); (SetMigrationParams, None);
   (Call S_saveState, None); (Call S_customDevices, None)] ++
  hook_entries (customDevices env) 0 ++
  [(Call S_XMLDesc_hook, None); (Call S_before_vm_migrate_source, None);
   (Call S_migrationCreate, None); (Call S_DowntimeThread, None)] ++
  (if monitor_interval env =? 0 then []
   else [(Call S_MonitorThread_start, None)]) ++
  (if revives s then [(Call S_reviveTicket, None)] else []) ++
  [migrate_entry env rq None;
   (CancelDowntimeThread, None); (Call S_setDownStatus, None);
   (DelMigrationParams, None); (Release, None)].

(** The log of a save to file in which nothing fails, from the
    acquisition of the slot on; [mp] is the parameter snapshot. *)
Definition file_success_log (env : Env) (rq : Request) (mp : params)
    : list Entry :=
  [(Acquire, None); (SetMigrationParams, None); (Call S_saveState, None);
   (Call S_XMLDesc_hook, None); (Call S_before_vm_hibernate, None);
   (Call S_vmStats_pause, None);
   (PrepareVolumePath (_dst rq), None);
   (Save (prepareVolumePath env (_dst rq)), None);
   (TeardownVolumePath (_dst rq), None);
   (PrepareVolumePath (_dstparams rq), None);
   (PickleDump (prepareVolumePath env (_dstparams rq)) (strip_transient mp),
    None);
   (TeardownVolumePath (_dstparams rq), None);
   (Call S_setDownStatus, None); (DelMigrationParams, None); (Release, None)].

(** The log of a remote migration that the peer refuses, from the
    acquisition of the slot on. *)
Definition refused_log (env : Env) (rq : Request) : list Entry :=
  [(Acquire, None); (SetMigrationParams, None);
   (Call S_saveState, None); (Call S_customDevices, None)] ++
  hook_entries (customDevices env) 0 ++
  [(Call S_XMLDesc_hook, None); (Call S_before_vm_migrate_source, None);
   (Call S_migrationCreate, None);
   (DelMigrationParams, None); (Release, None); (Call S_destroy, None)] ++
  (if String.eqb (_method rq) "online" then [] else [(Call S_vm_cont, None)]).

(** A peer that answers [migrationCreate] with an error. *)
Definition refusing_env : Env :=
  {| raises := no_raise; stop_called := no_stop; ssl := true;
     monitor_interval := 10; migration_max_bandwidth := 32;
     libvirt := example_flags;
     time_start := 100; time_params := 101; vm_startTime := 50;
     hostPort := ("dst.example", "54321"); getVmStats_code := 1;
     vm_status := ∅; vm_getStats := ∅; XMLDesc := "<domain/>";
     isResponsive := false; session := fun _ => None; customDevices := 2;
     migrationCreate_response :=
       {| code := 9; message := "Failed to create VM"; progress := None |};
     prepareVolumePath := fun vol => vol |}.

(** The hypervisor refuses to save the domain. *)
Definition save_fails : Site -> option exn :=
  fun site => match site with
              | S_save => Some (Exception "No space left on device")
              | _ => None
              end.

(** [stop()] is called before the run checks the cancellation flag. *)
Definition early_stop : StopPoint -> bool :=
  fun p => match p with BeforeSlotCheck => true | _ => false end.

(** * Proofs *)

(** ** The progress monitor *)

Lemma Qltb_lt (x y : Q) : Qltb x y = true <-> (x < y)%Q.
Proof.
  unfold Qltb. rewrite negb_true_iff. split.
  - intros H. apply Qnot_le_lt. intros Hle.
    apply Qle_bool_iff in Hle. congruence.
  - intros H. destruct (Qle_bool y x) eqn:E; [|reflexivity].
    apply Qle_bool_iff in E. exfalso. exact (Qlt_not_le _ _ H E).
Qed.

Lemma calc_le_100 r t : Monitor.calculateProgress r t <= 100.
Proof.
  unfold Monitor.calculateProgress.
  destruct (r =? 0); [lia|].
  destruct (_ <? 100) eqn:E; [apply Z.ltb_lt in E|]; lia.
Qed.

Lemma calc_100 r t : Monitor.calculateProgress r t = 100 -> r = 0.
Proof.
  unfold Monitor.calculateProgress.
  destruct (r =? 0) eqn:E0; [apply Z.eqb_eq in E0; auto|].
  destruct (_ <? 100) eqn:E; [apply Z.ltb_lt in E|]; lia.
Qed.

Lemma calc_clamp r t : 0 < r -> 0 < t ->
  Monitor.calculateProgress r t = Z.min 99 (100 - 100 * r / t).
Proof.
  intros Hr Ht. unfold Monitor.calculateProgress.
  destruct (r =? 0) eqn:E0; [apply Z.eqb_eq in E0; lia|].
  destruct (t =? 0) eqn:E1; [apply Z.eqb_eq in E1; lia|].
  destruct (_ <? 100) eqn:E; [apply Z.ltb_lt in E|apply Z.ltb_ge in E]; lia.
Qed.

Lemma calc_mono t r1 r2 : 0 < t -> 0 <= r2 <= r1 ->
  Monitor.calculateProgress r1 t <= Monitor.calculateProgress r2 t.
Proof.
  intros Ht Hr.
  destruct (Z.eq_dec r2 0) as [->|Hn].
  - replace (Monitor.calculateProgress 0 t) with 100 by reflexivity.
    apply calc_le_100.
  - rewrite !calc_clamp by lia.
    assert (100 * r2 / t <= 100 * r1 / t) by (apply Z.div_le_mono; lia).
    lia.
Qed.

Lemma calc_nonneg t r : 0 < t -> 0 <= r <= t -> 0 <= Monitor.calculateProgress r t.
Proof.
  intros Ht Hr.
  destruct (Z.eq_dec r 0) as [->|Hn]; [cbv; discriminate|].
  rewrite calc_clamp by lia.
  assert (100 * r / t <= 100) by (apply Z.div_le_upper_bound; lia).
  lia.
Qed.

Lemma C2_counterexample : ~ C2_as_stated.
Proof.
  intros H.
  destruct (H migrating_state example_monitor_cfg (Some 1024) 0%Q 0%Q
              [sample 1 100 10 (10#1)] (sample 1 100 50 (20#1)) 90 50
              eq_refl eq_refl eq_refl eq_refl) as [Hle _].
  lia.
Qed.

(** The monitor reports 100 as soon as a sample shows nothing left to
    transfer, while the driver is still inside [migrateToURI2]. *)
Lemma example_progress_100_early :
  observe migrating_state example_monitor_cfg (Some 1024) 0%Q
          [sample 1 100 0 (10#1)] = Some 100 /\
  Source.code (Source.read_status migrating_state) = 0 /\
  ~ finished_successfully migrating_state.
Proof.
  split; [reflexivity|]. split; [reflexivity|].
  intros [H|H]; vm_compute in H; discriminate.
Qed.

Lemma Loc_eqb_refl l : Source.Loc_eqb l l = true.
Proof. destruct l as [|[]|]; reflexivity. Qed.

Lemma observe_monitor (s : Source.State) cfg memSize t0 obj ticks :
  Source._monitorThread s = Some obj ->
  observe s cfg memSize t0 ticks =
  Some (Monitor.progress (Monitor.self (Monitor.run cfg memSize t0 obj ticks))).
Proof.
  intros H. unfold observe. rewrite H.
  unfold getStat_progress, Source.getStat, Source.bind, Source.get,
    Source.modify, Source.ret, Source.read_status, Source.write_status,
    Source.heap_update.
  simpl. rewrite Loc_eqb_refl. reflexivity.
Qed.

Lemma step_progress cfg st tk :
  Monitor.progress (Monitor.self (Monitor.step cfg st tk)) =
    Monitor.progress (Monitor.self st) \/
  exists ji, Monitor.jobInfo tk = Some ji /\ Monitor.jobType ji <> 0 /\
    Monitor.progress (Monitor.self (Monitor.step cfg st tk)) =
    Monitor.calculateProgress (Monitor.dataRemaining ji) (Monitor.dataTotal ji).
Proof.
  unfold Monitor.step.
  destruct (Monitor.phase st); auto.
  destruct (Monitor.stopRequested tk); simpl; auto.
  destruct (Monitor._stop (Monitor.self st)); simpl; auto.
  destruct (Monitor.jobInfo tk) as [ji|]; simpl; auto.
  destruct (Monitor.decide_abort _ _ _ _) as [[[] lm] lp]; simpl.
  - destruct (Monitor.abortJobRaises tk); simpl; auto.
  - destruct (Monitor.jobType ji =? 0) eqn:E; simpl; auto.
    right. exists ji. apply Z.eqb_neq in E. auto.
Qed.

Lemma below_step cfg total bound st tk :
  0 < total -> below total bound st -> steady total bound [tk] ->
  Monitor.progress (Monitor.self st) <=
    Monitor.progress (Monitor.self (Monitor.step cfg st tk)) /\
  forall bound',
    match Monitor.jobInfo tk with
    | Some ji => bound' = Monitor.dataRemaining ji
    | None => bound' = bound
    end -> below total bound' (Monitor.step cfg st tk).
Proof.
  intros Ht Hb Hs. simpl in Hs.
  destruct (step_progress cfg st tk) as [E | (ji & Hji & _ & E)].
  - rewrite E. split; [lia|]. intros bound' Hb'.
    destruct (Monitor.jobInfo tk) as [ji|]; subst bound'.
    + destruct Hs as (_ & Hr & _). intros r Hr'. rewrite E. apply Hb. lia.
    + intros r Hr'. rewrite E. apply Hb. lia.
  - rewrite Hji in *. destruct Hs as (Htot & Hr & _). rewrite E, Htot.
    split; [apply Hb; lia|].
    intros bound' ->. intros r Hr'. rewrite E, Htot.
    apply calc_mono; lia.
Qed.

Lemma below_fold cfg total :
  0 < total ->
  forall ticks tk bound st,
    below total bound st -> steady total bound (ticks ++ [tk]) ->
    Monitor.progress (Monitor.self (fold_left (Monitor.step cfg) ticks st)) <=
    Monitor.progress
      (Monitor.self (fold_left (Monitor.step cfg) (ticks ++ [tk]) st)).
Proof.
  intros Ht. induction ticks as [|tk0 ticks IH]; intros tk bound st Hb Hs.
  - simpl. eapply below_step; eauto.
  - simpl. simpl in Hs.
    destruct (Monitor.jobInfo tk0) as [ji|] eqn:Hji.
    + destruct Hs as (Htot & Hr & Hs).
      apply (IH tk (Monitor.dataRemaining ji)); auto.
      assert (Hone : steady total bound [tk0]).
      { simpl. rewrite Hji. repeat split; auto; lia. }
      destruct (below_step cfg total bound st tk0 Ht Hb Hone) as [_ Hnext].
      apply Hnext. rewrite Hji. reflexivity.
    + apply (IH tk bound); auto.
      assert (Hone : steady total bound [tk0]).
      { simpl. rewrite Hji. exact I. }
      destruct (below_step cfg total bound st tk0 Ht Hb Hone) as [_ Hnext].
      apply Hnext. rewrite Hji. reflexivity.
Qed.

Lemma fold_progress cfg ticks : forall st,
  Monitor.progress (Monitor.self (fold_left (Monitor.step cfg) ticks st)) =
    Monitor.progress (Monitor.self st) \/
  exists tk ji, tk ∈ ticks /\ Monitor.jobInfo tk = Some ji /\
    Monitor.jobType ji <> 0 /\
    Monitor.progress (Monitor.self (fold_left (Monitor.step cfg) ticks st)) =
    Monitor.calculateProgress (Monitor.dataRemaining ji) (Monitor.dataTotal ji).
Proof.
  induction ticks as [|tk ticks IH]; intros st; simpl; auto.
  destruct (IH (Monitor.step cfg st tk)) as [E | (tk' & ji & Hin & Hji & Hjt & E)].
  - rewrite E. destruct (step_progress cfg st tk) as [E' | (ji & Hji & Hjt & E')];
      [auto|].
    right. exists tk, ji. repeat split; auto. left.
  - right. exists tk', ji. repeat split; auto. now right.
Qed.

Lemma start_progress cfg memSize t0 obj :
  Monitor.self (Monitor.start cfg memSize t0 obj) = obj.
Proof. destruct memSize; reflexivity. Qed.

(** [C2] While a monitor exists, [getStat] exposes the monitor's [progress],
    which every sample either leaves as it is or sets to
    [calculateProgress(dataRemaining, dataTotal)]. Whatever the samples
    report, the exposed value never exceeds 100, and it is 100 only after a
    sample that reported [dataRemaining = 0]. Over samples that report one
    positive [dataTotal] and a [dataRemaining] that never grows and stays
    between 0 and [dataTotal], the exposed value does not decrease. *)
Theorem C2_progress_exposed (s : Source.State) cfg memSize t0 startTime
    ticks tk :
  Source._monitorThread s = Some (Monitor.__init__ startTime) ->
  exists p1 p2,
    observe s cfg memSize t0 ticks = Some p1 /\
    observe s cfg memSize t0 (ticks ++ [tk]) = Some p2 /\
    (p2 = p1 \/
     exists ji, Monitor.jobInfo tk = Some ji /\ Monitor.jobType ji <> 0 /\
       p2 = Monitor.calculateProgress (Monitor.dataRemaining ji)
                                      (Monitor.dataTotal ji)) /\
    p2 <= 100 /\
    (p2 = 100 ->
     exists tk' ji, tk' ∈ ticks ++ [tk] /\ Monitor.jobInfo tk' = Some ji /\
                    Monitor.dataRemaining ji = 0) /\
    (forall total,
       0 < total -> steady total total (ticks ++ [tk]) -> p1 <= p2).
Proof.
  intros Hm.
  rewrite !(observe_monitor _ _ _ _ _ _ Hm).
  eexists _, _. split; [reflexivity|]. split; [reflexivity|].
  split; [|split; [|split]].
  - unfold Monitor.run. rewrite fold_left_app. simpl. apply step_progress.
  - unfold Monitor.run.
    destruct (fold_progress cfg (ticks ++ [tk])
                (Monitor.start cfg memSize t0 (Monitor.__init__ startTime)))
      as [E | (tk' & ji & _ & _ & _ & E)]; rewrite E.
    + rewrite start_progress. simpl. lia.
    + apply calc_le_100.
  - unfold Monitor.run. intros H100.
    destruct (fold_progress cfg (ticks ++ [tk])
                (Monitor.start cfg memSize t0 (Monitor.__init__ startTime)))
      as [E | (tk' & ji & Hin & Hji & _ & E)]; rewrite E in H100.
    + rewrite start_progress in H100. simpl in H100. lia.
    + exists tk', ji. repeat split; auto. eapply calc_100; eauto.
  - intros total Ht Hs.
    unfold Monitor.run. apply (below_fold cfg total Ht ticks tk total); auto.
    intros r Hr. rewrite start_progress. simpl. apply calc_nonneg; lia.
Qed.

Lemma C2_progress_exposed_witness :
  exists p1 p2,
    observe migrating_state example_monitor_cfg (Some 1024) 0%Q
      [sample 1 100 50 (10#1)] = Some p1 /\
    observe migrating_state example_monitor_cfg (Some 1024) 0%Q
      ([sample 1 100 50 (10#1)] ++ [sample 1 100 10 (20#1)]) = Some p2 /\
    (p2 = p1 \/
     exists ji, Monitor.jobInfo (sample 1 100 10 (20#1)) = Some ji /\
       Monitor.jobType ji <> 0 /\
       p2 = Monitor.calculateProgress (Monitor.dataRemaining ji)
                                      (Monitor.dataTotal ji)) /\
    p2 <= 100 /\
    (p2 = 100 ->
     exists tk' ji, tk' ∈ [sample 1 100 50 (10#1)] ++ [sample 1 100 10 (20#1)] /\
                    Monitor.jobInfo tk' = Some ji /\
                    Monitor.dataRemaining ji = 0) /\
    (forall total,
       0 < total ->
       steady total total ([sample 1 100 50 (10#1)] ++ [sample 1 100 10 (20#1)]) ->
       p1 <= p2).
Proof.
  apply (C2_progress_exposed migrating_state example_monitor_cfg (Some 1024)
           0%Q 0%Q).
  reflexivity.
Defined.


Lemma overrun_dec st now :
  (0 <? Monitor.migrationMaxTime st) &&
  Qltb (inject_Z (Monitor.migrationMaxTime st))
       (now - Monitor._startTime (Monitor.self st)) = true <-> overrun st now.
Proof.
  unfold overrun. rewrite andb_true_iff, Z.ltb_lt, Qltb_lt. reflexivity.
Qed.








(** [C9] [calculateProgress(0, t) = 100] for every [t]; for [0 < r] and
    [0 < t] it is [100 - 100*r/t] in integer arithmetic, replaced by 99 when
    that would be 100; and [calculateProgress(r, 0) = 0] for [0 < r]. *)
Theorem C9_calculateProgress (r t : Z) (Hr : 0 < r) (Ht : 0 < t) :
  (forall total, Monitor.calculateProgress 0 total = 100) /\
  Monitor.calculateProgress r t = Z.min 99 (100 - 100 * r / t) /\
  Monitor.calculateProgress r 0 = 0.
Proof.
  split; [reflexivity|]. split; [apply calc_clamp; assumption|].
  unfold Monitor.calculateProgress.
  destruct (r =? 0) eqn:E; [apply Z.eqb_eq in E; lia|reflexivity].
Qed.

Lemma C9_calculateProgress_witness :
  (forall total, Monitor.calculateProgress 0 total = 100) /\
  Monitor.calculateProgress 1 3 = Z.min 99 (100 - 100 * 1 / 3) /\
  Monitor.calculateProgress 1 0 = 0.
Proof. apply (C9_calculateProgress 1 3); lia. Defined.

(** ** The downtime ramp *)

Lemma C7_counterexample : ~ C7_as_stated.
Proof.
  intros H.
  destruct (H example_ramp_cfg 1024 5 (fun _ => false) (fun _ => false)
              (fun _ => eq_refl) (fun _ => eq_refl)) as [_ Hinc].
  specialize (Hinc 1%nat 2%nat 1 1 eq_refl eq_refl). lia.
Qed.

Lemma loop_downtimes cfg w D stopSet callRaises :
  forall (m a n : nat),
    (n <= m)%nat ->
    (forall i, (a <= i < a + n)%nat -> stopSet i = false /\ callRaises i = false) ->
    ((n < m)%nat -> stopSet (a + n)%nat = true) ->
    Downtime.downtimes
      (fst (Downtime.loop cfg w D stopSet callRaises (seq a m))) =
      map (ramp_value D (Downtime.DOWNTIME_STEPS cfg)) (seq (S a) n) /\
    snd (Downtime.loop cfg w D stopSet callRaises (seq a m)) =
      (if (n <? m)%nat then Downtime.Cancelled else Downtime.Finished).
Proof.
  induction m as [|m IH]; intros a n Hn Hok Hstop.
  - assert (n = 0%nat) as -> by lia. simpl. auto.
  - simpl. destruct n as [|n].
    + rewrite <- (Nat.add_0_r a) at 1 3. rewrite Hstop by lia. simpl. auto.
    + destruct (Hok a) as [-> ->]; [lia|].
      destruct (IH (S a) n) as [IH1 IH2].
      * lia.
      * intros i Hi. apply Hok. lia.
      * intros Hlt. replace (S a + n)%nat with (a + S n)%nat by lia.
        apply Hstop. lia.
      * destruct (Downtime.loop _ _ _ _ _ (seq (S a) m)) as [evs ex].
        simpl in *. rewrite IH1, IH2. split.
        -- unfold ramp_value at 2. f_equal. f_equal. f_equal. lia.
        -- destruct (n <? m)%nat eqn:E1, (S n <? S m)%nat eqn:E2; auto;
             [apply Nat.ltb_lt in E1; apply Nat.ltb_ge in E2
             |apply Nat.ltb_ge in E1; apply Nat.ltb_lt in E2]; lia.
Qed.

Lemma ramp_values_lookup D N n i x :
  ramp_values D N n !! i = Some x -> (i < n)%nat /\ x = ramp_value D N (S i).
Proof.
  unfold ramp_values. rewrite list_lookup_fmap.
  destruct (seq 1 n !! i) as [k|] eqn:E; simpl; [|discriminate].
  apply lookup_seq in E as [-> Hlt]. intros [= <-]. auto.
Qed.

Lemma ramp_value_mono D N (i j : nat) :
  0 <= D -> 0 < N -> (i <= j)%nat -> ramp_value D N i <= ramp_value D N j.
Proof.
  intros HD HN Hij. unfold ramp_value. apply Z.div_le_mono; nia.
Qed.

Lemma ramp_value_strict D N (i j : nat) :
  0 < N <= D -> (i < j)%nat -> ramp_value D N i < ramp_value D N j.
Proof.
  intros HN Hij. unfold ramp_value.
  assert (D * Z.of_nat i / N + 1 <= D * Z.of_nat j / N); [|lia].
  rewrite <- (Z.div_add _ 1 N) by lia.
  apply Z.div_le_mono; nia.
Qed.

(** [C7] A run of the ramp whose first [n] turns are neither cancelled nor
    failing, and which is either complete ([n = N]) or sees the
    cancellation in turn [n], issues exactly [n] calls to
    [migrateSetMaxDowntime], with the values [D*k/N] (integer division) for
    [k = 1..n]; it ends [Finished] when [n = N] and [Cancelled] otherwise,
    with no call after the cancellation. The values never decrease when
    [0 <= D], and increase strictly when [N <= D]. *)
Theorem C7_downtime_ramp cfg memSize D stopSet callRaises (n : nat) :
  (n <= Z.to_nat (Downtime.DOWNTIME_STEPS cfg))%nat ->
  (forall i, (i < n)%nat -> stopSet i = false /\ callRaises i = false) ->
  ((n < Z.to_nat (Downtime.DOWNTIME_STEPS cfg))%nat -> stopSet n = true) ->
  let N := Downtime.DOWNTIME_STEPS cfg in
  let r := Downtime.run cfg memSize D stopSet callRaises in
  Downtime.downtimes (fst r) = ramp_values D N n /\
  length (Downtime.downtimes (fst r)) = n /\
  snd r = (if (n <? Z.to_nat N)%nat then Downtime.Cancelled
           else Downtime.Finished) /\
  (0 <= D -> increasing Z.le (Downtime.downtimes (fst r))) /\
  (N <= D -> increasing Z.lt (Downtime.downtimes (fst r))).
Proof.
  intros Hn Hok Hstop N r.
  destruct (loop_downtimes cfg (Downtime._wait cfg memSize) D stopSet callRaises
              (Z.to_nat N) 0 n Hn) as [H1 H2].
  { intros i Hi. apply Hok. lia. }
  { intros Hlt. simpl. auto. }
  subst r. unfold Downtime.run. fold N. rewrite H1, H2.
  split; [reflexivity|]. split.
  { unfold ramp_values. rewrite length_map, length_seq. reflexivity. }
  split; [reflexivity|].
  assert (HN : forall i x, ramp_values D N n !! i = Some x -> 0 < N).
  { intros i x Hx. apply ramp_values_lookup in Hx as [Hlt _]. lia. }
  split.
  - intros HD i j x y Hi Hj Hij. pose proof (HN _ _ Hi).
    apply ramp_values_lookup in Hi as [_ ->].
    apply ramp_values_lookup in Hj as [_ ->].
    apply ramp_value_mono; lia.
  - intros HD i j x y Hi Hj Hij. pose proof (HN _ _ Hi).
    apply ramp_values_lookup in Hi as [_ ->].
    apply ramp_values_lookup in Hj as [_ ->].
    apply ramp_value_strict; lia.
Qed.

(** ** The driver: what each phase leaves untouched *)

Global Instance appends_preorder P : PreOrder (appends P).
Proof.
  split.
  - intros s. exists []. rewrite app_nil_r. auto.
  - intros s1 s2 s3 (l1 & E1 & F1) (l2 & E2 & F2).
    exists (l1 ++ l2). rewrite E2, E1, app_assoc. split; auto.
    apply Forall_app; auto.
Qed.

Global Instance conf_same_preorder : PreOrder conf_same.
Proof. split; unfold conf_same; [intros s | intros s1 s2 s3]; congruence. Qed.

Global Instance sem_same_preorder : PreOrder sem_same.
Proof.
  split; unfold sem_same; [intros s | intros s1 s2 s3]; intuition congruence.
Qed.

Global Instance frame_preorder P : PreOrder (frame P).
Proof.
  split.
  - intros s. repeat split; reflexivity.
  - intros s1 s2 s3 (A1 & B1 & C1) (A2 & B2 & C2).
    split; [|split]; etransitivity; eauto.
Qed.

Section Rules.

Context (R : State -> State -> Prop) `{!PreOrder R}.

Lemma respects_ret {A} (a : A) : respects R (ret a).
Proof. intros s. simpl. split; [discriminate|reflexivity]. Qed.

Lemma respects_raise {A} e : respects R (@raise A e).
Proof. intros s. simpl. split; [discriminate|reflexivity]. Qed.

Lemma respects_get : respects R get.
Proof. intros s. simpl. split; [discriminate|reflexivity]. Qed.

Lemma respects_modify f : (forall s, R s (f s)) -> respects R (modify f).
Proof. intros H s. simpl. split; [discriminate|apply H]. Qed.

Lemma respects_bind {A B} (m : M A) (k : A -> M B) :
  respects R m -> (forall a, respects R (k a)) -> respects R (bind m k).
Proof.
  intros Hm Hk s. unfold bind. destruct (Hm s) as [Hb Hr].
  destruct (m s) as [[a|e|] s1]; simpl in *.
  - destruct (Hk a s1) as [Hb' Hr']. split; auto. etransitivity; eauto.
  - split; [discriminate|auto].
  - congruence.
Qed.

Lemma respects_when b m : respects R m -> respects R (when b m).
Proof. destruct b; simpl; auto using respects_ret. Qed.

Lemma respects_try_except {A} (m : M A) h :
  respects R m -> (forall e, respects R (h e)) -> respects R (try_except m h).
Proof.
  intros Hm Hh s. unfold try_except. destruct (Hm s) as [Hb Hr].
  destruct (m s) as [[a|e|] s1]; simpl in *; auto.
  destruct (Hh e s1) as [Hb' Hr']. split; auto. etransitivity; eauto.
Qed.

Lemma respects_try_except_libvirt {A} (m : M A) h :
  respects R m -> (forall e, respects R (h e)) ->
  respects R (try_except_libvirt m h).
Proof.
  intros Hm Hh s. unfold try_except_libvirt. destruct (Hm s) as [Hb Hr].
  destruct (m s) as [[a|[c|msg]|] s1]; simpl in *; auto.
  destruct (Hh (LibvirtError c) s1) as [Hb' Hr']. split; auto.
  etransitivity; eauto.
Qed.

Lemma respects_try_finally {A} (m : M A) f :
  respects R m -> respects R f -> respects R (try_finally m f).
Proof.
  intros Hm Hf s. unfold try_finally. destruct (Hm s) as [Hb Hr].
  destruct (m s) as [[a|e|] s1]; simpl in *; try congruence;
    destruct (Hf s1) as [Hb' Hr'];
    destruct (f s1) as [[[]|e'|] s2]; simpl in *; try congruence;
    (split; [discriminate|etransitivity; eauto]).
Qed.

Lemma respects_callE env site ev :
  (forall s o, R s (log (ev, o) s)) -> respects R (callE env site ev).
Proof.
  intros H s. unfold callE. destruct (raises env site); simpl;
    (split; [discriminate|apply H]).
Qed.

Lemma respects_concurrent_stop env p :
  respects R (stop env p) -> respects R (concurrent_stop env p).
Proof.
  intros H s. unfold concurrent_stop. destruct (stop_called env p); simpl.
  - split; [discriminate|apply H].
  - split; [discriminate|reflexivity].
Qed.

End Rules.

Lemma appends_log (P : Entry -> Prop) e s : P e -> appends P s (log e s).
Proof. intros H. exists [e]. simpl. auto. Qed.

Lemma appends_same (P : Entry -> Prop) s s' : trace s' = trace s -> appends P s s'.
Proof. intros H. exists []. rewrite app_nil_r. auto. Qed.

Lemma frame_same (P : Entry -> Prop) s s' :
  conf s' = conf s -> sem_value s' = sem_value s -> sem_bound s' = sem_bound s ->
  trace s' = trace s -> frame P s s'.
Proof.
  intros. split; [|split]; [assumption|split; assumption|].
  apply appends_same; auto.
Qed.

Lemma frame_log (P : Entry -> Prop) e s : P e -> frame P s (log e s).
Proof.
  intros. split; [|split]; [reflexivity|split; reflexivity|].
  apply appends_log; auto.
Qed.

Lemma appends_weaken (P Q : Entry -> Prop) s s' :
  (forall e, P e -> Q e) -> appends P s s' -> appends Q s s'.
Proof.
  intros H (evs & E & F). exists evs. split; auto.
  eapply Forall_impl; eauto.
Qed.

Lemma frame_weaken (P Q : Entry -> Prop) s s' :
  (forall e, P e -> Q e) -> frame P s s' -> frame Q s s'.
Proof.
  intros H (A & B & C). repeat split; try apply A; try apply B.
  eapply appends_weaken; eauto.
Qed.

Lemma respects_weaken {A} (R R' : State -> State -> Prop) (m : M A) :
  (forall s s', R s s' -> R' s s') -> respects R m -> respects R' m.
Proof. intros H Hm s. destruct (Hm s). auto. Qed.

Section Loops.

Context (R : State -> State -> Prop) `{!PreOrder R} (env : Env).
Hypothesis R_call : forall site o s, R s (log (Call site, o) s).
Hypothesis R_params : forall v s, R s (set_machineParams v s).

Lemma respects_call site : respects R (call env site).
Proof. apply respects_callE; auto. Qed.

Lemma respects_wait_for_lock n : forall i, respects R (wait_for_lock env n i).
Proof.
  induction n as [|n IH]; intros i; simpl.
  - apply respects_ret; auto.
  - apply respects_bind; auto using respects_call. intros _.
    destruct (session env i); [|apply respects_raise; auto].
    destruct (_ || _); [apply respects_ret|]; auto.
Qed.

Lemma respects_device_hooks n : forall i, respects R (device_hooks env n i).
Proof.
  induction n as [|n IH]; intros i; simpl.
  - apply respects_ret; auto.
  - apply respects_bind; auto using respects_call.
Qed.

Lemma respects_patch_drives item drives :
  forall new_drives, respects R (patch_drives item drives new_drives).
Proof.
  induction drives as [|d drives IH]; intros nd; simpl.
  - apply respects_ret; auto.
  - destruct (d !! "device"); [|apply respects_raise; auto].
    destruct (String.eqb _ _); auto.
    destruct (d !! "path"); [|apply respects_raise; auto].
    apply respects_bind; auto. apply respects_modify; auto.
Qed.

End Loops.

(** Proving [respects R m] by following the structure of [m]; [side]
    proves that the primitive steps are in [R]. *)
Ltac frame_side :=
  first
    [ reflexivity
    | apply frame_log; solve [ exact I | repeat split ]
    | apply frame_same; reflexivity
    | apply appends_log; solve [ exact I | repeat split ]
    | apply appends_same; reflexivity ].

Ltac respects_step side :=
  lazymatch goal with
  | |- PreOrder _ => exact _
  | |- forall _, _ => intros ?
  | |- respects _ (bind _ _) => apply respects_bind
  | |- respects _ (ret _) => apply respects_ret
  | |- respects _ (raise _) => apply respects_raise
  | |- respects _ _raiseAbortError => apply respects_raise
  | |- respects _ get => apply respects_get
  | |- respects _ (modify _) => apply respects_modify
  | |- respects _ (when _ _) => apply respects_when
  | |- respects _ (try_except _ _) => apply respects_try_except
  | |- respects _ (try_except_libvirt _ _) => apply respects_try_except_libvirt
  | |- respects _ (try_finally _ _) => apply respects_try_finally
  | |- respects _ (callE _ _ _) => apply respects_callE
  | |- respects _ (call _ _) => unfold call
  | |- respects _ (concurrent_stop _ _) => apply respects_concurrent_stop
  | |- respects _ (wait_for_lock _ _ _) => apply respects_wait_for_lock
  | |- respects _ (device_hooks _ _ _) => apply respects_device_hooks
  | |- respects _ (patch_drives _ _ _) => apply respects_patch_drives
  | |- respects _ (if ?b then _ else _) => destruct b
  | |- respects _ (match ?x with _ => _ end) => destruct x
  | |- respects _ (let _ := _ in _) => cbv zeta
  | |- respects _ _ => fail "no rule"
  | |- _ => side
  end.

Ltac respects_auto side := repeat (respects_step side).

Section Phases.

Context (env : Env) (rq : Request).

Lemma stop_benign p : respects (frame benign) (stop env p).
Proof. unfold stop. respects_auto frame_side. Qed.

Lemma setupVds_benign : respects (frame benign) (_setupVdsConnection env rq).
Proof. unfold _setupVdsConnection. respects_auto frame_side. Qed.

Lemma patch_benign : respects (frame benign) _patchConfigForLegacy.
Proof.
  unfold _patchConfigForLegacy, patch_item. respects_auto frame_side.
Qed.

Lemma setupParams_benign :
  respects (frame benign) (_setupRemoteMachineParams env rq).
Proof.
  unfold _setupRemoteMachineParams.
  repeat first [ apply patch_benign | respects_step frame_side ].
Qed.

Lemma prepareGuest_benign : respects (frame benign) (_prepareGuest env rq).
Proof. unfold _prepareGuest. respects_auto frame_side. Qed.

Lemma setup_benign : respects (frame benign) (run_setup env rq).
Proof.
  unfold run_setup.
  repeat first [ apply setupVds_benign | apply setupParams_benign
               | apply prepareGuest_benign | respects_step frame_side ].
Qed.

Lemma recover_benign msg : respects (frame benign) (_recover env rq msg).
Proof. unfold _recover. respects_auto frame_side. Qed.

End Phases.

Lemma benign_inner e : benign e -> inner e.
Proof. destruct e as [[] o]; simpl; intros []; repeat split. Qed.

Lemma benign_quiet e : benign e -> quiet e.
Proof. destruct e as [[] o]; simpl; intros []; repeat split. Qed.

Section Transfer.

Context (env : Env) (rq : Request).

Lemma benign_transfer_entry e : benign e -> transfer_entry e.
Proof. destruct e as [[] o]; simpl; intros []; exact I. Qed.

Lemma transfer_entry_inner e : transfer_entry e -> inner e.
Proof. destruct e as [[] o]; simpl; intros []; repeat split. Qed.

Lemma concurrent_stop_transfer p :
  respects (frame transfer_entry) (concurrent_stop env p).
Proof.
  apply respects_concurrent_stop; [exact _|].
  eapply respects_weaken; [|apply stop_benign].
  intros s s'. apply frame_weaken, benign_transfer_entry.
Qed.

Lemma migrateToURI2_transfer duri muri flags bw :
  respects (frame transfer_entry) (migrateToURI2 env duri muri flags bw).
Proof.
  intros s. unfold migrateToURI2.
  set (s1 := log _ s).
  destruct (concurrent_stop_transfer DuringMigrate s1) as [_ H].
  assert (frame transfer_entry s (snd (concurrent_stop env DuringMigrate s1))).
  { etransitivity; [|exact H]. apply frame_log. exact I. }
  destruct (raises env S_migrateToURI2); simpl; split; auto; discriminate.
Qed.

Lemma startUnderlying_transfer t :
  respects (frame transfer_entry) (_startUnderlyingMigration env rq t).
Proof.
  unfold _startUnderlyingMigration, _startUnderlyingMigration_file,
    _startUnderlyingMigration_remote, migrate_try, migrate_finally.
  repeat first [ apply concurrent_stop_transfer | apply migrateToURI2_transfer
               | respects_step frame_side ].
Qed.

Lemma startUnderlying_inner t :
  respects (frame inner) (_startUnderlyingMigration env rq t).
Proof.
  eapply respects_weaken; [|apply startUnderlying_transfer].
  intros s s'. apply frame_weaken, transfer_entry_inner.
Qed.

Lemma finish_inner : respects (frame inner) (_finishSuccessfully env rq).
Proof. unfold _finishSuccessfully. respects_auto frame_side. Qed.

Lemma transfer_inner t : respects (frame inner) (run_transfer env rq t).
Proof.
  unfold run_transfer.
  repeat first [ apply startUnderlying_inner | apply finish_inner
               | respects_step frame_side ].
Qed.

Lemma concurrent_stop_ok p s : fst (concurrent_stop env p s) = Ok tt.
Proof. unfold concurrent_stop. destruct (stop_called env p); reflexivity. Qed.

End Transfer.

(** ** The driver: the log of a run *)

Section Run.

Context (env : Env) (rq : Request).

(** [run], one phase at a time. *)
Lemma run_unfold s :
  run env rq s =
  match run_setup env rq s with
  | (Ok _, s1) =>
      if 0 <? sem_value s1 then
        match run_guarded env rq (time_start env) (acquired s1) with
        | (Block, s3) => (Block, s3)
        | (r3, s3) =>
            match run_finally s3 with
            | (Ok _, s4) =>
                match r3 with
                | Raise e => _recover env rq (str e) s4
                | _ => (r3, s4)
                end
            | (Raise e, s4) => _recover env rq (str e) s4
            | (Block, s4) => (Block, s4)
            end
        end
      else (Block, s1)
  | (Raise e, s1) => _recover env rq (str e) s1
  | (Block, s1) => (Block, s1)
  end.
Proof.
  unfold run, try_except, bind, acquire, try_finally. cbv zeta.
  destruct (run_setup env rq s) as [[[]|e|] s1]; simpl; auto.
  destruct (0 <? sem_value s1); simpl; auto.
  fold (acquired s1).
  destruct (run_guarded env rq (time_start env) (acquired s1))
    as [[[]|e|] s3]; auto;
    destruct (run_finally s3) as [[[]|e'|] s4]; auto.
Qed.

Lemma run_handler_spec e s :
  fst (run_handler e s) = Raise e /\
  conf (snd (run_handler e s)) = conf s /\
  sem_same s (snd (run_handler e s)) /\
  trace (snd (run_handler e s)) = trace s.
Proof.
  unfold run_handler, bind, when, modify, raise.
  destruct (bool_decide _); simpl; repeat split.
Qed.

Local Opaque run_handler.

(** The inner [try ... except libvirtError] never blocks, leaves the
    semaphore alone, and either leaves the configuration alone or has
    written [_migrationParams] and then run the transfer block. *)
Lemma guarded_log s2 :
  let r3 := fst (run_guarded env rq (time_start env) s2) in
  let s3 := snd (run_guarded env rq (time_start env) s2) in
  r3 <> Block /\ sem_same s2 s3 /\
  exists mid0, Forall benign mid0 /\
    ((conf s3 = conf s2 /\ trace s3 = trace s2 ++ mid0) \/
     (exists mid,
        transfer_events env rq mid /\
        conf s3 = <["_migrationParams" := migrationParams rq]> (conf s2) /\
        trace s3 = trace s2 ++ mid0 ++ [(SetMigrationParams, None)] ++ mid)).
Proof.
  unfold run_guarded, try_except_libvirt, run_body, bind.
  pose proof (concurrent_stop_ok env BeforeSlotCheck s2) as Hok.
  destruct (respects_concurrent_stop (frame benign) env BeforeSlotCheck
              (stop_benign env BeforeSlotCheck) s2)
    as [_ (HcA & HsA & mid0 & HtA & Hmid0)].
  destruct (concurrent_stop env BeforeSlotCheck s2) as [rA sA].
  simpl in Hok, HcA, HsA, HtA. subst rA. simpl.
  destruct (_migrationCanceledEvt sA); simpl.
  - destruct (run_handler_spec (LibvirtError VIR_ERR_OPERATION_ABORTED) sA)
      as (Hr & Hc & Hs & Ht).
    destruct (run_handler _ sA) as [rB sB]. simpl in *. subst rB.
    split; [discriminate|]. split; [etransitivity; eauto|].
    exists mid0. split; auto. left. split; congruence.
  - destruct (transfer_inner env rq (time_start env) (set_migrationParams rq sA))
      as [Hnb (HcT & HsT & mid & HtT & _)].
    assert (Hev : transfer_events env rq mid).
    { exists (set_migrationParams rq sA). exact HtT. }
    destruct (run_transfer env rq (time_start env) (set_migrationParams rq sA))
      as [rT sT]. simpl in Hnb, HcT, HsT, HtT.
    assert (Hsem : sem_same s2 sT).
    { unfold sem_same in *. simpl in HsT. destruct HsA, HsT. split; congruence. }
    assert (Htr : trace sT = trace s2 ++ mid0 ++ [(SetMigrationParams, None)] ++ mid).
    { rewrite HtT. simpl. rewrite HtA. rewrite <- !app_assoc. reflexivity. }
    assert (Hcf : conf sT = <["_migrationParams" := migrationParams rq]> (conf s2)).
    { rewrite HcT. simpl. unfold conf_same in HcA. rewrite HcA. reflexivity. }
    destruct rT as [[]|[c|msg]|]; simpl; try congruence.
    + split; [discriminate|]. split; auto. exists mid0. split; auto.
      right. exists mid. auto.
    + destruct (run_handler_spec (LibvirtError c) sT) as (Hr & Hc & Hs & Ht).
      destruct (run_handler _ sT) as [rB sB]. simpl in *. subst rB.
      split; [discriminate|]. split; [etransitivity; eauto|].
      exists mid0. split; auto. right. exists mid.
      split; auto. split; congruence.
    + split; [discriminate|]. split; auto. exists mid0. split; auto.
      right. exists mid. auto.
Qed.

Local Transparent run_handler.

(** With the slot held, the [finally] clause deletes the key if it is there
    and releases the slot. *)
Lemma finally_spec s3 :
  sem_value s3 < sem_bound s3 ->
  run_finally s3 =
  (Ok tt,
   log (Release, None)
     (set_sem_value (sem_value s3 + 1)
        (if bool_decide (is_Some (conf s3 !! "_migrationParams"))
         then del_migrationParams s3 else s3))).
Proof.
  intros H. unfold run_finally, bind, get, when, modify, release, ret.
  destruct (bool_decide _); simpl;
    (destruct (sem_bound s3 <=? sem_value s3) eqn:E;
     [apply Z.leb_le in E; lia|reflexivity]).
Qed.

(** The main lemma about [run]: the semaphore is restored, the log has the
    shape [run_log], and the run blocks only at [acquire], when the setup
    returned and no slot is free. *)
Lemma run_spec s :
  sem_value s <= sem_bound s ->
  sem_same s (snd (run env rq s)) /\
  run_log env rq s (snd (run env rq s)) /\
  (fst (run env rq s) = Block <->
   fst (run_setup env rq s) = Ok tt /\ sem_value s <= 0).
Proof.
  intros Hwf. rewrite run_unfold. unfold run_log, acquires.
  destruct (setup_benign env rq s) as [Hnb0 (Hc1 & [Hv1 Hb1] & pre & Ht1 & Hpre)].
  destruct (run_setup env rq s) as [r0 s1]. simpl in Hnb0, Hc1, Hv1, Hb1, Ht1.
  unfold conf_same in Hc1.
  destruct r0 as [[]|e|]; [|clear Hwf|congruence].
  - (* setup returned *)
    rewrite Hv1. simpl.
    destruct (0 <? sem_value s) eqn:Epos.
    + apply Z.ltb_lt in Epos.
      destruct (guarded_log (acquired s1)) as (Hnb3 & [Hv3 Hb3] & mid0 & Hmid0 & Hcase).
      destruct (run_guarded env rq (time_start env) (acquired s1)) as [r3 s3].
      simpl in Hnb3, Hv3, Hb3, Hcase.
      rewrite Hv1 in Hv3. rewrite Hb1 in Hb3.
      assert (Hlt : sem_value s3 < sem_bound s3) by lia.
      assert (Hfin := finally_spec s3 Hlt).
      set (s4 := log (Release, None) _) in Hfin.
      assert (Hv4 : sem_value s4 = sem_value s).
      { subst s4. destruct (bool_decide _); simpl; lia. }
      assert (Hb4 : sem_bound s4 = sem_bound s).
      { subst s4. destruct (bool_decide _); simpl; lia. }
      assert (Hc4 : conf s4 = delete "_migrationParams" (conf s)).
      { subst s4. destruct (bool_decide _) eqn:Eb; simpl.
        - destruct Hcase as [[-> _] | (mid & _ & -> & _)]; rewrite Hc1.
          + reflexivity.
          + apply delete_insert_eq.
        - apply bool_decide_eq_false in Eb.
          destruct Hcase as [[Hc3 _] | (mid & _ & Hc3 & _)]; rewrite Hc3 in *;
            simpl in Eb; rewrite Hc1 in *.
          + symmetry. apply delete_id.
            destruct (conf s !! "_migrationParams") eqn:El; auto.
            exfalso. apply Eb. eauto.
          + exfalso. apply Eb. rewrite lookup_insert_eq. eauto. }
      assert (Ht4 : exists core, slot_interval env rq s core /\
                trace s4 = trace s ++ pre ++ [(Acquire, None)] ++ mid0 ++ core ++
                           [(Release, None)]).
      { subst s4. destruct (bool_decide _) eqn:Eb; simpl.
        - apply bool_decide_eq_true in Eb.
          destruct Hcase as [[Hc3 Ht3] | (mid & Hmid & Hc3 & Ht3)].
          + rewrite Hc3 in Eb. simpl in Eb. rewrite Hc1 in Eb.
            exists [(DelMigrationParams, None)]. split; [right; left; auto|].
            rewrite Ht3. simpl. rewrite Ht1. rewrite <- !app_assoc. reflexivity.
          + exists ([(SetMigrationParams, None)] ++ mid ++
                    [(DelMigrationParams, None)]).
            split; [right; right; eauto|].
            rewrite Ht3. simpl. rewrite Ht1. rewrite <- !app_assoc. reflexivity.
        - apply bool_decide_eq_false in Eb.
          destruct Hcase as [[Hc3 Ht3] | (mid & Hmid & Hc3 & Ht3)].
          + rewrite Hc3 in Eb. simpl in Eb. rewrite Hc1 in Eb.
            exists []. split.
            * left. split; auto.
              destruct (conf s !! "_migrationParams") eqn:El; auto.
              exfalso. apply Eb. eauto.
            * rewrite Ht3. simpl. rewrite Ht1. rewrite <- !app_assoc. reflexivity.
          + exfalso. apply Eb. rewrite Hc3, lookup_insert_eq. eauto. }
      destruct Ht4 as (core & Hcore & Ht4). clearbody s4.
      destruct r3 as [[]|e|]; [| |congruence]; rewrite Hfin.
      * simpl. split; [split; auto|]. split.
        -- exists pre. split; auto. split; auto. split; auto.
           exists mid0, core, []. repeat split; auto.
        -- split; [discriminate|]. intros [_ ?]. lia.
      * destruct (recover_benign env rq (str e) s4)
          as [Hnb5 (Hc5 & [Hv5 Hb5] & post & Ht5 & Hpost)].
        destruct (_recover env rq (str e) s4) as [r5 s5].
        simpl in Hnb5, Hc5, Hv5, Hb5, Ht5 |- *. unfold conf_same in Hc5.
        split; [split; congruence|]. split.
        -- exists pre. split; auto. split; auto. split; [congruence|].
           exists mid0, core, post. repeat split; auto.
           rewrite Ht5, Ht4. rewrite <- !app_assoc. reflexivity.
        -- split; [congruence|]. intros [_ ?]. lia.
    + apply Z.ltb_ge in Epos. simpl. split; [split; auto|]. split.
      * exists pre. split; auto. split; auto. split; auto.
        exists []. rewrite app_nil_r. auto.
      * split; auto.
  - (* setup raised *)
    simpl.
    destruct (recover_benign env rq (str e) s1)
      as [Hnb5 (Hc5 & [Hv5 Hb5] & post & Ht5 & Hpost)].
    destruct (_recover env rq (str e) s1) as [r5 s5].
    simpl in Hnb5, Hc5, Hv5, Hb5, Ht5 |- *. unfold conf_same in Hc5.
    split; [split; congruence|]. split.
    + exists pre. split; auto. split; auto. split; [congruence|].
      exists post. split; auto. rewrite Ht5, Ht1, <- app_assoc. reflexivity.
    + split; [congruence|]. intros [? _]. discriminate.
Qed.

End Run.

Lemma slot_proj_app l1 l2 : slot_proj (l1 ++ l2) = slot_proj l1 ++ slot_proj l2.
Proof.
  induction l1 as [|e l1 IH]; simpl; auto.
  destruct (is_slot e.1); simpl; congruence.
Qed.

Lemma slot_proj_inner l : Forall inner l -> slot_proj l = [].
Proof.
  induction 1 as [|e l [He _] _ IH]; simpl; auto. rewrite He. auto.
Qed.

Lemma slot_proj_benign l : Forall benign l -> slot_proj l = [].
Proof.
  intros H. apply slot_proj_inner. eapply Forall_impl; eauto using benign_inner.
Qed.

Lemma key_proj_app l1 l2 : key_proj (l1 ++ l2) = key_proj l1 ++ key_proj l2.
Proof.
  induction l1 as [|e l1 IH]; simpl; auto.
  destruct (_ || _); simpl; congruence.
Qed.

Lemma key_proj_benign l : Forall benign l -> key_proj l = [].
Proof.
  induction 1 as [|e l He _ IH]; simpl; auto.
  apply benign_quiet in He as (-> & -> & ->). auto.
Qed.

Lemma key_proj_inner l :
  Forall inner l ->
  Forall (fun e => is_hypervisor_migration e = true) (key_proj l).
Proof.
  induction 1 as [|e l [H1 H2] _ IH]; simpl; auto.
  rewrite H1, H2. simpl.
  destruct (is_hypervisor_migration e.1) eqn:E; auto.
Qed.

Lemma transfer_events_inner env rq mid :
  transfer_events env rq mid -> Forall inner mid.
Proof.
  intros [s Hs].
  destruct (transfer_inner env rq (time_start env) s)
    as [_ (_ & _ & evs & He & Hf)].
  rewrite Hs in He. apply app_inv_head in He. subst. auto.
Qed.

Lemma run_slot_balance env rq s :
  sem_value s <= sem_bound s ->
  let s' := snd (run env rq s) in
  sem_value s' = sem_value s /\ sem_bound s' = sem_bound s /\
  (exists new,
     trace s' = trace s ++ new /\
     slot_proj new =
       if acquires env rq s then [(Acquire, None); (Release, None)] else []) /\
  (0 < sem_value s -> fst (run env rq s) <> Block).
Proof.
  intros Hwf s'. subst s'.
  destruct (run_spec env rq s Hwf) as ([Hv Hb] & (pre & Hpre & _ & Hlog) & Hblock).
  split; auto. split; auto. split.
  - destruct (acquires env rq s).
    + destruct Hlog as (_ & mid0 & core & post & Hmid0 & Hcore & Hpost & Ht).
      eexists. split; [exact Ht|].
      rewrite !slot_proj_app.
      rewrite (slot_proj_benign pre), (slot_proj_benign mid0),
        (slot_proj_benign post) by assumption.
      assert (slot_proj core = []) as ->; [|reflexivity].
      destruct Hcore as [[-> _] | [[-> _] | (mid & Hmid & ->)]]; auto.
      rewrite !slot_proj_app.
      rewrite (slot_proj_inner mid) by eauto using transfer_events_inner.
      reflexivity.
    + destruct Hlog as (_ & post & Hpost & Ht).
      eexists. split; [exact Ht|].
      rewrite slot_proj_app, !slot_proj_benign by assumption. reflexivity.
  - intros Hpos Hb'. apply Hblock in Hb'. lia.
Qed.

(** [C3] For every driver run, whatever phase fails or succeeds, the count of
    the global migration slot is back at its level from before the run: the
    log of the run shows either no slot operation at all, or one successful
    [acquire] followed by one successful [release] (so the slot is held
    only between the two); a run that finds a free slot never blocks. *)
Theorem C3_slot_released env rq s :
  sem_value s <= sem_bound s ->
  let s' := snd (run env rq s) in
  sem_value s' = sem_value s /\ sem_bound s' = sem_bound s /\
  (exists new,
     trace s' = trace s ++ new /\
     slot_proj new =
       if acquires env rq s then [(Acquire, None); (Release, None)] else []) /\
  (0 < sem_value s -> fst (run env rq s) <> Block).
Proof. apply run_slot_balance. Qed.

(** [C4] For every driver run that starts with no [_migrationParams] in the
    VM configuration: the key is absent again when the run ends, on every
    exit path (the configuration is what it was); and, reading the log of
    the run, the key is written after the slot is taken and before any
    hypervisor migration call ([migrateToURI2] or [save]), and deleted
    after them and before the slot is released. *)
Theorem C4_migrationParams_scoped env rq s :
  sem_value s <= sem_bound s ->
  conf s !! "_migrationParams" = None ->
  let s' := snd (run env rq s) in
  conf s' !! "_migrationParams" = None /\
  conf s' = conf s /\
  exists new, trace s' = trace s ++ new /\ params_protocol (key_proj new).
Proof.
  intros Hwf Habs s'. subst s'.
  destruct (run_spec env rq s Hwf) as (_ & (pre & Hpre & _ & Hlog) & _).
  destruct (acquires env rq s).
  - destruct Hlog as (Hc & mid0 & core & post & Hmid0 & Hcore & Hpost & Ht).
    rewrite Hc. split; [apply lookup_delete_eq|].
    split; [apply delete_id; assumption|].
    eexists. split; [exact Ht|].
    rewrite !key_proj_app.
    rewrite (key_proj_benign pre), (key_proj_benign mid0),
      (key_proj_benign post) by assumption.
    destruct Hcore as [[-> _] | [[-> [v Hv]] | (mid & Hmid & ->)]].
    + right. left. reflexivity.
    + congruence.
    + right. right. exists (key_proj mid). split.
      * apply key_proj_inner. eauto using transfer_events_inner.
      * rewrite !key_proj_app. simpl. rewrite <- app_assoc. reflexivity.
  - destruct Hlog as (Hc & post & Hpost & Ht).
    rewrite Hc. split; auto. split; auto.
    eexists. split; [exact Ht|].
    rewrite key_proj_app, !key_proj_benign by assumption. left. reflexivity.
Qed.

(** ** The driver: file mode *)

Lemma vol_proj_app l1 l2 : vol_proj (l1 ++ l2) = vol_proj l1 ++ vol_proj l2.
Proof.
  induction l1 as [|e l1 IH]; simpl; auto.
  destruct (is_volume e.1); simpl; congruence.
Qed.

Lemma vol_proj_benign l : Forall benign l -> vol_proj l = [].
Proof.
  induction 1 as [|[[] o] l He _ IH]; simpl in *; auto; contradiction.
Qed.

(** Case analysis on what the collaborator at [site] does. *)
Ltac on_site site :=
  try (match goal with
       | |- context [raises ?env site] =>
           destruct (raises env site) eqn:?; simpl
       end).

Ltac protocol_leaf :=
  rewrite <- ?app_assoc; eexists; split; [reflexivity|]; simpl;
  unfold volume_protocol, params_bracket;
  first
    [ left; reflexivity
    | right; left; eexists; reflexivity
    | right; right; left; eexists _, _; split; [|reflexivity];
      first [ left; discriminate | right; discriminate ]
    | right; right; right; eexists; split; [reflexivity|];
      first [ left; eexists; reflexivity
            | right; eexists _, _, _; reflexivity ] ].

(** The volume calls of the transfer block in file mode, by cases on what
    each collaborator does. *)
Lemma transfer_volume_file env rq t s :
  String.eqb (_mode rq) "file" = true ->
  exists evs,
    trace (snd (run_transfer env rq t s)) = trace s ++ evs /\
    volume_protocol env rq (vol_proj evs).
Proof.
  intros Hmode.
  unfold run_transfer, _startUnderlyingMigration,
    _startUnderlyingMigration_file, _finishSuccessfully, call, callE, bind,
    try_except, try_finally, modify, get, ret, raise.
  rewrite Hmode. simpl.
  all: on_site S_saveState.
  all: on_site S_XMLDesc_hook.
  all: on_site S_before_vm_hibernate.
  all: on_site S_vmStats_pause.
  all: on_site S_prepareVolumePath_dst.
  all: on_site S_save.
  all: on_site S_teardownVolumePath_dst.
  all: on_site S_vmStats_cont.
  all: on_site S_prepareVolumePath_dstparams.
  all: on_site S_pickle_dump.
  all: on_site S_teardownVolumePath_dstparams.
  all: on_site S_setDownStatus.
  all: protocol_leaf.
Qed.

(** The same calls, exactly: none unless the calls before the volume of
    [_dst] return, and then the log [volume_log]. *)
Lemma transfer_volume_log env rq t s :
  String.eqb (_mode rq) "file" = true ->
  exists evs,
    trace (snd (run_transfer env rq t s)) = trace s ++ evs /\
    vol_proj evs =
      if transfer_reaches_save env then volume_log env rq (_machineParams s)
      else [].
Proof.
  intros Hmode.
  unfold run_transfer, _startUnderlyingMigration,
    _startUnderlyingMigration_file, _finishSuccessfully, call, callE, bind,
    try_except, try_finally, modify, get, ret, raise,
    transfer_reaches_save, returns, volume_log, params_volume_log.
  rewrite Hmode. simpl.
  all: on_site S_saveState.
  all: on_site S_XMLDesc_hook.
  all: on_site S_before_vm_hibernate.
  all: on_site S_vmStats_pause.
  all: on_site S_prepareVolumePath_dst.
  all: on_site S_save.
  all: on_site S_teardownVolumePath_dst.
  all: on_site S_vmStats_cont.
  all: on_site S_prepareVolumePath_dstparams.
  all: on_site S_pickle_dump.
  all: on_site S_teardownVolumePath_dstparams.
  all: on_site S_setDownStatus.
  all: rewrite <- ?app_assoc; eexists; split; [reflexivity|]; reflexivity.
Qed.

(** The volume calls of a whole file-mode run follow the protocol. *)
Lemma run_volume_protocol env rq s :
  sem_value s <= sem_bound s ->
  String.eqb (_mode rq) "file" = true ->
  exists new,
    trace (snd (run env rq s)) = trace s ++ new /\
    volume_protocol env rq (vol_proj new).
Proof.
  intros Hwf Hmode.
  destruct (run_spec env rq s Hwf) as (_ & (pre & Hpre & _ & Hlog) & _).
  destruct (acquires env rq s).
  - destruct Hlog as (_ & mid0 & core & post & Hmid0 & Hcore & Hpost & Ht).
    eexists. split; [exact Ht|].
    rewrite !vol_proj_app.
    rewrite (vol_proj_benign pre), (vol_proj_benign mid0),
      (vol_proj_benign post) by assumption.
    simpl. rewrite app_nil_r.
    destruct Hcore as [[-> _] | [[-> _] | (mid & [s0 Hmid] & ->)]];
      [left; reflexivity ..|].
    rewrite !vol_proj_app. simpl. rewrite app_nil_r.
    destruct (transfer_volume_file env rq (time_start env) s0 Hmode)
      as (evs & He & Hv).
    rewrite Hmid in He. apply app_inv_head in He. subst. exact Hv.
  - destruct Hlog as (_ & post & Hpost & Ht).
    eexists. split; [exact Ht|].
    rewrite vol_proj_app, !vol_proj_benign by assumption. left. reflexivity.
Qed.

Lemma strip_transient_spec (p : params) :
  strip_transient p !! "displayIp" = None /\
  strip_transient p !! "display" = None /\
  strip_transient p !! "pid" = None.
Proof.
  unfold strip_transient. repeat split.
  - rewrite !lookup_delete_ne by discriminate. apply lookup_delete_eq.
  - rewrite lookup_delete_ne by discriminate. apply lookup_delete_eq.
  - apply lookup_delete_eq.
Qed.

Lemma pickle_ok_strip f (p : params) o :
  pickle_ok (PickleDump f (strip_transient p), o).
Proof. apply strip_transient_spec. Qed.

Lemma benign_pickle_ok e : benign e -> pickle_ok e.
Proof. destruct e as [[] o]; simpl; intros []; exact I. Qed.

Ltac pickle_leaf :=
  rewrite <- ?app_assoc; eexists; split; [reflexivity|];
  repeat (constructor; [first [exact I | apply pickle_ok_strip]|]);
  constructor.

Lemma finish_pickle env rq s :
  exists evs,
    trace (snd (_finishSuccessfully env rq s)) = trace s ++ evs /\
    Forall pickle_ok evs.
Proof.
  unfold _finishSuccessfully, call, callE, bind, try_finally, modify, get, ret.
  destruct (String.eqb (_mode rq) "file"); simpl.
  all: on_site S_prepareVolumePath_dstparams.
  all: on_site S_pickle_dump.
  all: on_site S_teardownVolumePath_dstparams.
  all: on_site S_setDownStatus.
  all: pickle_leaf.
Qed.

Lemma transfer_entry_pickle_ok e : transfer_entry e -> pickle_ok e.
Proof. destruct e as [[] o]; simpl; intros []; exact I. Qed.

Lemma finish_respects_pickle env rq :
  respects (appends pickle_ok) (_finishSuccessfully env rq).
Proof.
  intros s. split; [apply (finish_inner env rq s)|apply finish_pickle].
Qed.

Lemma startUnderlying_pickle env rq t :
  respects (appends pickle_ok) (_startUnderlyingMigration env rq t).
Proof.
  eapply respects_weaken; [|apply startUnderlying_transfer].
  intros s s' (_ & _ & H).
  exact (appends_weaken _ _ s s' transfer_entry_pickle_ok H).
Qed.

Lemma transfer_pickle env rq t :
  respects (appends pickle_ok) (run_transfer env rq t).
Proof.
  unfold run_transfer.
  repeat first [ apply startUnderlying_pickle | apply finish_respects_pickle
               | respects_step frame_side ].
Qed.

Lemma transfer_events_pickle env rq mid :
  transfer_events env rq mid -> Forall pickle_ok mid.
Proof.
  intros [s Hs].
  destruct (transfer_pickle env rq (time_start env) s) as [_ (evs & He & Hf)].
  rewrite Hs in He. apply app_inv_head in He. subst. auto.
Qed.

Lemma Forall_benign_pickle l : Forall benign l -> Forall pickle_ok l.
Proof. intros H. eapply Forall_impl; eauto using benign_pickle_ok. Qed.

(** [C8] Every params dictionary that a run hands to [pickle.dump] has none
    of the keys [displayIp], [display] and [pid]; and in file mode, once the
    params volume is prepared, [_finishSuccessfully] pickles exactly the
    machine params with those three keys deleted, to the path prepared
    from [_dstparams]. *)
Theorem C8_no_transient_params env rq s :
  sem_value s <= sem_bound s ->
  (exists new,
     trace (snd (run env rq s)) = trace s ++ new /\ Forall pickle_ok new) /\
  (forall s0,
     String.eqb (_mode rq) "file" = true ->
     raises env S_prepareVolumePath_dstparams = None ->
     exists post,
       trace (snd (_finishSuccessfully env rq s0)) =
       trace s0 ++
       [(PrepareVolumePath (_dstparams rq), None);
        (PickleDump (prepareVolumePath env (_dstparams rq))
                    (strip_transient (_machineParams s0)),
         raises env S_pickle_dump)] ++ post).
Proof.
  intros Hwf. split.
  - destruct (run_spec env rq s Hwf) as (_ & (pre & Hpre & _ & Hlog) & _).
    destruct (acquires env rq s).
    + destruct Hlog as (_ & mid0 & core & post & Hmid0 & Hcore & Hpost & Ht).
      eexists. split; [exact Ht|].
      repeat (apply Forall_app; split); auto using Forall_benign_pickle.
      * repeat constructor.
      * destruct Hcore as [[-> _] | [[-> _] | (mid & Hmid & ->)]];
          repeat constructor.
        apply Forall_app. split; [eauto using transfer_events_pickle|].
        repeat constructor.
      * repeat constructor.
    + destruct Hlog as (_ & post & Hpost & Ht).
      eexists. split; [exact Ht|].
      apply Forall_app. split; auto using Forall_benign_pickle.
  - intros s0 Hmode Hprep.
    unfold _finishSuccessfully, call, callE, bind, try_finally, modify, get, ret.
    rewrite Hmode, Hprep. simpl.
    all: on_site S_pickle_dump.
    all: on_site S_teardownVolumePath_dstparams.
    all: on_site S_setDownStatus.
    all: rewrite <- ?app_assoc; eexists; reflexivity.
Qed.

(** ** The driver: cancellation *)

Global Instance cancel_code_same_preorder : PreOrder cancel_code_same.
Proof.
  split; unfold cancel_code_same; [intros s | intros s1 s2 s3]; congruence.
Qed.

Lemma respects_migrateToURI2 (R : State -> State -> Prop) `{!PreOrder R}
    env duri muri flags bw :
  (forall e s, R s (log e s)) ->
  respects R (stop env DuringMigrate) ->
  respects R (migrateToURI2 env duri muri flags bw).
Proof.
  intros Hlog Hstop s. unfold migrateToURI2.
  set (s1 := log _ s).
  destruct (respects_concurrent_stop R env DuringMigrate Hstop s1) as [_ H].
  assert (R s (snd (concurrent_stop env DuringMigrate s1))).
  { etransitivity; [|exact H]. apply Hlog. }
  destruct (raises env S_migrateToURI2); simpl; split; auto; discriminate.
Qed.


Ltac respects_more side :=
  repeat first
    [ lazymatch goal with
      | |- respects _ (migrateToURI2 _ _ _ _ _) => apply respects_migrateToURI2
      | |- respects _ (stop _ _) => unfold stop
      end
    | respects_step side ].

Section Status.

Context (env : Env) (rq : Request).



Lemma read_write_status f s : read_status (write_status f s) = f (read_status s).
Proof.
  unfold read_status, write_status, heap_update. simpl.
  rewrite Loc_eqb_refl. reflexivity.
Qed.



End Status.


Lemma stop_sets_flag env p s : _migrationCanceledEvt (snd (stop env p s)) = true.
Proof.
  unfold stop, try_except_libvirt, bind, modify, callE, get, raise, ret.
  destruct (raises env (S_abortJob p)) as [[c|msg]|]; simpl; auto.
  destruct (_preparingMigrationEvt s); reflexivity.
Qed.



Global Instance monitor_kept_preorder : PreOrder monitor_kept.
Proof.
  split; unfold monitor_kept; [intros s | intros s1 s2 s3]; auto.
Qed.



Lemma benign_no_migrate e : benign e -> no_migrate e.
Proof. destruct e as [[] o]; simpl; intros []; reflexivity. Qed.



Ltac clean_side :=
  first
    [ reflexivity
    | apply appends_log; reflexivity
    | apply appends_same; reflexivity
    | unfold monitor_kept; simpl; solve [ auto | eauto ]
    | unfold set_migrationParams; eexists [_]; split;
      [reflexivity|repeat constructor] ].


Section Aborting.

Context (env : Env) (rq : Request) (e : exn).
Hypothesis Hraise : raises env S_migrateToURI2 = Some e.









End Aborting.

Lemma guarded_trace env rq t s :
  trace (snd (run_guarded env rq t s)) = trace (snd (run_body env rq t s)).
Proof.
  unfold run_guarded, try_except_libvirt.
  destruct (run_body env rq t s) as [[[]|[c|msg]|] sB]; simpl; auto.
  apply run_handler_spec.
Qed.

Ltac any_side :=
  first
    [ reflexivity
    | apply appends_log; exact I
    | apply appends_same; reflexivity
    | unfold set_migrationParams; eexists [_]; split;
      [reflexivity|repeat constructor] ].

Lemma body_appends env rq t :
  respects (appends (fun _ => True)) (run_body env rq t).
Proof.
  unfold run_body, run_transfer, _startUnderlyingMigration,
    _startUnderlyingMigration_file, _startUnderlyingMigration_remote,
    migrate_try, migrate_finally, _finishSuccessfully.
  respects_more any_side.
Qed.

(** The log of a run that takes the slot, around the log of [run_body]. *)
Lemma run_trace_body env rq s :
  sem_value s <= sem_bound s ->
  acquires env rq s = true ->
  exists pre body_evs tail,
    Forall benign pre /\ Forall no_migrate tail /\
    trace (snd (run_body env rq (time_start env)
                  (acquired (snd (run_setup env rq s))))) =
      trace (acquired (snd (run_setup env rq s))) ++ body_evs /\
    trace (snd (run env rq s)) =
      trace s ++ pre ++ [(Acquire, None)] ++ body_evs ++ tail.
Proof.
  intros Hwf Hacq. rewrite run_unfold. unfold acquires in Hacq.
  destruct (setup_benign env rq s) as [_ (_ & [Hv1 Hb1] & pre & Ht1 & Hpre)].
  destruct (run_setup env rq s) as [r0 s1]. simpl in *.
  destruct r0 as [[]|e|]; try discriminate.
  rewrite Hv1, Hacq.
  destruct (guarded_log env rq (acquired s1)) as (Hnb3 & [Hv3 Hb3] & _).
  pose proof (guarded_trace env rq (time_start env) (acquired s1)) as Hgt.
  assert (Hbody : exists body_evs,
             trace (snd (run_body env rq (time_start env) (acquired s1))) =
             trace (acquired s1) ++ body_evs).
  { destruct (body_appends env rq (time_start env) (acquired s1))
      as [_ (evs & He & _)]. eauto. }
  destruct Hbody as (body_evs & Hbody).
  destruct (run_guarded env rq (time_start env) (acquired s1)) as [r3 s3].
  simpl in Hnb3, Hv3, Hb3, Hgt.
  assert (Hlt : sem_value s3 < sem_bound s3) by lia.
  rewrite (finally_spec s3 Hlt).
  set (s4 := log (Release, None) _).
  assert (Ht4 : exists fin, Forall no_migrate fin /\ trace s4 = trace s3 ++ fin).
  { subst s4. destruct (bool_decide _); simpl.
    - exists [(DelMigrationParams, None); (Release, None)].
      rewrite <- app_assoc. split; [repeat constructor|reflexivity].
    - exists [(Release, None)]. split; [repeat constructor|reflexivity]. }
  destruct Ht4 as (fin & Hfin & Ht4). clearbody s4.
  exists pre, body_evs.
  destruct r3 as [[]|e|]; [| |congruence].
  - exists fin. simpl. repeat split; auto.
    rewrite Ht4, Hgt, Hbody. simpl. rewrite Ht1, <- !app_assoc. reflexivity.
  - destruct (recover_benign env rq (str e) s4) as [_ (_ & _ & post & Ht5 & Hpost)].
    exists (fin ++ post). repeat split; auto.
    + apply Forall_app. split; auto.
      eapply Forall_impl; eauto using benign_no_migrate.
    + rewrite Ht5, Ht4, Hgt, Hbody. simpl. rewrite Ht1, <- !app_assoc.
      reflexivity.
Qed.



(** ** The driver: the volumes of a save to file *)

Global Instance flag_same_preorder : PreOrder flag_same.
Proof.
  split; unfold flag_same; [intros s | intros s1 s2 s3]; congruence.
Qed.

Lemma setup_flag_same env rq : respects flag_same (run_setup env rq).
Proof.
  unfold run_setup, _setupVdsConnection, _setupRemoteMachineParams,
    _patchConfigForLegacy, patch_item, _prepareGuest.
  respects_more ltac:(reflexivity).
Qed.

(** The volume calls of the inner [try] of [run]. *)
Lemma body_volume_log env rq t s2 :
  String.eqb (_mode rq) "file" = true ->
  exists evs,
    trace (snd (run_body env rq t s2)) = trace s2 ++ evs /\
    vol_proj evs =
      if negb (stop_called env BeforeSlotCheck) &&
         negb (_migrationCanceledEvt s2) && transfer_reaches_save env
      then volume_log env rq (_machineParams s2) else [].
Proof.
  intros Hmode.
  unfold run_body, bind, concurrent_stop, get, when, _raiseAbortError, raise,
    modify.
  destruct (stop_called env BeforeSlotCheck); simpl.
  - unfold stop, try_except_libvirt, bind, modify, callE, get, raise, ret.
    simpl.
    destruct (raises env (S_abortJob BeforeSlotCheck)) as [[c|msg]|]; simpl;
      try destruct (negb (_preparingMigrationEvt s2)); simpl;
      eexists; (split; [reflexivity|reflexivity]).
  - destruct (_migrationCanceledEvt s2); simpl.
    + exists []. rewrite app_nil_r. auto.
    + destruct (transfer_volume_log env rq t (set_migrationParams rq s2) Hmode)
        as (evs & He & Hv).
      exists ((SetMigrationParams, None) :: evs). split.
      * rewrite He. simpl. rewrite <- app_assoc. reflexivity.
      * simpl. exact Hv.
Qed.

(** Around the inner [try], a run that takes the slot calls nothing on a
    volume. *)
Lemma run_volume_body env rq s :
  sem_value s <= sem_bound s ->
  acquires env rq s = true ->
  exists pre body_evs tail,
    vol_proj pre = [] /\ vol_proj tail = [] /\
    trace (snd (run_body env rq (time_start env)
                  (acquired (snd (run_setup env rq s))))) =
      trace (acquired (snd (run_setup env rq s))) ++ body_evs /\
    trace (snd (run env rq s)) =
      trace s ++ pre ++ [(Acquire, None)] ++ body_evs ++ tail.
Proof.
  intros Hwf Hacq. rewrite run_unfold. unfold acquires in Hacq.
  destruct (setup_benign env rq s) as [_ (_ & [Hv1 Hb1] & pre & Ht1 & Hpre)].
  destruct (run_setup env rq s) as [r0 s1]. simpl in *.
  destruct r0 as [[]|e|]; try discriminate.
  rewrite Hv1, Hacq.
  destruct (guarded_log env rq (acquired s1)) as (Hnb3 & [Hv3 Hb3] & _).
  pose proof (guarded_trace env rq (time_start env) (acquired s1)) as Hgt.
  assert (Hbody : exists body_evs,
             trace (snd (run_body env rq (time_start env) (acquired s1))) =
             trace (acquired s1) ++ body_evs).
  { destruct (body_appends env rq (time_start env) (acquired s1))
      as [_ (evs & He & _)]. eauto. }
  destruct Hbody as (body_evs & Hbody).
  destruct (run_guarded env rq (time_start env) (acquired s1)) as [r3 s3].
  simpl in Hnb3, Hv3, Hb3, Hgt.
  assert (Hlt : sem_value s3 < sem_bound s3) by lia.
  rewrite (finally_spec s3 Hlt).
  set (s4 := log (Release, None) _).
  assert (Ht4 : exists fin, vol_proj fin = [] /\ trace s4 = trace s3 ++ fin).
  { subst s4. destruct (bool_decide _); simpl.
    - exists [(DelMigrationParams, None); (Release, None)].
      rewrite <- app_assoc. split; reflexivity.
    - exists [(Release, None)]. split; reflexivity. }
  destruct Ht4 as (fin & Hfin & Ht4). clearbody s4.
  exists pre, body_evs.
  destruct r3 as [[]|e|]; [| |congruence].
  - exists fin. simpl. repeat split; auto using vol_proj_benign.
    rewrite Ht4, Hgt, Hbody. simpl. rewrite Ht1, <- !app_assoc. reflexivity.
  - destruct (recover_benign env rq (str e) s4) as [_ (_ & _ & post & Ht5 & Hpost)].
    exists (fin ++ post). repeat split; auto using vol_proj_benign.
    + rewrite vol_proj_app, Hfin, (vol_proj_benign post) by assumption.
      reflexivity.
    + rewrite Ht5, Ht4, Hgt, Hbody. simpl. rewrite Ht1, <- !app_assoc.
      reflexivity.
Qed.

(** The volume calls of a whole file-mode run, exactly. *)
Lemma run_volume_log env rq s :
  sem_value s <= sem_bound s ->
  String.eqb (_mode rq) "file" = true ->
  exists new,
    trace (snd (run env rq s)) = trace s ++ new /\
    vol_proj new =
      if reaches_save env rq s
      then volume_log env rq (_machineParams (run_setup env rq s).2)
      else [].
Proof.
  intros Hwf Hmode. unfold reaches_save.
  destruct (acquires env rq s) eqn:Hacq.
  - destruct (run_volume_body env rq s Hwf Hacq)
      as (pre & body_evs & tail & Hpre & Htail & Hbody & Ht).
    destruct (body_volume_log env rq (time_start env)
                (acquired (run_setup env rq s).2) Hmode) as (evs & He & Hv).
    rewrite Hbody in He. apply app_inv_head in He. subst evs.
    destruct (setup_flag_same env rq s) as [_ Hfl]. unfold flag_same in Hfl.
    simpl in Hv. rewrite Hfl in Hv.
    eexists. split; [exact Ht|].
    rewrite !vol_proj_app, Hpre, Htail, Hv, app_nil_r. reflexivity.
  - destruct (run_spec env rq s Hwf) as (_ & (pre & Hpre & _ & Hlog) & _).
    rewrite Hacq in Hlog. destruct Hlog as (_ & post & Hpost & Ht).
    eexists. split; [exact Ht|].
    rewrite vol_proj_app, !vol_proj_benign by assumption. reflexivity.
Qed.

(** With the constructor's defaults both fields name the volume [''], and
    the domain and the parameters go to one and the same path. *)
Lemma C10_counterexample : ~ C10_as_stated.
Proof.
  intros H.
  eapply (H (example_env 1 no_raise no_stop) same_volume_request example_state
            (trace (run (example_env 1 no_raise no_stop) same_volume_request
                      example_state).2)
            ltac:(simpl; lia) eq_refl eq_refl
            "/rhev/"%string None "/rhev/"%string _ None);
    [| |reflexivity];
    vm_compute; repeat first [left; reflexivity | right].
Qed.

(** [C10] The volume calls of a file-mode run are these, and no others.
    The run touches a volume only if it gets as far as the save: its
    preparation returns and a slot is free, it is not cancelled before the
    check of the flag, and [saveState], [XMLDesc], the hibernation hook
    and [_vmStats.pause] return; otherwise it touches none.  If it gets
    there, the volume of [_dst] is prepared; if that returns, the
    hypervisor state is saved to the path prepared from [_dst] and the
    volume is torn down, whether the save raised or not; and only if the
    save and the teardown returned, the volume of [_dstparams] is
    prepared, and if that returns, the parameter snapshot without its
    transient keys is pickled to the path prepared from [_dstparams] and
    that volume is torn down, whether the pickling raised or not. *)
Theorem C10_two_volume_paths env rq s :
  sem_value s <= sem_bound s ->
  String.eqb (_mode rq) "file" = true ->
  exists new,
    trace (snd (run env rq s)) = trace s ++ new /\
    volume_protocol env rq (vol_proj new) /\
    vol_proj new =
      if reaches_save env rq s
      then volume_log env rq (_machineParams (run_setup env rq s).2)
      else [].
Proof.
  intros Hwf Hmode.
  destruct (run_volume_protocol env rq s Hwf Hmode) as (new & Ht & Hp).
  destruct (run_volume_log env rq s Hwf Hmode) as (new' & Ht' & Hl).
  rewrite Ht in Ht'. apply app_inv_head in Ht'. subst new'.
  exists new. auto.
Qed.

(** ** The driver: a peer that already has the VM *)

(** The peer already has the VM and everything else goes well: the slot is
    taken, the hypervisor migrates, and the status that is left is the
    shared [errCode['exist']] dictionary, now saying "Migration done". *)
Lemma example_exist_run :
  let s' := final (example_env 0 no_raise no_stop) remote_request in
  trace s' =
    [(Call S_cannonizeHostPort, None); (Call S_connect, None);
     (Call S_getVmStats, None); (Call S_vm_status, None);
     (Call S_vm_getStats, None); (Call S_XMLDesc_params, None);
     (Acquire, None); (SetMigrationParams, None);
     (Call S_saveState, None); (Call S_customDevices, None);
     (Call S_XMLDesc_hook, None); (Call S_before_vm_migrate_source, None);
     (Call S_migrationCreate, None); (Call S_DowntimeThread, None);
     (Call S_MonitorThread_start, None);
     (MigrateToURI2 "qemu+tcp://dst.example/system" "tcp://dst.example" 3 32,
      None);
     (CancelDowntimeThread, None); (Call S_setDownStatus, None);
     (DelMigrationParams, None); (Release, None)] /\
  status s' = ErrCode E_exist /\
  read_status s' =
    {| code := 4; message := "Migration done"; progress := Some 100 |}.
Proof. vm_compute. repeat split. Qed.

Lemma C1_counterexample : ~ C1_as_stated.
Proof.
  intros H.
  destruct (H (example_env 0 no_raise no_stop) remote_request example_state
              eq_refl eq_refl eq_refl eq_refl eq_refl) as [_ Hnew].
  { vm_compute. discriminate. }
  specialize (Hnew _ eq_refl).
  destruct example_exist_run as (Ht & _).
  unfold final in Ht. rewrite Ht in Hnew.
  do 6 (apply Forall_inv_tail in Hnew).
  apply Forall_inv in Hnew. destruct Hnew as [Hne _]. apply Hne. reflexivity.
Qed.

Lemma setupVds_exist env rq s :
  String.eqb (_mode rq) "file" = false ->
  raises env S_cannonizeHostPort = None ->
  raises env S_connect = None ->
  raises env S_getVmStats = None ->
  getVmStats_code env = 0 ->
  _setupVdsConnection env rq s =
  (Ok tt,
   set_status (ErrCode E_exist)
     (log (Call S_getVmStats, None)
        (set_destServer true
           (log (Call S_connect, None)
              (set_remoteHost (Some (fst (hostPort env)))
                 (log (Call S_cannonizeHostPort, None) s)))))).
Proof.
  intros Hmode H1 H2 H3 H4.
  unfold _setupVdsConnection, bind, call, callE, try_except, modify, when.
  rewrite Hmode, H1. simpl. rewrite H2. simpl. rewrite H3, H4. reflexivity.
Qed.

(** [C1] In a remote-mode run whose [getVmStats] probe returns code 0,
    [_setupVdsConnection] sets the status to [errCode['exist']] and returns
    normally: the lifecycle is not aborted there. The run goes on with the
    params snapshot and the guest preparation from that state, and it takes
    the slot (and releases it) exactly when those two return and a slot is
    free. *)
Theorem C1_exist_continues env rq s :
  String.eqb (_mode rq) "file" = false ->
  raises env S_cannonizeHostPort = None ->
  raises env S_connect = None ->
  raises env S_getVmStats = None ->
  getVmStats_code env = 0 ->
  sem_value s <= sem_bound s ->
  let s1 := snd (_setupVdsConnection env rq s) in
  fst (_setupVdsConnection env rq s) = Ok tt /\
  status s1 = ErrCode E_exist /\
  run_setup env rq s =
    (_setupRemoteMachineParams env rq ;; _prepareGuest env rq)%py s1 /\
  exists new,
    trace (snd (run env rq s)) = trace s ++ new /\
    slot_proj new =
      if acquires env rq s then [(Acquire, None); (Release, None)] else [].
Proof.
  intros Hmode H1 H2 H3 H4 Hwf s1. subst s1.
  pose proof (setupVds_exist env rq s Hmode H1 H2 H3 H4) as E.
  split; [rewrite E; reflexivity|].
  split; [rewrite E; reflexivity|].
  split.
  - unfold run_setup. unfold bind at 1. rewrite E. reflexivity.
  - apply run_slot_balance. exact Hwf.
Qed.

(** ** Worked examples *)

Lemma C1_exist_continues_witness :
  let env := example_env 0 no_raise no_stop in
  let s1 := snd (_setupVdsConnection env remote_request example_state) in
  fst (_setupVdsConnection env remote_request example_state) = Ok tt /\
  status s1 = ErrCode E_exist /\
  run_setup env remote_request example_state =
    (_setupRemoteMachineParams env remote_request ;;
     _prepareGuest env remote_request)%py s1 /\
  exists new,
    trace (snd (run env remote_request example_state)) =
      trace example_state ++ new /\
    slot_proj new =
      if acquires env remote_request example_state
      then [(Acquire, None); (Release, None)] else [].
Proof.
  apply (C1_exist_continues (example_env 0 no_raise no_stop) remote_request
           example_state); first [reflexivity | simpl; lia].
Defined.

Lemma C3_slot_released_witness :
  let env := example_env 1 no_raise no_stop in
  let s' := snd (run env remote_request example_state) in
  sem_value example_state <= sem_bound example_state /\
  sem_value s' = sem_value example_state /\
  sem_bound s' = sem_bound example_state /\
  (exists new,
     trace s' = trace example_state ++ new /\
     slot_proj new =
       if acquires env remote_request example_state
       then [(Acquire, None); (Release, None)] else []) /\
  (0 < sem_value example_state ->
   fst (run env remote_request example_state) <> Block).
Proof.
  split; [simpl; lia|].
  apply (C3_slot_released (example_env 1 no_raise no_stop) remote_request
           example_state).
  simpl. lia.
Defined.

Lemma C4_migrationParams_scoped_witness :
  let env := example_env 1 no_raise no_stop in
  let s' := snd (run env remote_request example_state) in
  conf example_state !! "_migrationParams" = None /\
  conf s' !! "_migrationParams" = None /\
  conf s' = conf example_state /\
  exists new,
    trace s' = trace example_state ++ new /\ params_protocol (key_proj new).
Proof.
  split; [reflexivity|].
  apply (C4_migrationParams_scoped (example_env 1 no_raise no_stop)
           remote_request example_state).
  - simpl. lia.
  - reflexivity.
Defined.

(** [stop()] during [migrateToURI2], which then fails with the
    aborted-operation error. *)
Lemma example_cancel_run :
  let s' := snd (run cancelled_env remote_request example_state) in
  has_migrate (trace s') = true /\
  read_status s' =
    {| code := 82; message := "Migration canceled"; progress := Some 0 |} /\
  lastStatus s' = "Up"%string.
Proof. vm_compute. repeat split. Qed.


Lemma C7_downtime_ramp_witness :
  let r := Downtime.run example_ramp_cfg 1024 500
             (fun _ => false) (fun _ => false) in
  Downtime.downtimes (fst r) = ramp_values 500 10 10 /\
  length (Downtime.downtimes (fst r)) = 10%nat /\
  snd r = Downtime.Finished /\
  (0 <= 500 -> increasing Z.le (Downtime.downtimes (fst r))) /\
  (10 <= 500 -> increasing Z.lt (Downtime.downtimes (fst r))).
Proof.
  apply (C7_downtime_ramp example_ramp_cfg 1024 500
           (fun _ => false) (fun _ => false) 10).
  - simpl. lia.
  - intros i _. split; reflexivity.
  - simpl. lia.
Defined.

Lemma C8_no_transient_params_witness :
  let env := example_env 1 no_raise no_stop in
  (exists new,
     trace (snd (run env file_request example_state)) =
       trace example_state ++ new /\ Forall pickle_ok new) /\
  (forall s0,
     String.eqb (_mode file_request) "file" = true ->
     raises env S_prepareVolumePath_dstparams = None ->
     exists post,
       trace (snd (_finishSuccessfully env file_request s0)) =
       trace s0 ++
       [(PrepareVolumePath (_dstparams file_request), None);
        (PickleDump (prepareVolumePath env (_dstparams file_request))
                    (strip_transient (_machineParams s0)),
         raises env S_pickle_dump)] ++ post).
Proof.
  apply (C8_no_transient_params (example_env 1 no_raise no_stop) file_request
           example_state).
  simpl. lia.
Defined.

(** A successful save to file: two volumes, and a pickled dictionary that
    has lost [display], [displayIp] and [pid] but kept the rest. *)
Lemma example_file_run :
  let env := example_env 1 no_raise no_stop in
  let s' := snd (run env file_request example_state) in
  fst (run env file_request example_state) = Ok tt /\
  message (read_status s') = "SaveState done"%string /\
  vm_status env !! "display" = Some (VStr "vnc") /\
  exists p,
    vol_proj (trace s') =
      [(PrepareVolumePath "hibernate-volume", None);
       (Save "/rhev/hibernate-volume", None);
       (TeardownVolumePath "hibernate-volume", None);
       (PrepareVolumePath "params-volume", None);
       (PickleDump "/rhev/params-volume" p, None);
       (TeardownVolumePath "params-volume", None)] /\
    p !! "display" = None /\ p !! "displayIp" = None /\ p !! "pid" = None /\
    p !! "status" = Some (VStr "Up").
Proof.
  vm_compute. split; [reflexivity|]. split; [reflexivity|].
  split; [reflexivity|]. eexists. split; [reflexivity|].
  repeat split.
Qed.

Lemma C10_two_volume_paths_witness :
  let env := example_env 1 no_raise no_stop in
  exists new,
    trace (snd (run env file_request example_state)) =
      trace example_state ++ new /\
    volume_protocol env file_request (vol_proj new) /\
    vol_proj new =
      if reaches_save env file_request example_state
      then volume_log env file_request
             (_machineParams (run_setup env file_request example_state).2)
      else [].
Proof.
  apply (C10_two_volume_paths (example_env 1 no_raise no_stop) file_request
           example_state).
  - simpl. lia.
  - reflexivity.
Defined.

(** * Further properties of the code *)

(** ** The monitor over a whole run *)

Lemma monitor_inv_step cfg st tk :
  monitor_inv st -> monitor_inv (Monitor.step cfg st tk).
Proof.
  unfold monitor_inv, Monitor.step. intros (H1 & H2 & H3).
  destruct (Monitor.phase st) eqn:Eph; [|repeat split; auto; congruence ..].
  specialize (H1 eq_refl).
  destruct (Monitor.stopRequested tk); simpl.
  - repeat split; simpl; auto; congruence.
  - destruct (Monitor._stop (Monitor.self st)) eqn:Es; simpl.
    + repeat split; simpl; auto; congruence.
    + destruct (Monitor.jobInfo tk) as [ji|]; simpl.
      * destruct (Monitor.decide_abort _ _ _ _) as [[[] lm] lp]; simpl.
        -- destruct (Monitor.abortJobRaises tk); simpl;
             repeat split; simpl; auto; try congruence; lia.
        -- repeat split; simpl; auto; congruence.
      * repeat split; simpl; auto; congruence.
Qed.

Lemma monitor_inv_fold cfg ticks : forall st,
  monitor_inv st -> monitor_inv (fold_left (Monitor.step cfg) ticks st).
Proof.
  induction ticks as [|tk ticks IH]; simpl; auto using monitor_inv_step.
Qed.

(** [X1] The monitor calls [abortJob] at most once in its life: a monitor
    that is still sampling has not called it, and once it has, the thread
    is over. When [run] returns, the monitor's stop event is set. *)
Theorem monitor_aborts_once cfg memSize t0 startTime ticks :
  let st := Monitor.run cfg memSize t0 (Monitor.__init__ startTime) ticks in
  (Monitor.abortJobCalls st <= 1)%nat /\
  (Monitor.phase st = Monitor.Running -> Monitor.abortJobCalls st = 0%nat) /\
  (Monitor.phase st = Monitor.Exited ->
   Monitor._stop (Monitor.self st) = true).
Proof.
  destruct (monitor_inv_fold cfg ticks
              (Monitor.start cfg memSize t0 (Monitor.__init__ startTime)))
    as (H1 & H2 & H3).
  - destruct memSize; repeat split; simpl; auto; congruence.
  - auto.
Qed.

Lemma step_running cfg st tk :
  Monitor.phase (Monitor.step cfg st tk) = Monitor.Running ->
  Monitor.phase st = Monitor.Running /\
  exists ji, Monitor.jobInfo tk = Some ji /\
    Monitor.lowmark (Monitor.step cfg st tk) =
      Some (match Monitor.lowmark st with
            | None => Monitor.dataRemaining ji
            | Some lm => Z.min lm (Monitor.dataRemaining ji)
            end).
Proof.
  unfold Monitor.step, Monitor.decide_abort.
  destruct (Monitor.phase st) eqn:Eph; [|congruence ..].
  destruct (Monitor._stop _); simpl; [discriminate|].
  destruct (Monitor.jobInfo tk) as [ji|]; simpl; [|discriminate].
  destruct (_ && _); simpl.
  { destruct (Monitor.abortJobRaises tk); discriminate. }
  destruct (Monitor.lowmark st) as [lm|] eqn:El; simpl.
  - destruct (lm >? Monitor.dataRemaining ji) eqn:Eg; simpl.
    + intros _. split; auto. exists ji. split; auto.
      apply Z.gtb_lt in Eg. f_equal. lia.
    + rewrite Z.gtb_ltb in Eg. apply Z.ltb_ge in Eg.
      destruct (Qltb _ _); simpl.
      { destruct (Monitor.abortJobRaises tk); discriminate. }
      intros _. split; auto. exists ji. split; auto.
      f_equal. lia.
  - intros _. split; auto. exists ji. auto.
Qed.

Lemma fold_running cfg ticks : forall st,
  Monitor.phase (fold_left (Monitor.step cfg) ticks st) = Monitor.Running ->
  Monitor.phase st = Monitor.Running.
Proof.
  induction ticks as [|tk ticks IH]; simpl; auto.
  intros st H. apply IH in H. apply step_running in H. tauto.
Qed.

Lemma lowmark_fold cfg ticks : forall st,
  Monitor.phase (fold_left (Monitor.step cfg) ticks st) = Monitor.Running ->
  exists lm,
    Monitor.lowmark (fold_left (Monitor.step cfg) ticks st) = lm /\
    (forall l0, Monitor.lowmark st = Some l0 -> exists l, lm = Some l /\ l <= l0) /\
    (forall tk, tk ∈ ticks ->
       exists ji l, Monitor.jobInfo tk = Some ji /\ lm = Some l /\
                    l <= Monitor.dataRemaining ji) /\
    (lm = Monitor.lowmark st \/
     exists tk ji, tk ∈ ticks /\ Monitor.jobInfo tk = Some ji /\
                   lm = Some (Monitor.dataRemaining ji)).
Proof.
  induction ticks as [|tk ticks IH]; intros st Hrun; simpl in *.
  - eexists. split; [reflexivity|]. split; [|split].
    + intros l0 H. exists l0. split; [auto|lia].
    + intros tk H. inversion H.
    + auto.
  - destruct (IH _ Hrun) as (lm & Elm & IH1 & IH2 & IH3).
    pose proof (fold_running _ _ _ Hrun) as Hstep.
    destruct (step_running _ _ _ Hstep) as (_ & ji & Hji & Hlow).
    destruct (IH1 _ Hlow) as (l & -> & Hl).
    exists (Some l). split; [exact Elm|]. split; [|split].
    + intros l0 H0. rewrite H0 in Hl. exists l. split; [auto|lia].
    + intros tk' Hin. apply elem_of_cons in Hin as [->|Hin]; [|auto].
      exists ji, l. repeat split; auto.
      destruct (Monitor.lowmark st); lia.
    + destruct IH3 as [E | (tk2 & ji2 & Hin2 & Hji2 & E)].
      * rewrite Hlow in E. injection E as E.
        destruct (Monitor.lowmark st) as [l0|] eqn:E0.
        -- destruct (Z.min_spec l0 (Monitor.dataRemaining ji)) as [[_ Em]|[_ Em]];
             rewrite Em in E; subst l.
           ++ left. reflexivity.
           ++ right. exists tk, ji. repeat split; auto. left.
        -- right. exists tk, ji. subst l. repeat split; auto. left.
      * right. exists tk2, ji2. repeat split; auto. right. exact Hin2.
Qed.

(** [X2] While the monitor is still sampling, [lowmark] is the least
    [dataRemaining] it has seen: no sample was below it, and one sample
    had exactly that much left. *)
Theorem monitor_lowmark_least cfg memSize t0 obj ticks :
  ticks <> [] ->
  Monitor.phase (Monitor.run cfg memSize t0 obj ticks) = Monitor.Running ->
  exists lm,
    Monitor.lowmark (Monitor.run cfg memSize t0 obj ticks) = Some lm /\
    least_remaining ticks lm.
Proof.
  unfold Monitor.run. intros Hne Hrun.
  destruct (lowmark_fold _ _ _ Hrun) as (lm & Elm & _ & H2 & H3).
  destruct ticks as [|tk0 ticks]; [congruence|].
  destruct (H2 tk0) as (ji0 & l & _ & -> & _); [left|].
  exists l. split; [exact Elm|]. split.
  - intros tk Hin. destruct (H2 tk Hin) as (ji & l' & Hji & El & Hle).
    injection El as <-. eauto.
  - destruct H3 as [E | (tk & ji & Hin & Hji & E)].
    + destruct memSize; discriminate E.
    + injection E as ->. eauto.
Qed.

Lemma monitor_lowmark_least_witness :
  exists lm,
    Monitor.lowmark (Monitor.run example_monitor_cfg (Some 1024) 0%Q
                       (Monitor.__init__ 0%Q) [sample 1 100 70 1%Q; sample 1 100 40 2%Q; sample 1 100 55 3%Q]) = Some lm /\
    least_remaining [sample 1 100 70 1%Q; sample 1 100 40 2%Q; sample 1 100 55 3%Q] lm.
Proof.
  apply (monitor_lowmark_least example_monitor_cfg (Some 1024) 0%Q
           (Monitor.__init__ 0%Q) [sample 1 100 70 1%Q; sample 1 100 40 2%Q; sample 1 100 55 3%Q]).
  - discriminate.
  - vm_compute. reflexivity.
Defined.

Lemma step_progressing cfg st tk :
  Monitor.phase st = Monitor.Running ->
  Monitor._stop (Monitor.self st) = false ->
  ~ overrun st (Monitor.now tk) ->
  descending (Monitor.lowmark st) [tk] ->
  let st' := Monitor.step cfg st tk in
  Monitor.phase st' = Monitor.Running /\
  Monitor._stop (Monitor.self st') = false /\
  Monitor.abortJobCalls st' = Monitor.abortJobCalls st /\
  Monitor.migrationMaxTime st' = Monitor.migrationMaxTime st /\
  Monitor._startTime (Monitor.self st') = Monitor._startTime (Monitor.self st) /\
  Monitor.lowmark st' = Monitor.dataRemaining <$> Monitor.jobInfo tk.
Proof.
  intros Hph Hstop Hno (Hreq & ji & Hji & Hlt & _).
  unfold Monitor.step, Monitor.decide_abort.
  rewrite Hph, Hreq, Hstop, Hji.
  pose proof (overrun_dec st (Monitor.now tk)) as Ho.
  destruct (_ && _); [exfalso; apply Hno, Ho; reflexivity|].
  destruct (Monitor.lowmark st) as [lm|] eqn:El.
  - specialize (Hlt lm eq_refl).
    replace (lm >? Monitor.dataRemaining ji) with true
      by (symmetry; apply Z.gtb_lt; lia).
    simpl. destruct (Monitor.jobType ji =? 0); simpl; repeat split; auto.
  - simpl. destruct (Monitor.jobType ji =? 0); simpl; repeat split; auto.
Qed.

Lemma fold_progressing cfg ticks : forall st,
  Monitor.phase st = Monitor.Running ->
  Monitor._stop (Monitor.self st) = false ->
  Forall (fun tk => ~ overrun st (Monitor.now tk)) ticks ->
  descending (Monitor.lowmark st) ticks ->
  let st' := fold_left (Monitor.step cfg) ticks st in
  Monitor.phase st' = Monitor.Running /\
  Monitor.abortJobCalls st' = Monitor.abortJobCalls st /\
  Monitor.lowmark st' =
    match last (remainings ticks) with
    | Some r => Some r
    | None => Monitor.lowmark st
    end.
Proof.
  induction ticks as [|tk ticks IH]; intros st Hph Hstop Hno Hd; simpl.
  - auto.
  - apply Forall_cons_1 in Hno as [Hno1 Hno].
    destruct Hd as (Hreq & ji & Hji & Hlt & Hd).
    destruct (step_progressing cfg st tk Hph Hstop Hno1)
      as (Hph' & Hstop' & Hc' & Hm' & Ht' & Hl').
    { simpl. eauto 10. }
    destruct (IH (Monitor.step cfg st tk) Hph' Hstop') as (H1 & H2 & H3).
    + eapply Forall_impl; [exact Hno|]. intros tk' H. unfold overrun in *.
      rewrite Hm', Ht'. exact H.
    + rewrite Hl', Hji. exact Hd.
    + split; [exact H1|]. split; [congruence|].
      rewrite H3. unfold remainings. cbn [omap list_omap]. rewrite Hji. simpl.
      fold (remainings ticks). rewrite last_cons, Hl', Hji. simpl.
      destruct (last (remainings ticks)); reflexivity.
Qed.

(** [X3] A monitor whose samples all arrive in time, with nobody asking it
    to stop, and each reporting less data remaining than the one before,
    never calls [abortJob] and goes on sampling; its [lowmark] is what the
    last sample reported. *)
Theorem monitor_keeps_running cfg memSize t0 startTime ticks :
  let st0 := Monitor.start cfg (Some memSize) t0 (Monitor.__init__ startTime) in
  Forall (fun tk => ~ overrun st0 (Monitor.now tk)) ticks ->
  descending None ticks ->
  let st := Monitor.run cfg (Some memSize) t0 (Monitor.__init__ startTime) ticks in
  Monitor.phase st = Monitor.Running /\
  Monitor.abortJobCalls st = 0%nat /\
  Monitor.lowmark st = last (remainings ticks) /\
  (Monitor.migration_max_time_per_gib_mem cfg = 0 ->
   forall now, ~ overrun st0 now).
Proof.
  intros st0 Hno Hd st. subst st st0. unfold Monitor.run.
  destruct (fold_progressing cfg ticks
              (Monitor.start cfg (Some memSize) t0 (Monitor.__init__ startTime)))
    as (H1 & H2 & H3); auto.
  split; [exact H1|]. split; [exact H2|]. split.
  - rewrite H3. destruct (last (remainings ticks)); reflexivity.
  - intros Hz now [Hpos _]. simpl in Hpos.
    rewrite Hz, Z.mul_0_l in Hpos. vm_compute in Hpos. discriminate.
Qed.

Lemma monitor_keeps_running_witness :
  let ticks := [sample 1 100 70 1%Q; sample 1 100 40 2%Q; sample 0 100 30 3%Q] in
  let st := Monitor.run example_monitor_cfg (Some 1024) 0%Q
              (Monitor.__init__ 0%Q) ticks in
  Monitor.phase st = Monitor.Running /\
  Monitor.abortJobCalls st = 0%nat /\
  Monitor.lowmark st = last (remainings ticks) /\
  (Monitor.migration_max_time_per_gib_mem example_monitor_cfg = 0 ->
   forall now,
     ~ overrun (Monitor.start example_monitor_cfg (Some 1024) 0%Q
                  (Monitor.__init__ 0%Q)) now).
Proof.
  apply (monitor_keeps_running example_monitor_cfg 1024 0%Q 0%Q
           [sample 1 100 70 1%Q; sample 1 100 40 2%Q; sample 0 100 30 3%Q]).
  - repeat constructor; intros [_ H]; vm_compute in H; discriminate.
  - simpl. repeat (split; [reflexivity|]; eexists; split; [reflexivity|];
                   split; [intros b Hb; inversion Hb; simpl; lia|]).
    exact I.
Defined.

(** [X4] For a positive total and samples that stay within it,
    [calculateProgress] is between 0 and 100, does not decrease when less
    data remains, and is 100 exactly when nothing remains; a sample that
    reports as much remaining as the total, or more, gives no positive
    progress. *)
Theorem calculateProgress_range (r1 r2 t : Z) :
  0 < t -> 0 <= r2 <= r1 -> r1 <= t ->
  0 <= Monitor.calculateProgress r1 t
    <= Monitor.calculateProgress r2 t /\
  Monitor.calculateProgress r2 t <= 100 /\
  (Monitor.calculateProgress r2 t = 100 <-> r2 = 0) /\
  (forall r, t <= r -> Monitor.calculateProgress r t <= 0).
Proof.
  intros Ht Hr Hle. split; [split|split; [|split]].
  - apply calc_nonneg; lia.
  - apply calc_mono; lia.
  - apply calc_le_100.
  - split; [apply calc_100|intros ->; reflexivity].
  - intros r Hr'. rewrite calc_clamp by lia.
    assert (100 <= 100 * r / t) by (apply Z.div_le_lower_bound; lia). lia.
Qed.

Lemma calculateProgress_range_witness :
  0 <= Monitor.calculateProgress 70 100
    <= Monitor.calculateProgress 40 100 /\
  Monitor.calculateProgress 40 100 <= 100 /\
  (Monitor.calculateProgress 40 100 = 100 <-> 40 = 0) /\
  (forall r, 100 <= r -> Monitor.calculateProgress r 100 <= 0).
Proof. apply (calculateProgress_range 70 40 100); lia. Defined.

(** ** The downtime ramp: bounds and waits *)

Lemma loop_calls cfg w D stopSet callRaises : forall todo,
  let r := Downtime.loop cfg w D stopSet callRaises todo in
  (exists done,
     done `prefix_of` todo /\
     Downtime.downtimes (fst r) =
       map (fun i => D * (Z.of_nat i + 1) / Downtime.DOWNTIME_STEPS cfg) done /\
     (snd r = Downtime.Finished -> done = todo)).
Proof.
  induction todo as [|i todo IH]; simpl.
  - exists []. repeat split; auto.
  - destruct (stopSet i).
    { exists []. split; [apply prefix_nil|]. split; [reflexivity|discriminate]. }
    destruct (callRaises i).
    { exists [i]. split; [apply prefix_cons, prefix_nil|].
      split; [reflexivity|discriminate]. }
    destruct (Downtime.loop cfg w D stopSet callRaises todo) as [evs ex].
    destruct IH as (done & Hp & Hd & Hf). simpl in *.
    exists (i :: done). split; [apply prefix_cons, Hp|].
    split; [rewrite Hd; reflexivity|]. intros H. f_equal. auto.
Qed.

(** [X5] Whatever happens to the thread, it never asks for more than the
    target downtime, and when it runs to the end of its loop the last
    value it set is the target itself. *)
Theorem downtime_reaches_target cfg memSize D stopSet callRaises :
  0 < Downtime.DOWNTIME_STEPS cfg -> 0 <= D ->
  let r := Downtime.run cfg memSize D stopSet callRaises in
  Forall (fun d => 0 <= d <= D) (Downtime.downtimes (fst r)) /\
  (snd r = Downtime.Finished -> last (Downtime.downtimes (fst r)) = Some D).
Proof.
  intros HN HD. unfold Downtime.run.
  set (N := Downtime.DOWNTIME_STEPS cfg) in *.
  destruct (loop_calls cfg (Downtime._wait cfg memSize) D stopSet callRaises
              (seq 0 (Z.to_nat N))) as (done & Hp & Hd & Hf).
  fold N in Hd. simpl. rewrite Hd. split.
  - apply Forall_fmap, Forall_forall. intros i Hi. simpl.
    assert (i ∈ seq 0 (Z.to_nat N)) as Hin.
    { destruct Hp as [k ->]. apply elem_of_app. auto. }
    apply elem_of_seq in Hin. split.
    + apply Z.div_pos; nia.
    + apply Z.div_le_upper_bound; nia.
  - intros Hfin. rewrite (Hf Hfin).
    replace (Z.to_nat N) with (S (Z.to_nat N - 1)) by lia.
    rewrite seq_S, map_app. cbn [map]. rewrite last_snoc. f_equal. cbn [Nat.add].
    replace (Z.of_nat (Z.to_nat N - 1) + 1) with N by lia.
    apply Z.div_mul. lia.
Qed.

Lemma downtime_reaches_target_witness :
  let r := Downtime.run example_ramp_cfg 4096 500 (fun _ => false)
             (fun _ => false) in
  Forall (fun d => 0 <= d <= 500) (Downtime.downtimes (fst r)) /\
  (snd r = Downtime.Finished -> last (Downtime.downtimes (fst r)) = Some 500).
Proof.
  apply (downtime_reaches_target example_ramp_cfg 4096 500); simpl; lia.
Defined.

Lemma loop_waits cfg w D stopSet callRaises : forall todo,
  let evs := fst (Downtime.loop cfg w D stopSet callRaises todo) in
  Forall (fun t => t = w / Downtime.DOWNTIME_STEPS cfg) (waits evs) /\
  (length (waits evs) <= length todo)%nat /\
  (length (Downtime.downtimes evs) <= length (waits evs)
     <= S (length (Downtime.downtimes evs)))%nat.
Proof.
  induction todo as [|i todo IH]; simpl.
  - repeat split; auto.
  - destruct (stopSet i); simpl.
    { repeat split; auto. lia. }
    destruct (callRaises i); simpl.
    { repeat split; auto. lia. }
    destruct (Downtime.loop cfg w D stopSet callRaises todo) as [evs ex].
    destruct IH as (H1 & H2 & H3). simpl in *.
    repeat split; auto; lia.
Qed.

Lemma loop_wait_first cfg w D stopSet callRaises : forall todo,
  wait_first (Downtime.loop cfg w D stopSet callRaises todo).1 = true.
Proof.
  induction todo as [|i todo IH]; simpl; [reflexivity|].
  destruct (stopSet i); [reflexivity|].
  destruct (callRaises i); [reflexivity|].
  destruct (Downtime.loop cfg w D stopSet callRaises todo) as [evs ex].
  exact IH.
Qed.

Lemma sum_const (c : Z) (l : list Z) :
  Forall (fun t => t = c) l -> foldr Z.add 0 l = Z.of_nat (length l) * c.
Proof.
  induction 1 as [|x l -> _ IH]; simpl; [reflexivity|]. rewrite IH. lia.
Qed.

(** [X6] Every wait of the ramp has the same timeout, [_wait / STEPS]; a
    call to [migrateSetMaxDowntime] always comes after a wait of its own:
    the events of a run are a wait, the call that follows it, a wait
    again, and so on, where only the last wait may have no call after it,
    so that there are as many waits as calls or one more; and with a
    non-negative delay the timeouts of one run add up to no more than
    [_wait], which for a VM of up to 2 GiB is the delay of a 2 GiB one. *)
Theorem downtime_waits cfg memSize D stopSet callRaises :
  0 <= Downtime.migration_downtime_delay cfg ->
  let N := Downtime.DOWNTIME_STEPS cfg in
  let evs := fst (Downtime.run cfg memSize D stopSet callRaises) in
  Forall (fun t => t = Downtime._wait cfg memSize / N) (waits evs) /\
  wait_first evs = true /\
  (length (Downtime.downtimes evs) <= length (waits evs)
     <= S (length (Downtime.downtimes evs)))%nat /\
  0 <= total_wait evs <= Downtime._wait cfg memSize /\
  (memSize <= 2048 ->
   Downtime._wait cfg memSize = Downtime._wait cfg 2048).
Proof.
  intros Hdelay N evs.
  pose proof (loop_waits cfg (Downtime._wait cfg memSize) D stopSet callRaises
                (seq 0 (Z.to_nat N))) as H.
  change (Downtime.loop _ _ _ _ _ _).1 with evs in H.
  cbv zeta in H. fold N in H. destruct H as (H1 & H2 & H3).
  rewrite length_seq in H2.
  split; [exact H1|]. split; [apply loop_wait_first|].
  split; [exact H3|]. split.
  - unfold total_wait. rewrite (sum_const _ _ H1).
    assert (0 <= Downtime._wait cfg memSize) as Hw.
    { unfold Downtime._wait. apply Z.div_pos; nia. }
    destruct (Z_le_gt_dec N 0) as [Hn|Hn].
    + replace (Z.to_nat N) with 0%nat in H2 by lia.
      destruct (waits evs); simpl in *; lia.
    + assert (0 <= Downtime._wait cfg memSize / N) by (apply Z.div_pos; lia).
      assert (N * (Downtime._wait cfg memSize / N) <= Downtime._wait cfg memSize)
        by (apply Z.mul_div_le; lia).
      nia.
  - intros Hm. unfold Downtime._wait. rewrite Z.max_r by lia. reflexivity.
Qed.

Lemma downtime_waits_witness :
  let evs := fst (Downtime.run example_ramp_cfg 1024 500 (fun i => (3 <=? i)%nat)
                    (fun _ => false)) in
  Forall (fun t => t = Downtime._wait example_ramp_cfg 1024 / 10) (waits evs) /\
  wait_first evs = true /\
  (length (Downtime.downtimes evs) <= length (waits evs)
     <= S (length (Downtime.downtimes evs)))%nat /\
  0 <= total_wait evs <= Downtime._wait example_ramp_cfg 1024 /\
  (1024 <= 2048 ->
   Downtime._wait example_ramp_cfg 1024 = Downtime._wait example_ramp_cfg 2048).
Proof.
  apply (downtime_waits example_ramp_cfg 1024 500). simpl. lia.
Defined.

(** ** The driver: the status a caller reads *)

Lemma Loc_eqb_eq a b : Loc_eqb a b = true -> a = b.
Proof.
  destruct a as [|[]|], b as [|[]|]; simpl; intros H;
    first [reflexivity | discriminate H].
Qed.

Lemma heap_update_other l f h l' : l' <> l -> heap_update l f h l' = h l'.
Proof.
  intros Hne. unfold heap_update.
  destruct (Loc_eqb l l') eqn:E; [|reflexivity].
  apply Loc_eqb_eq in E. congruence.
Qed.

Lemma heap_update_same l f h : heap_update l f h l = f (h l).
Proof. unfold heap_update. rewrite Loc_eqb_refl. reflexivity. Qed.

(** [X7] [getStat] returns the dictionary [self.status] refers to, after
    copying the monitor's progress into it when a monitor exists: code and
    message stay, every other dictionary stays, and asking again gives the
    same answer and the same dictionaries. *)
Theorem getStat_writes_progress s :
  let r := getStat s in
  r.1 = Ok (read_status r.2) /\
  status r.2 = status s /\
  (forall l, l <> status s -> heap r.2 l = heap s l) /\
  code (read_status r.2) = code (read_status s) /\
  message (read_status r.2) = message (read_status s) /\
  progress (read_status r.2) =
    match _monitorThread s with
    | Some m => Some (Monitor.progress m)
    | None => progress (read_status s)
    end /\
  (getStat r.2).1 = r.1 /\
  (forall l, heap (getStat r.2).2 l = heap r.2 l).
Proof.
  unfold getStat, bind, get, modify, ret. cbn [fst snd].
  destruct (_monitorThread s) as [m|] eqn:Em; cbn [fst snd].
  - change (_monitorThread (write_status _ s)) with (_monitorThread s).
    rewrite Em. cbn [fst snd]. rewrite !read_write_status.
    repeat split; auto.
    + intros l Hl. apply heap_update_other. exact Hl.
    + intros l. unfold write_status. simpl.
      destruct (Loc_eqb (status s) l) eqn:E.
      * apply Loc_eqb_eq in E. subst l. rewrite !heap_update_same. reflexivity.
      * unfold heap_update. rewrite E. reflexivity.
  - rewrite Em. repeat split; auto.
Qed.

(** ** The driver: the connection to the peer *)

(** [X8] For a save to file [_setupVdsConnection] does nothing.
    Otherwise it lets out only what [cannonizeHostPort] or [connect]
    raise, leaving the status as it was; when it returns, the driver knows
    the peer's host and its server, and the status is [errCode['noConPeer']]
    when the probe raised, [errCode['exist']] when it answered with code 0,
    and untouched when it answered with an error.  No dictionary is
    written. *)
Theorem setupVds_outcomes env rq s :
  let r := _setupVdsConnection env rq s in
  if String.eqb (_mode rq) "file" then r = (Ok tt, s)
  else
    heap r.2 = heap s /\
    match r.1 with
    | Ok _ =>
        raises env S_cannonizeHostPort = None /\
        raises env S_connect = None /\
        remoteHost r.2 = Some (hostPort env).1 /\
        destServer r.2 = true /\
        status r.2 =
          match raises env S_getVmStats with
          | Some _ => ErrCode E_noConPeer
          | None => if getVmStats_code env =? 0 then ErrCode E_exist
                    else status s
          end
    | Raise e =>
        status r.2 = status s /\
        (raises env S_cannonizeHostPort = Some e \/
         raises env S_cannonizeHostPort = None /\
         raises env S_connect = Some e)
    | Block => False
    end.
Proof.
  unfold _setupVdsConnection, bind, call, callE, try_except, modify, when.
  destruct (String.eqb (_mode rq) "file"); [reflexivity|].
  destruct (raises env S_cannonizeHostPort); simpl; [auto|].
  destruct (raises env S_connect); simpl; [auto|].
  destruct (raises env S_getVmStats); simpl; [auto 10|].
  destruct (getVmStats_code env =? 0); simpl; auto 10.
Qed.

(** ** The driver: the parameter snapshot *)

(** Membership in a list of keys, as disequalities. *)
Ltac split_keys H := rewrite !not_elem_of_cons in H; decompose [and] H; clear H.
Ltac not_key :=
  rewrite ?not_elem_of_cons;
  repeat split; first [assumption | apply not_elem_of_nil | congruence].

Lemma set_machineParams_id s : set_machineParams (_machineParams s) s = s.
Proof. destruct s; reflexivity. Qed.

Lemma legacy_path_cons item d l :
  legacy_path item (d :: l) =
  match legacy_path item l with
  | Some p => Some p
  | None => if has_device item d then d !! "path" else None
  end.
Proof.
  unfold legacy_path. cbn [omap list_omap].
  destruct (has_device item d);
    [destruct (d !! "path"); [apply last_cons|]|];
    destruct (last _); reflexivity.
Qed.

Lemma patch_drives_ok item : forall l nd s,
  Forall (fun d => is_Some (d !! "device") /\
                   (has_device item d = true -> is_Some (d !! "path"))) l ->
  patch_drives item l nd s =
  (Ok (nd ++ filter (fun d => has_device item d = false) l),
   set_machineParams
     (match legacy_path item l with
      | Some p => <[item := VStr p]> (_machineParams s)
      | None => _machineParams s
      end) s).
Proof.
  induction l as [|d l IH]; intros nd s Hok.
  - simpl. unfold ret. rewrite app_nil_r, set_machineParams_id. reflexivity.
  - apply Forall_cons_1 in Hok as [[[dev Hdev] Hpath] Hok].
    rewrite legacy_path_cons. cbn [patch_drives]. rewrite Hdev.
    assert (Hd : has_device item d = String.eqb dev item)
      by (unfold has_device; rewrite Hdev; reflexivity).
    rewrite Hd in *.
    destruct (String.eqb dev item) eqn:E.
    + destruct (Hpath eq_refl) as [path Hp]. rewrite Hp.
      unfold bind, modify. rewrite (IH nd _ Hok).
      rewrite filter_cons_False by (rewrite Hd; discriminate).
      cbn [_machineParams set_machineParams].
      destruct (legacy_path item l); [|reflexivity].
      rewrite insert_insert_eq. reflexivity.
    + rewrite (IH _ _ Hok).
      rewrite filter_cons_True by (rewrite Hd; reflexivity).
      rewrite <- app_assoc. destruct (legacy_path item l); reflexivity.
Qed.

Lemma drives_ok_Forall item l :
  item = "cdrom"%string \/ item = "floppy"%string ->
  drives_ok l = true ->
  Forall (fun d => is_Some (d !! "device") /\
                   (has_device item d = true -> is_Some (d !! "path"))) l.
Proof.
  intros Hitem H. unfold drives_ok in H. rewrite forallb_forall in H.
  apply Forall_forall. intros d Hd. apply list_elem_of_In in Hd.
  specialize (H d Hd). apply andb_true_iff in H as [H1 H2].
  apply bool_decide_eq_true in H1. split; [exact H1|].
  intros Hdev. apply orb_true_iff in H2 as [H2|H2].
  - unfold is_legacy in H2. destruct Hitem; subst item; rewrite Hdev in H2;
      simpl in H2; try discriminate.
    rewrite orb_true_r in H2. discriminate.
  - apply bool_decide_eq_true in H2. exact H2.
Qed.

Lemma drives_ok_filter (P : drive -> Prop) `{!forall d, Decision (P d)} l :
  drives_ok l = true -> drives_ok (filter P l) = true.
Proof.
  unfold drives_ok. rewrite !forallb_forall. intros Hall d Hd. apply Hall.
  apply list_elem_of_In. apply list_elem_of_In in Hd.
  apply list_elem_of_filter in Hd. tauto.
Qed.

Lemma patch_item_ok item l s :
  item = "cdrom"%string \/ item = "floppy"%string ->
  _machineParams s !! "drives" = Some (VDrives l) ->
  drives_ok l = true ->
  patch_item item s =
  (Ok tt,
   set_machineParams
     (<["drives" := VDrives (filter (fun d => has_device item d = false) l)]>
        (match legacy_path item l with
         | Some p => <[item := VStr p]> (_machineParams s)
         | None => _machineParams s
         end)) s).
Proof.
  intros Hitem Hl Hok. unfold patch_item, bind, get. rewrite Hl. simpl.
  rewrite (patch_drives_ok item l [] s (drives_ok_Forall item l Hitem Hok)).
  reflexivity.
Qed.

Lemma has_device_disjoint d :
  has_device "cdrom" d = true -> has_device "floppy" d = false.
Proof.
  unfold has_device. destruct (d !! "device") as [dev|]; [|discriminate].
  intros H. apply String.eqb_eq in H. subst dev. reflexivity.
Qed.

Lemma legacy_path_filter l :
  legacy_path "floppy" (filter (fun d => has_device "cdrom" d = false) l) =
  legacy_path "floppy" l.
Proof.
  induction l as [|d l IH]; [reflexivity|].
  destruct (has_device "cdrom" d) eqn:E.
  - rewrite filter_cons_False by (rewrite E; discriminate).
    rewrite legacy_path_cons, IH, (has_device_disjoint d E).
    destruct (legacy_path "floppy" l); reflexivity.
  - rewrite filter_cons_True by (rewrite E; reflexivity).
    rewrite !legacy_path_cons, IH. reflexivity.
Qed.

Lemma modern_drives_filter l :
  filter (fun d => has_device "floppy" d = false)
         (filter (fun d => has_device "cdrom" d = false) l) = modern_drives l.
Proof.
  unfold modern_drives, is_legacy.
  induction l as [|d l IH]; [reflexivity|].
  destruct (has_device "cdrom" d) eqn:E1.
  - rewrite filter_cons_False by (rewrite E1; discriminate).
    rewrite (filter_cons_False _ d) by (rewrite E1; discriminate). exact IH.
  - rewrite filter_cons_True by (rewrite E1; reflexivity).
    destruct (has_device "floppy" d) eqn:E2.
    + rewrite filter_cons_False by (rewrite E2; discriminate).
      rewrite (filter_cons_False _ d) by (rewrite E1, E2; discriminate). exact IH.
    + rewrite filter_cons_True by (rewrite E2; reflexivity).
      rewrite (filter_cons_True _ d) by (rewrite E1, E2; reflexivity).
      rewrite IH. reflexivity.
Qed.

(** [X9] On a parameter snapshot whose drives all name their device, and
    whose cdroms and floppies have a path, [_patchConfigForLegacy] returns
    and leaves under ['drives'] the other drives, in their order; under
    ['cdrom'] and ['floppy'] the path of the last such drive, if there is
    one; under ['afterMigrationStatus'] the empty string; and every other
    key as it was. *)
Theorem patchConfigForLegacy_drives s l :
  _machineParams s !! "drives" = Some (VDrives l) ->
  drives_ok l = true ->
  let r := _patchConfigForLegacy s in
  let mp := _machineParams r.2 in
  r.1 = Ok tt /\
  mp !! "drives" = Some (VDrives (modern_drives l)) /\
  mp !! "afterMigrationStatus" = Some (VStr "") /\
  (forall item, item = "cdrom"%string \/ item = "floppy"%string ->
     mp !! item = match legacy_path item l with
                  | Some p => Some (VStr p)
                  | None => _machineParams s !! item
                  end) /\
  (forall k, k ∉ ["drives"; "afterMigrationStatus"; "cdrom"; "floppy"]%string ->
     mp !! k = _machineParams s !! k).
Proof.
  intros Hl Hok r mp. subst mp r.
  unfold _patchConfigForLegacy, bind, get, when, modify.
  rewrite bool_decide_eq_true_2 by (rewrite Hl; eauto).
  unfold bind. rewrite (patch_item_ok "cdrom" l s (or_introl eq_refl) Hl Hok).
  set (l1 := filter (fun d => has_device "cdrom" d = false) l).
  erewrite (patch_item_ok "floppy" l1);
    [|right; reflexivity|apply lookup_insert_eq|apply drives_ok_filter, Hok].
  subst l1. rewrite legacy_path_filter, modern_drives_filter.
  cbn [fst snd _machineParams set_machineParams].
  split; [reflexivity|]. split.
  { rewrite lookup_insert_ne by discriminate. apply lookup_insert_eq. }
  split; [apply lookup_insert_eq|]. split.
  - intros item [-> | ->].
    + rewrite lookup_insert_ne, lookup_insert_ne by discriminate.
      destruct (legacy_path "floppy" l);
        [rewrite lookup_insert_ne by discriminate|];
        (rewrite lookup_insert_ne by discriminate);
        (destruct (legacy_path "cdrom" l); [apply lookup_insert_eq|reflexivity]).
    + rewrite lookup_insert_ne, lookup_insert_ne by discriminate.
      destruct (legacy_path "floppy" l); [apply lookup_insert_eq|].
      rewrite lookup_insert_ne by discriminate.
      destruct (legacy_path "cdrom" l);
        [rewrite lookup_insert_ne by discriminate|]; reflexivity.
  - intros k Hk.
    rewrite !not_elem_of_cons in Hk. destruct Hk as (H1 & H2 & H3 & H4 & _).
    rewrite lookup_insert_ne, lookup_insert_ne by congruence.
    destruct (legacy_path "floppy" l);
      [rewrite lookup_insert_ne by congruence|];
      (rewrite lookup_insert_ne by congruence);
      (destruct (legacy_path "cdrom" l);
       [rewrite lookup_insert_ne by congruence|]; reflexivity).
Qed.

Lemma patchConfigForLegacy_drives_witness :
  let s := set_machineParams (<["drives" := VDrives example_drives]> ∅)
             example_state in
  let mp := _machineParams (_patchConfigForLegacy s).2 in
  (_patchConfigForLegacy s).1 = Ok tt /\
  mp !! "drives" = Some (VDrives (modern_drives example_drives)) /\
  mp !! "afterMigrationStatus" = Some (VStr "") /\
  (forall item, item = "cdrom"%string \/ item = "floppy"%string ->
     mp !! item = match legacy_path item example_drives with
                  | Some p => Some (VStr p)
                  | None => _machineParams s !! item
                  end) /\
  (forall k, k ∉ ["drives"; "afterMigrationStatus"; "cdrom"; "floppy"]%string ->
     mp !! k = _machineParams s !! k).
Proof.
  apply (patchConfigForLegacy_drives
           (set_machineParams (<["drives" := VDrives example_drives]> ∅)
              example_state) example_drives);
    vm_compute; reflexivity.
Defined.

Lemma patch_drives_state item : forall l nd s,
  exists mp,
    (patch_drives item l nd s).2 = set_machineParams mp s /\
    forall k, k <> item -> mp !! k = _machineParams s !! k.
Proof.
  induction l as [|d l IH]; intros nd s; simpl.
  - exists (_machineParams s). split; [symmetry; apply set_machineParams_id|auto].
  - destruct (d !! "device") as [dev|];
      [|exists (_machineParams s); split;
        [symmetry; apply set_machineParams_id|auto]].
    destruct (String.eqb dev item); [|apply IH].
    destruct (d !! "path") as [path|];
      [|exists (_machineParams s); split;
        [symmetry; apply set_machineParams_id|auto]].
    unfold bind, modify.
    destruct (IH nd (set_machineParams (<[item:=VStr path]> (_machineParams s)) s))
      as (mp & Hmp & Hk).
    assert (forall k, k <> item -> mp !! k = _machineParams s !! k) as Hk'.
    { intros k Hne. rewrite (Hk k Hne). simpl. apply lookup_insert_ne. congruence. }
    destruct (patch_drives item l nd _) as [[a|e|] s']; simpl in *;
      exists mp; split; auto.
Qed.

Lemma patch_drives_missing item : forall l nd s,
  Exists (fun d => d !! "device" = None) l ->
  exists e, (patch_drives item l nd s).1 = Raise e.
Proof.
  induction l as [|d l IH]; intros nd s Hex; [inversion Hex|].
  simpl. destruct (d !! "device") as [dev|] eqn:Ed; [|eexists; reflexivity].
  apply Exists_cons in Hex as [Hex|Hex]; [congruence|].
  destruct (String.eqb dev item); [|apply IH, Hex].
  destruct (d !! "path") as [path|]; [|eexists; reflexivity].
  unfold bind, modify.
  destruct (IH nd (set_machineParams (<[item:=VStr path]> (_machineParams s)) s)
              Hex) as [e He].
  destruct (patch_drives item l nd _) as [[a|e'|] s']; simpl in *;
    try discriminate He. eauto.
Qed.

Lemma patch_item_state item s :
  exists mp,
    (patch_item item s).2 = set_machineParams mp s /\
    forall k, k <> item -> k <> "drives"%string ->
      mp !! k = _machineParams s !! k.
Proof.
  unfold patch_item, bind, get.
  destruct (_machineParams s !! "drives") as [v|];
    [|exists (_machineParams s); split;
      [symmetry; apply set_machineParams_id|auto]].
  destruct (iter_drives v) as [l|];
    [|exists (_machineParams s); split;
      [symmetry; apply set_machineParams_id|auto]].
  destruct (patch_drives_state item l [] s) as (mp & Hmp & Hk).
  destruct (patch_drives item l [] s) as [[a|e|] s']; simpl in *; subst s';
    eexists; (split; [reflexivity|]); auto.
  intros k H1 H2. simpl. rewrite lookup_insert_ne by congruence. auto.
Qed.

(** What [_patchConfigForLegacy] touches is [_machineParams], and there
    the four keys it is about; when it returns, ['afterMigrationStatus']
    holds the empty string. *)
Lemma patch_state s :
  exists mp,
    (_patchConfigForLegacy s).2 = set_machineParams mp s /\
    ((_patchConfigForLegacy s).1 = Ok tt ->
     mp !! "afterMigrationStatus" = Some (VStr "")) /\
    (forall k, k ∉ ["drives"; "afterMigrationStatus"; "cdrom"; "floppy"]%string ->
       mp !! k = _machineParams s !! k).
Proof.
  assert (forall k : string,
            k ∉ ["drives"; "afterMigrationStatus"; "cdrom"; "floppy"] ->
            k <> "drives" /\ k <> "afterMigrationStatus" /\ k <> "cdrom" /\
            k <> "floppy")%string as Hkeys.
  { intros k Hk. split_keys Hk. auto. }
  unfold _patchConfigForLegacy, bind, get, when, modify.
  destruct (bool_decide _).
  - unfold bind.
    destruct (patch_item_state "cdrom" s) as (mp1 & H1 & K1).
    destruct (patch_item "cdrom" s) as [[[]|e|] s1]; simpl in *; subst s1;
      [|(exists mp1; split; [reflexivity|split; [discriminate|]];
         intros k Hk; apply Hkeys in Hk; apply K1; tauto) ..].
    destruct (patch_item_state "floppy" (set_machineParams mp1 s))
      as (mp2 & H2 & K2).
    assert (forall k, k ∉ ["drives"; "afterMigrationStatus"; "cdrom"; "floppy"]%string ->
              mp2 !! k = _machineParams s !! k) as K.
    { intros k Hk. apply Hkeys in Hk. rewrite K2 by tauto. simpl.
      apply K1; tauto. }
    destruct (patch_item "floppy" _) as [[[]|e|] s2]; simpl in *; subst s2;
      [|(exists mp2; split; [reflexivity|split; [discriminate|exact K]]) ..].
    eexists. split; [reflexivity|]. split; [intros _; apply lookup_insert_eq|].
    intros k Hk. simpl. rewrite lookup_insert_ne by (apply Hkeys in Hk; intuition congruence).
    apply K, Hk.
  - simpl. eexists. split; [reflexivity|].
    split; [intros _; apply lookup_insert_eq|].
    intros k Hk. rewrite lookup_insert_ne by (apply Hkeys in Hk; intuition congruence).
    reflexivity.
Qed.

(** [X10] Without a ['drives'] key [_patchConfigForLegacy] only writes
    ['afterMigrationStatus'].  With a drive that has no ['device'] key it
    raises, and then ['afterMigrationStatus'] is not written: the key holds
    what it held. *)
Theorem patchConfigForLegacy_edges s :
  (_machineParams s !! "drives" = None ->
   _patchConfigForLegacy s =
   (Ok tt, set_machineParams
             (<["afterMigrationStatus" := VStr ""]> (_machineParams s)) s)) /\
  (forall l,
     _machineParams s !! "drives" = Some (VDrives l) ->
     Exists (fun d => d !! "device" = None) l ->
     (exists e, (_patchConfigForLegacy s).1 = Raise e) /\
     _machineParams (_patchConfigForLegacy s).2 !! "afterMigrationStatus" =
       _machineParams s !! "afterMigrationStatus").
Proof.
  split.
  - intros Hn. unfold _patchConfigForLegacy, bind, get, when, modify.
    rewrite bool_decide_eq_false_2 by (rewrite Hn; intros [? ?]; discriminate).
    reflexivity.
  - intros l Hl Hex. unfold _patchConfigForLegacy, bind, get, when, modify.
    rewrite bool_decide_eq_true_2 by (rewrite Hl; eauto).
    assert (exists e mp, patch_item "cdrom" s = (Raise e, set_machineParams mp s) /\
              mp !! "afterMigrationStatus" =
                _machineParams s !! "afterMigrationStatus") as (e & mp & E & Hk).
    { unfold patch_item, bind, get. rewrite Hl. simpl.
      destruct (patch_drives_missing "cdrom" l [] s Hex) as [e He].
      destruct (patch_drives_state "cdrom" l [] s) as (mp & Hmp & Hk).
      destruct (patch_drives "cdrom" l [] s) as [[a|e'|] s']; simpl in *;
        try discriminate He.
      subst s'. exists e', mp. split; [reflexivity|]. apply Hk. discriminate. }
    unfold bind. rewrite E. simpl. split; [eauto|exact Hk].
Qed.

Lemma lookup_copy_key_ne k k' src (dst : params) :
  k <> k' -> copy_key k src dst !! k' = dst !! k'.
Proof.
  intros Hne. unfold copy_key. destruct (src !! k); [|reflexivity].
  apply lookup_insert_ne. exact Hne.
Qed.

Lemma lookup_copy_key k src (dst : params) v :
  src !! k = Some v -> copy_key k src dst !! k = Some v.
Proof. intros H. unfold copy_key. rewrite H. apply lookup_insert_eq. Qed.

(** [X11] When [_setupRemoteMachineParams] returns, the snapshot has neither
    ['_migrationParams'] nor ['pid']; it holds the domain XML, the elapsed
    time offset and an empty ['afterMigrationStatus']; outside file mode
    ['migrationDest'] is ['libvirt']; the guest's user name, addresses and
    host name are those of [getStats()] when it reports them; and every
    key the method does not name is the one of [vm.status()], or failing
    that the one the snapshot had. *)
Theorem setupRemoteMachineParams_snapshot env rq s :
  let r := _setupRemoteMachineParams env rq s in
  let mp := _machineParams r.2 in
  r.1 = Ok tt ->
  mp !! "_migrationParams" = None /\
  mp !! "pid" = None /\
  mp !! "_srcDomXML" = Some (VStr (XMLDesc env)) /\
  mp !! "elapsedTimeOffset" =
    Some (VFloat (time_params env - vm_startTime env)%Q) /\
  mp !! "afterMigrationStatus" = Some (VStr "") /\
  (String.eqb (_mode rq) "file" = false ->
   mp !! "migrationDest" = Some (VStr "libvirt")) /\
  (forall k v, k ∈ ["username"; "guestIPs"; "guestFQDN"]%string ->
     vm_getStats env !! k = Some v -> mp !! k = Some v) /\
  (forall k,
     k ∉ ["drives"; "afterMigrationStatus"; "cdrom"; "floppy";
          "elapsedTimeOffset"; "username"; "guestIPs"; "guestFQDN";
          "_migrationParams"; "pid"; "migrationDest"; "_srcDomXML"]%string ->
     mp !! k = (vm_status env ∪ _machineParams s) !! k).
Proof.
  intros r mp. subst mp r.
  unfold _setupRemoteMachineParams, bind, call, callE, modify.
  destruct (raises env S_vm_status); [discriminate|].
  cbn [fst snd].
  set (s1 := set_machineParams _ (log _ s)).
  destruct (patch_state s1) as (mp1 & Hs & Hams & Hother).
  destruct (_patchConfigForLegacy s1) as [[[]|e|] s2]; [|discriminate ..].
  cbn [fst snd] in Hs, Hams |- *. subst s2. specialize (Hams eq_refl).
  cbn [_machineParams set_machineParams log].
  destruct (raises env S_vm_getStats); [discriminate|].
  cbn [fst snd _machineParams set_machineParams log].
  set (mp2 := delete "pid" _).
  assert (H2 : forall k : string,
             k ∉ ["username"; "guestIPs"; "guestFQDN"; "_migrationParams";
                  "pid"; "elapsedTimeOffset"]%string ->
             mp2 !! k = mp1 !! k).
  { intros k Hk. split_keys Hk.
    subst mp2. rewrite !lookup_delete_ne by congruence.
    rewrite !lookup_copy_key_ne by congruence.
    apply lookup_insert_ne. congruence. }
  assert (Hguest : forall k v,
             k ∈ ["username"; "guestIPs"; "guestFQDN"]%string ->
             vm_getStats env !! k = Some v -> mp2 !! k = Some v).
  { intros k v Hk Hv. subst mp2.
    apply list_elem_of_In in Hk. simpl in Hk.
    destruct Hk as [<-|[<-|[<-|[]]]]; rewrite !lookup_delete_ne by discriminate.
    - rewrite !lookup_copy_key_ne by discriminate.
      apply lookup_copy_key, Hv.
    - rewrite lookup_copy_key_ne by discriminate.
      apply lookup_copy_key, Hv.
    - apply lookup_copy_key, Hv. }
  assert (Hguest' : forall k : string,
             k ∈ ["username"; "guestIPs"; "guestFQDN"]%string ->
             k <> "_srcDomXML"%string /\ k <> "migrationDest"%string).
  { intros k Hk. apply list_elem_of_In in Hk. simpl in Hk.
    destruct Hk as [<-|[<-|[<-|[]]]]; split; discriminate. }
  assert (Hpid : mp2 !! "pid" = None) by (subst mp2; apply lookup_delete_eq).
  assert (Hmig : mp2 !! "_migrationParams" = None).
  { subst mp2. rewrite lookup_delete_ne by discriminate. apply lookup_delete_eq. }
  assert (Hoff : mp2 !! "elapsedTimeOffset" =
                 Some (VFloat (time_params env - vm_startTime env)%Q)).
  { subst mp2. rewrite !lookup_delete_ne by discriminate.
    rewrite !lookup_copy_key_ne by discriminate. apply lookup_insert_eq. }
  clearbody mp2.
  destruct (String.eqb (_mode rq) "file") eqn:Emode;
    cbn [negb when bind modify ret fst snd _machineParams set_machineParams log];
    (destruct (raises env S_XMLDesc_params); [discriminate|]);
    cbn [fst snd _machineParams set_machineParams log]; intros _.
  - repeat split.
    + rewrite lookup_insert_ne by discriminate. exact Hmig.
    + rewrite lookup_insert_ne by discriminate. exact Hpid.
    + apply lookup_insert_eq.
    + rewrite lookup_insert_ne by discriminate. exact Hoff.
    + rewrite lookup_insert_ne by discriminate.
      rewrite H2 by (not_key; discriminate). exact Hams.
    + discriminate.
    + intros k v Hk Hv. destruct (Hguest' k Hk).
      rewrite lookup_insert_ne by congruence. eauto.
    + intros k Hk. split_keys Hk. rewrite lookup_insert_ne by congruence.
      rewrite H2 by not_key. rewrite Hother by not_key.
      reflexivity.
  - repeat split.
    + rewrite !lookup_insert_ne by discriminate. exact Hmig.
    + rewrite !lookup_insert_ne by discriminate. exact Hpid.
    + apply lookup_insert_eq.
    + rewrite !lookup_insert_ne by discriminate. exact Hoff.
    + rewrite !lookup_insert_ne by discriminate.
      rewrite H2 by (not_key; discriminate). exact Hams.
    + intros _. rewrite lookup_insert_ne by discriminate. apply lookup_insert_eq.
    + intros k v Hk Hv. destruct (Hguest' k Hk).
      rewrite !lookup_insert_ne by congruence. eauto.
    + intros k Hk. split_keys Hk. rewrite !lookup_insert_ne by congruence.
      rewrite H2 by not_key. rewrite Hother by not_key.
      reflexivity.
Qed.

Lemma setupRemoteMachineParams_snapshot_witness :
  let env := example_env 1 no_raise no_stop in
  let mp := _machineParams
              (_setupRemoteMachineParams env remote_request example_state).2 in
  mp !! "_migrationParams" = None /\
  mp !! "pid" = None /\
  mp !! "_srcDomXML" = Some (VStr (XMLDesc env)) /\
  mp !! "elapsedTimeOffset" =
    Some (VFloat (time_params env - vm_startTime env)%Q) /\
  mp !! "afterMigrationStatus" = Some (VStr "") /\
  (String.eqb (_mode remote_request) "file" = false ->
   mp !! "migrationDest" = Some (VStr "libvirt")) /\
  (forall k v, k ∈ ["username"; "guestIPs"; "guestFQDN"]%string ->
     vm_getStats env !! k = Some v -> mp !! k = Some v) /\
  (forall k,
     k ∉ ["drives"; "afterMigrationStatus"; "cdrom"; "floppy";
          "elapsedTimeOffset"; "username"; "guestIPs"; "guestFQDN";
          "_migrationParams"; "pid"; "migrationDest"; "_srcDomXML"]%string ->
     mp !! k = (vm_status env ∪ _machineParams example_state) !! k).
Proof.
  apply (setupRemoteMachineParams_snapshot (example_env 1 no_raise no_stop)
           remote_request example_state).
  vm_compute. reflexivity.
Defined.

(** ** The driver: the preparation of the guest *)

Lemma polls_app l1 l2 : polls (l1 ++ l2) = polls l1 ++ polls l2.
Proof. apply filter_app. Qed.

Lemma wait_for_lock_polls env n : forall i s,
  exists new,
    trace (wait_for_lock env n i s).2 = trace s ++ new /\
    polls new = new /\
    (length new <= n)%nat /\
    (forall j, (i <= j)%nat -> locked_at env j = true ->
       (length new <= S (j - i))%nat).
Proof.
  induction n as [|n IH]; intros i s; simpl.
  - exists []. rewrite app_nil_r. repeat split; auto; simpl; try lia.
  - unfold bind, call, callE.
    destruct (raises env (S_getStats_session i)) as [e|] eqn:Er; simpl.
    { exists [(Call (S_getStats_session i), Some e)].
      repeat split; auto; simpl; try lia. }
    destruct (session env i) as [st|] eqn:Es; simpl.
    + destruct (String.eqb st "Locked" || String.eqb st "LoggedOff") eqn:El; simpl.
      * exists [(Call (S_getStats_session i), None)].
        repeat split; auto; simpl; try lia.
      * destruct (IH (S i) (log (Call (S_getStats_session i), None) s))
          as (new & Ht & Hp & Hn & Hj).
        exists ((Call (S_getStats_session i), None) :: new).
        split; [rewrite Ht; simpl; rewrite <- app_assoc; reflexivity|].
        split; [change (?x :: new) with ([x] ++ new); rewrite polls_app, Hp;
                reflexivity|].
        split; [simpl; lia|].
        intros j Hij Hlk. simpl.
        destruct (Nat.eq_dec j i) as [->|Hne].
        { unfold locked_at in Hlk. rewrite Es, El in Hlk. discriminate. }
        specialize (Hj j ltac:(lia) Hlk). lia.
    + exists [(Call (S_getStats_session i), None)].
      repeat split; auto; simpl; try lia.
Qed.

(** [X12] In file mode [_prepareGuest] polls the guest's session at most 30
    times, and not at all when the agent is unresponsive; it polls no more
    once the session is reported locked or logged off; [vm.pause] is the
    last thing it does when it returns.  In any other mode it calls
    nothing and only sets [lastStatus]. *)
Theorem prepareGuest_polls env rq s :
  let r := _prepareGuest env rq s in
  if String.eqb (_mode rq) "file" then
    exists new,
      trace r.2 = trace s ++ new /\
      (length (polls new) <= if isResponsive env then 30 else 0)%nat /\
      (forall j, locked_at env j = true -> (length (polls new) <= S j)%nat) /\
      (r.1 = Ok tt -> last new = Some (Call S_vm_pause, None))
  else r = (Ok tt, set_lastStatus "Migration Source" s).
Proof.
  unfold _prepareGuest. destruct (String.eqb (_mode rq) "file"); [|reflexivity].
  cbv zeta. unfold bind, call, callE.
  destruct (raises env S_isResponsive) as [e|]; simpl.
  { eexists [_]. repeat split; auto; simpl; try lia. discriminate. }
  destruct (raises env S_desktopLock) as [e|]; simpl.
  { eexists [_; _]. split; [rewrite <- app_assoc; reflexivity|].
    repeat split; auto; simpl; try lia. discriminate. }
  set (s2 := log _ (log _ s)).
  destruct (wait_for_lock_polls env (if isResponsive env then 30 else 0)%nat
              0%nat s2) as (new & Ht & Hp & Hn & Hj).
  destruct (wait_for_lock env _ 0%nat s2) as [[[]|e|] s3]; simpl in *.
  - exists ([(Call S_isResponsive, None); (Call S_desktopLock, None)] ++ new ++
            [(Call S_vm_pause, raises env S_vm_pause)]).
    split.
    { destruct (raises env S_vm_pause); simpl; rewrite Ht; subst s2; simpl;
        rewrite <- !app_assoc; reflexivity. }
    rewrite !polls_app, Hp. simpl. rewrite length_app. simpl.
    split; [lia|]. split.
    { intros j Hlk. specialize (Hj j ltac:(lia) Hlk). lia. }
    destruct (raises env S_vm_pause); [intros H; simpl in H; discriminate|].
    intros _. rewrite !app_comm_cons. apply last_snoc.
  - exists ([(Call S_isResponsive, None); (Call S_desktopLock, None)] ++ new).
    split; [rewrite Ht; subst s2; simpl; rewrite <- !app_assoc; reflexivity|].
    rewrite !polls_app, Hp. simpl.
    split; [lia|]. split.
    { intros j Hlk. specialize (Hj j ltac:(lia) Hlk). lia. }
    discriminate.
  - exists ([(Call S_isResponsive, None); (Call S_desktopLock, None)] ++ new).
    split; [rewrite Ht; subst s2; simpl; rewrite <- !app_assoc; reflexivity|].
    rewrite !polls_app, Hp. simpl.
    split; [lia|]. split.
    { intros j Hlk. specialize (Hj j ltac:(lia) Hlk). lia. }
    discriminate.
Qed.

(** ** The driver: recovery and [stop()] *)

Lemma recover_result env rq msg s :
  (_recover env rq msg s).1 =
    if String.eqb (_mode rq) "file" || negb (String.eqb (_method rq) "online")
    then match raises env S_vm_cont with
         | Some e => Raise e
         | None => Ok tt
         end
    else Ok tt.
Proof.
  unfold _recover, bind, get, when, try_except, call, callE, modify, ret, raise.
  simpl. destruct (code (read_status s) =? 0); simpl;
    (destruct (String.eqb (_mode rq) "file"); simpl;
     [|destruct (destServer s); simpl;
       [destruct (raises env S_destroy); simpl|];
       destruct (String.eqb (_method rq) "online"); simpl]);
    destruct (raises env S_vm_cont); reflexivity.
Qed.

Lemma recover_state env rq msg s :
  let s' := (_recover env rq msg s).2 in
  heap s' = heap s /\
  status s' = (if code (read_status s) =? 0 then ErrCode E_migrateErr
               else status s) /\
  ((_recover env rq msg s).1 = Ok tt -> lastStatus s' = "Up"%string) /\
  trace s' = trace s ++
    (if negb (String.eqb (_mode rq) "file") && destServer s
     then [(Call S_destroy, raises env S_destroy)] else []) ++
    (if String.eqb (_mode rq) "file" || negb (String.eqb (_method rq) "online")
     then [(Call S_vm_cont, raises env S_vm_cont)] else []).
Proof.
  unfold _recover, bind, get, when, try_except, call, callE, modify, ret, raise.
  simpl. destruct (code (read_status s) =? 0); simpl;
    (destruct (String.eqb (_mode rq) "file"); simpl;
     [|destruct (destServer s); simpl;
       [destruct (raises env S_destroy); simpl|];
       destruct (String.eqb (_method rq) "online"); simpl]);
    destruct (raises env S_vm_cont); simpl;
    rewrite ?app_nil_r, <- ?app_assoc; repeat split; auto; discriminate.
Qed.

(** [X13] [_recover] swallows a failure to destroy the VM on the peer, and
    lets out only what [vm.cont()] raises, which it calls for a save to
    file or a migration that is not online.  It writes no dictionary: a
    status whose code is 0 is replaced by [errCode['migrateErr']], any other
    stays, so that over a table whose [migrateErr] code is not 0 the status
    code is not 0 afterwards.  When it returns, [lastStatus] is ['Up']. *)
Theorem recover_outcome env rq msg s :
  let r := _recover env rq msg s in
  let cont := String.eqb (_mode rq) "file" ||
              negb (String.eqb (_method rq) "online") in
  r.1 = (if cont then match raises env S_vm_cont with
                      | Some e => Raise e
                      | None => Ok tt
                      end
         else Ok tt) /\
  heap r.2 = heap s /\
  status r.2 = (if code (read_status s) =? 0 then ErrCode E_migrateErr
                else status s) /\
  (code (heap s (ErrCode E_migrateErr)) <> 0 -> code (read_status r.2) <> 0) /\
  (r.1 = Ok tt -> lastStatus r.2 = "Up"%string) /\
  trace r.2 = trace s ++
    (if negb (String.eqb (_mode rq) "file") && destServer s
     then [(Call S_destroy, raises env S_destroy)] else []) ++
    (if cont then [(Call S_vm_cont, raises env S_vm_cont)] else []).
Proof.
  intros r cont. subst r cont.
  destruct (recover_state env rq msg s) as (Hh & Hs & Hl & Ht).
  split; [apply recover_result|]. split; [exact Hh|]. split; [exact Hs|].
  split; [|split; assumption].
  intros Hne. unfold read_status in *. rewrite Hh, Hs.
  destruct (code (heap s (status s)) =? 0) eqn:E; [exact Hne|].
  apply Z.eqb_neq in E. exact E.
Qed.

(** [X14] [stop()] asks the hypervisor to abort the job exactly once and
    leaves the cancellation flag set, whatever [abortJob] does.  It
    returns when [abortJob] does; an exception that is not a
    [libvirtError] always comes out of it; a [libvirtError] comes out only
    once [_preparingMigrationEvt] is false. *)
Theorem stop_outcomes env p s :
  let r := stop env p s in
  r.2 = log (AbortJob, raises env (S_abortJob p))
            (set_migrationCanceledEvt true s) /\
  r.1 = match raises env (S_abortJob p) with
        | None => Ok tt
        | Some (Exception msg) => Raise (Exception msg)
        | Some (LibvirtError c) =>
            if _preparingMigrationEvt s then Ok tt else Raise (LibvirtError c)
        end.
Proof.
  unfold stop, try_except_libvirt, bind, modify, callE, get, raise, ret.
  destruct (raises env (S_abortJob p)) as [[c|msg]|]; simpl; auto.
  destruct (_preparingMigrationEvt s); auto.
Qed.

(** [X15] A save to file that fails once the hooks have run, be it in
    [vmStats.pause()], in the volume calls or in [save], ends with a call
    to [vmStats.cont()]; what comes out is the exception of that call when
    it raises, and otherwise one raised by the calls before it. *)
Theorem hibernate_failure_resumes env rq s e :
  let r := _startUnderlyingMigration_file env rq s in
  r.1 = Raise e ->
  raises env S_XMLDesc_hook = None ->
  raises env S_before_vm_hibernate = None ->
  last (trace r.2) = Some (Call S_vmStats_cont, raises env S_vmStats_cont) /\
  match raises env S_vmStats_cont with
  | Some e' => e = e'
  | None =>
      raises env S_vmStats_pause = Some e \/
      raises env S_prepareVolumePath_dst = Some e \/
      raises env S_save = Some e \/
      raises env S_teardownVolumePath_dst = Some e
  end.
Proof.
  cbv zeta. intros Hr H1 H2. revert Hr.
  unfold _startUnderlyingMigration_file, call, callE, bind, try_except,
    try_finally, raise.
  rewrite H1. simpl. rewrite H2. simpl.
  all: on_site S_vmStats_pause.
  all: on_site S_prepareVolumePath_dst.
  all: on_site S_save.
  all: on_site S_teardownVolumePath_dst.
  all: on_site S_vmStats_cont.
  all: intros H; simpl in H;
    first [ discriminate H
          | injection H as <-; split; [apply last_snoc|auto 10] ].
Qed.

Lemma hibernate_failure_resumes_witness :
  let env := example_env 1 save_fails no_stop in
  let r := _startUnderlyingMigration_file env file_request example_state in
  last (trace r.2) = Some (Call S_vmStats_cont, raises env S_vmStats_cont) /\
  match raises env S_vmStats_cont with
  | Some e' => Exception "No space left on device" = e'
  | None =>
      raises env S_vmStats_pause = Some (Exception "No space left on device") \/
      raises env S_prepareVolumePath_dst =
        Some (Exception "No space left on device") \/
      raises env S_save = Some (Exception "No space left on device") \/
      raises env S_teardownVolumePath_dst =
        Some (Exception "No space left on device")
  end.
Proof.
  apply (hibernate_failure_resumes
           (example_env 1 save_fails no_stop)
           file_request example_state (Exception "No space left on device"));
    reflexivity.
Defined.

(** ** The driver: threads of a remote transfer *)

Global Instance threads_same_preorder : PreOrder threads_same.
Proof.
  split.
  - intros s. split; reflexivity.
  - intros s1 s2 s3 [A1 B1] [A2 B2]. split; [etransitivity; eauto|congruence].
Qed.

Ltac threads_side :=
  unfold threads_same; simpl;
  split; [first [ reflexivity
                | apply appends_log; split; discriminate
                | apply appends_same; reflexivity ]
         | reflexivity].

Lemma thread_cancelled_app_l l evs :
  Forall quiet_thread l -> thread_cancelled evs -> thread_cancelled (l ++ evs).
Proof.
  intros Hl [H | (pre & mid & -> & Hpre & Hmid)].
  - left. apply Forall_app. auto.
  - right. exists (l ++ pre), mid. rewrite <- app_assoc.
    repeat split; auto. apply Forall_app. auto.
Qed.

Lemma tidy_clean {A} (m : M A) : respects threads_same m -> tidy m.
Proof.
  intros H s Hs. destruct (H s) as [_ [(evs & He & Hf) Hm]].
  exists evs. split; [exact He|]. split; [left; exact Hf|].
  intros mon Hmon. congruence.
Qed.

Lemma tidy_bind {A B} (m : M A) (k : A -> M B) :
  respects threads_same m -> (forall a, tidy (k a)) -> tidy (bind m k).
Proof.
  intros Hm Hk s Hs. unfold bind.
  destruct (Hm s) as [_ [(evs & He & Hf) Hmon]].
  destruct (m s) as [[a|e|] s1]; simpl in *;
    [|(exists evs; split; [exact He|]; split; [left; exact Hf|];
       intros mon Hmon'; congruence) ..].
  destruct (Hk a s1) as (evs2 & He2 & H2 & H3); [congruence|].
  exists (evs ++ evs2). rewrite He2, He, app_assoc. split; [reflexivity|].
  split; [apply thread_cancelled_app_l; assumption|exact H3].
Qed.

Section Tidy.

Context (env : Env) (rq : Request).
Hypothesis Hstart :
  (monitor_interval env =? 0) = true \/ raises env S_MonitorThread_start = None.

Lemma migrateToURI2_threads duri muri flags bw :
  respects threads_same (migrateToURI2 env duri muri flags bw).
Proof.
  intros s. unfold migrateToURI2.
  set (s1 := log _ s).
  assert (Hstop : respects threads_same (stop env DuringMigrate)).
  { unfold stop. respects_auto threads_side. }
  destruct (respects_concurrent_stop _ env DuringMigrate Hstop s1) as [_ H].
  assert (threads_same s (concurrent_stop env DuringMigrate s1).2).
  { etransitivity; [|exact H]. subst s1. threads_side. }
  destruct (raises env S_migrateToURI2); simpl; split; auto; discriminate.
Qed.

Lemma migrate_try_threads duri muri :
  respects threads_same (migrate_try env rq duri muri).
Proof.
  unfold migrate_try.
  repeat first [ apply migrateToURI2_threads
               | lazymatch goal with
                 | |- respects _ (stop _ _) => unfold stop
                 end
               | respects_step threads_side ].
Qed.

(** From the creation of the downtime thread to the [finally] clause. *)
Lemma tidy_core t duri muri :
  tidy (call env S_DowntimeThread ;;
        when (negb (monitor_interval env =? 0))
             (modify (set_monitorThread (Some (Monitor.__init__ t))) ;;
              call env S_MonitorThread_start) ;;
        try_finally (migrate_try env rq duri muri) (migrate_finally env)).
Proof.
  intros s Hs. unfold monitor_stopped.
  unfold try_finally, migrate_finally, when, bind, modify, call, callE, get,
    raise, ret.
  destruct (raises env S_DowntimeThread) as [e|]; simpl.
  { exists [(Call S_DowntimeThread, Some e)]. split; [reflexivity|].
    split; [left; repeat constructor; discriminate|].
    intros m Hm. congruence. }
  destruct (monitor_interval env =? 0) eqn:Ei; simpl.
  - destruct (migrate_try_threads duri muri (log (Call S_DowntimeThread, None) s))
      as [Hnb [(evs & He & Hf) Hm]].
    destruct (migrate_try env rq duri muri _) as [[[]|e|] s3]; simpl in *;
      [| |congruence];
      (exists ([(Call S_DowntimeThread, None)] ++ evs ++
               [(CancelDowntimeThread, None)]);
       split; [rewrite He, <- !app_assoc; reflexivity|];
       split; [right; exists [], evs; repeat split; auto|];
       intros m Hm'; simpl in Hm'; congruence).
  - destruct Hstart as [H|H]; [discriminate|]. rewrite H. simpl.
    set (s2 := log _ (set_monitorThread _ (log _ s))).
    destruct (migrate_try_threads duri muri s2) as [Hnb [(evs & He & Hf) Hm]].
    destruct (migrate_try env rq duri muri s2) as [[[]|e|] s3]; simpl in *;
      [| |congruence];
      rewrite Hm; simpl;
      (exists ([(Call S_DowntimeThread, None)] ++
               ((Call S_MonitorThread_start, None) :: evs) ++
               [(CancelDowntimeThread, None)]);
       split; [rewrite He; simpl; rewrite <- !app_assoc; reflexivity|];
       split; [right; eexists [], _; repeat split; auto;
               constructor; [split; discriminate|exact Hf]|];
       intros m [= <-]; reflexivity).
Qed.

Lemma device_hooks_threads n :
  forall i, respects threads_same (device_hooks env n i).
Proof.
  induction n as [|n IH]; intros i; simpl;
    repeat first [ apply IH | respects_step threads_side ].
Qed.

Lemma tidy_remote t : tidy (_startUnderlyingMigration_remote env rq t).
Proof.
  unfold _startUnderlyingMigration_remote.
  do 5 (apply tidy_bind;
        [repeat first [ apply device_hooks_threads
                      | respects_step threads_side ]
        |intros _]).
  cbv zeta. destruct (negb _).
  { apply tidy_clean. respects_more threads_side. }
  apply tidy_bind; [respects_more threads_side|intros s0].
  destruct (remoteHost s0); [|apply tidy_clean; respects_more threads_side].
  destruct (conf_dstqemu s0); [|apply tidy_clean; respects_more threads_side].
  apply tidy_core.
Qed.

End Tidy.

(** [X16] Unless the start of the monitor thread raises, a remote transfer
    entered without a monitor leaves no thread behind: a downtime thread
    that was created is cancelled at the end, whatever happened in
    between, and a monitor that was created has been told to stop. *)
Theorem threads_cleaned_up env rq t s :
  (monitor_interval env =? 0) = true \/ raises env S_MonitorThread_start = None ->
  _monitorThread s = None ->
  let r := _startUnderlyingMigration_remote env rq t s in
  exists evs,
    trace r.2 = trace s ++ evs /\ thread_cancelled evs /\ monitor_stopped r.2.
Proof. intros Hstart Hs. apply (tidy_remote env rq Hstart t s Hs). Qed.

Lemma threads_cleaned_up_witness :
  let s0 := set_migrationParams remote_request
              (run_setup cancelled_env remote_request example_state).2 in
  let r := _startUnderlyingMigration_remote cancelled_env remote_request 100%Q
             s0 in
  (exists evs,
     trace r.2 = trace s0 ++ evs /\
     thread_cancelled evs /\ monitor_stopped r.2) /\
  r.1 = Raise (LibvirtError VIR_ERR_OPERATION_ABORTED) /\
  trace r.2 =
    trace s0 ++
    [(Call S_customDevices, None); (Call S_XMLDesc_hook, None);
     (Call S_before_vm_migrate_source, None); (Call S_migrationCreate, None);
     (Call S_DowntimeThread, None); (Call S_MonitorThread_start, None);
     (MigrateToURI2 "qemu+tcp://dst.example/system" "tcp://dst.example" 3 32,
      Some (LibvirtError VIR_ERR_OPERATION_ABORTED));
     (AbortJob, Some (LibvirtError 55)); (CancelDowntimeThread, None)] /\
  _monitorThread r.2 = Some (Monitor.stop (Monitor.__init__ 100%Q)).
Proof.
  split.
  - apply (threads_cleaned_up cancelled_env remote_request 100%Q
             (set_migrationParams remote_request
                (run_setup cancelled_env remote_request example_state).2));
      [right|]; reflexivity.
  - vm_compute. repeat split; reflexivity.
Defined.

(** ** The driver: how a run ends *)

Global Instance migrateErr_kept_preorder : PreOrder migrateErr_kept.
Proof.
  split; unfold migrateErr_kept.
  - intros s H. auto.
  - intros s1 s2 s3 H12 H23 H. destruct (H12 H) as [H2 E2].
    destruct (H23 H2) as [H3 E3]. split; [auto|congruence].
Qed.

Ltac kept_side :=
  unfold migrateErr_kept, write_status, adopt, set_migrationParams,
    del_migrationParams; simpl; intros ?;
  split; [first [assumption | discriminate]|];
  first [reflexivity | apply heap_update_other; congruence].

Section Kept.

Context (env : Env) (rq : Request).

Lemma setup_kept : respects migrateErr_kept (run_setup env rq).
Proof.
  unfold run_setup, _setupVdsConnection, _setupRemoteMachineParams,
    _patchConfigForLegacy, patch_item, _prepareGuest.
  respects_more kept_side.
Qed.

Lemma guarded_kept t : respects migrateErr_kept (run_guarded env rq t).
Proof.
  unfold run_guarded, run_handler, run_body, run_transfer,
    _startUnderlyingMigration,
    _startUnderlyingMigration_file, _startUnderlyingMigration_remote,
    migrate_try, migrate_finally, _finishSuccessfully.
  respects_more kept_side.
Qed.

End Kept.

Lemma bind_ok {A B} (m : M A) (k : A -> M B) s b s' :
  bind m k s = (Ok b, s') ->
  exists a s1, m s = (Ok a, s1) /\ k a s1 = (Ok b, s').
Proof.
  unfold bind. destruct (m s) as [[a|e|] s1]; try discriminate. eauto.
Qed.

(** The [finally] clause of [run] never blocks and touches neither the
    status nor the dictionaries. *)
Lemma finally_status s :
  (run_finally s).1 <> Block /\
  status (run_finally s).2 = status s /\
  heap (run_finally s).2 = heap s /\
  lastStatus (run_finally s).2 = lastStatus s.
Proof.
  unfold run_finally, bind, get, when, modify, release, ret.
  destruct (bool_decide _); simpl;
    destruct (sem_bound s <=? sem_value s); simpl; repeat split; discriminate.
Qed.

(** When [_finishSuccessfully] returns, the dictionary [self.status]
    refers to says so. *)
Lemma finish_ok env rq s s' :
  _finishSuccessfully env rq s = (Ok tt, s') ->
  finished_successfully s' /\ progress (read_status s') = Some 100 /\
  lastStatus s' = lastStatus s.
Proof.
  unfold _finishSuccessfully, call, callE, bind, try_finally, modify, get, ret.
  destruct (String.eqb (_mode rq) "file"); simpl.
  all: on_site S_prepareVolumePath_dstparams.
  all: on_site S_pickle_dump.
  all: on_site S_teardownVolumePath_dstparams.
  all: on_site S_setDownStatus.
  all: intros [= <-]; unfold finished_successfully;
    rewrite !read_write_status; simpl;
    unfold heap_update; rewrite Loc_eqb_refl; auto.
Qed.

Lemma guarded_ok env rq t s s' :
  run_guarded env rq t s = (Ok tt, s') ->
  finished_successfully s' /\ progress (read_status s') = Some 100.
Proof.
  unfold run_guarded, try_except_libvirt. intros H.
  assert (Hb : run_body env rq t s = (Ok tt, s')).
  { destruct (run_body env rq t s) as [[[]|[c|msg]|] sB]; try discriminate;
      auto.
    destruct (run_handler_spec (LibvirtError c) sB) as [Hr _].
    rewrite H in Hr. discriminate. }
  clear H. unfold run_body in Hb.
  apply bind_ok in Hb as (? & ? & _ & Hb).
  apply bind_ok in Hb as (? & ? & _ & Hb).
  apply bind_ok in Hb as (? & ? & _ & Hb).
  apply bind_ok in Hb as (? & ? & _ & Hb).
  unfold run_transfer in Hb.
  apply bind_ok in Hb as (? & ? & _ & Hb).
  apply bind_ok in Hb as ([] & ? & _ & Hb).
  apply finish_ok in Hb. tauto.
Qed.

Lemma run_finally_noblock s r s' : run_finally s = (r, s') -> r <> Block.
Proof. intros H. pose proof (finally_status s) as [Hn _]. rewrite H in Hn. auto. Qed.

(** [X17] [run] lets out no exception but one of [vm.cont()], called by
    [_recover] for a save to file or a migration that is not online; and
    it blocks exactly when the preparation returns and no slot is free. *)
Theorem run_outcome env rq s :
  (forall e, (run env rq s).1 = Raise e ->
     raises env S_vm_cont = Some e /\ recovers rq = true) /\
  ((run env rq s).1 = Block <->
   (run_setup env rq s).1 = Ok tt /\ sem_value s <= 0).
Proof.
  assert (Hrec : forall msg s0 e, (_recover env rq msg s0).1 = Raise e ->
            raises env S_vm_cont = Some e /\ recovers rq = true).
  { intros msg s0 e. rewrite recover_result. unfold recovers.
    destruct (_ || _); [|discriminate].
    destruct (raises env S_vm_cont); [|discriminate]. intros [= ->]. auto. }
  assert (Hnb : forall msg s0, (_recover env rq msg s0).1 <> Block).
  { intros msg s0. rewrite recover_result.
    destruct (_ || _); [|discriminate].
    destruct (raises env S_vm_cont); discriminate. }
  rewrite run_unfold.
  destruct (setup_benign env rq s) as [Hnb0 (_ & [Hv1 _] & _)].
  destruct (run_setup env rq s) as [[[]|e0|] s1]; simpl in Hnb0, Hv1;
    [| |congruence].
  - rewrite Hv1. destruct (0 <? sem_value s) eqn:Epos.
    + apply Z.ltb_lt in Epos.
      destruct (guarded_log env rq (acquired s1)) as (Hnb3 & _).
      destruct (run_guarded env rq (time_start env) (acquired s1)) as [r3 s3].
      simpl in Hnb3.
      destruct (run_finally s3) as [r4 s4] eqn:E4.
      pose proof (run_finally_noblock _ _ _ E4) as Hnb4.
      destruct r3 as [[]|e3|]; [| |congruence];
        (destruct r4 as [[]|e4|]; [| |congruence]); simpl; split;
        try (intros e; apply Hrec);
        try (intros e He; discriminate He);
        (split; [intros Hb; first [discriminate Hb | apply Hnb in Hb; tauto]
                |intros [_ Hle]; lia]).
    + apply Z.ltb_ge in Epos. simpl. split; [intros e He; discriminate He|].
      split; auto.
  - split; [intros e; apply Hrec|].
    split; [intros Hb; apply Hnb in Hb; tauto|intros [Hd _]; discriminate Hd].
Qed.

(** [X18] A run that started with its own status dictionary, over an error
    table whose [migrateErr] entry has a non-zero code, ends in one of two
    ways when it ends: it returns with the status message of a success
    and progress 100, having gone through [_finishSuccessfully]; or it
    has gone through [_recover], the status code is not zero, and
    [lastStatus] is ['Up'] unless [vm.cont()] raised. *)
Theorem run_final_status env rq s :
  status s <> ErrCode E_migrateErr ->
  code (heap s (ErrCode E_migrateErr)) <> 0 ->
  let r := run env rq s in
  match r.1 with
  | Ok _ =>
      (finished_successfully r.2 /\ progress (read_status r.2) = Some 100) \/
      (code (read_status r.2) <> 0 /\ lastStatus r.2 = "Up"%string)
  | Raise _ => code (read_status r.2) <> 0
  | Block => True
  end.
Proof.
  intros Hst Hcode r. subst r.
  assert (Hrec : forall msg s0,
            status s0 <> ErrCode E_migrateErr ->
            heap s0 (ErrCode E_migrateErr) = heap s (ErrCode E_migrateErr) ->
            match (_recover env rq msg s0).1 with
            | Ok _ =>
                (finished_successfully (_recover env rq msg s0).2 /\
                 progress (read_status (_recover env rq msg s0).2) = Some 100) \/
                (code (read_status (_recover env rq msg s0).2) <> 0 /\
                 lastStatus (_recover env rq msg s0).2 = "Up"%string)
            | Raise _ => code (read_status (_recover env rq msg s0).2) <> 0
            | Block => True
            end).
  { intros msg s0 H0 E0.
    destruct (recover_state env rq msg s0) as (Hh & Hs & Hl & _).
    assert (code (read_status (_recover env rq msg s0).2) <> 0) as Hne.
    { unfold read_status in *. rewrite Hh, Hs.
      destruct (code (heap s0 (status s0)) =? 0) eqn:E;
        [rewrite E0; exact Hcode|apply Z.eqb_neq in E; exact E]. }
    destruct ((_recover env rq msg s0).1) as [[]|e|]; auto. }
  rewrite run_unfold.
  destruct (setup_kept env rq s) as [_ K1]. specialize (K1 Hst).
  destruct (run_setup env rq s) as [[[]|e0|] s1]; simpl in K1;
    destruct K1 as [Hst1 Hh1]; [| |exact I].
  - destruct (0 <? sem_value s1); [|exact I].
    destruct (guarded_kept env rq (time_start env) (acquired s1)) as [_ K3].
    specialize (K3 Hst1).
    pose proof (guarded_ok env rq (time_start env) (acquired s1)) as Hok.
    destruct (run_guarded env rq (time_start env) (acquired s1)) as [r3 s3].
    simpl in K3. destruct K3 as [Hst3 Hh3].
    destruct (finally_status s3) as (_ & Hs4 & Hh4 & _).
    destruct (run_finally s3) as [r4 s4]. simpl in Hs4, Hh4.
    assert (status s4 <> ErrCode E_migrateErr) by congruence.
    assert (heap s4 (ErrCode E_migrateErr) = heap s (ErrCode E_migrateErr))
      by (rewrite Hh4; simpl in Hh3; congruence).
    destruct r3 as [[]|e3|]; [| |exact I];
      (destruct r4 as [[]|e4|]; [| |exact I]);
      try (apply Hrec; assumption).
    simpl. left. destruct (Hok s3 eq_refl) as [Hf Hp].
    unfold finished_successfully, read_status in *. rewrite Hs4, Hh4. auto.
  - apply Hrec; [exact Hst1|]. simpl in Hh1. exact Hh1.
Qed.

Lemma run_final_status_witness :
  let r := run cancelled_env remote_request example_state in
  match r.1 with
  | Ok _ =>
      (finished_successfully r.2 /\ progress (read_status r.2) = Some 100) \/
      (code (read_status r.2) <> 0 /\ lastStatus r.2 = "Up"%string)
  | Raise _ => code (read_status r.2) <> 0
  | Block => True
  end.
Proof.
  apply (run_final_status cancelled_env remote_request example_state);
    simpl; [discriminate|lia].
Defined.

(** ** The driver: cancellation before the transfer, and the slots *)

Global Instance cancel_kept_preorder : PreOrder cancel_kept.
Proof.
  split; unfold cancel_kept; [intros s | intros s1 s2 s3]; auto.
Qed.

Ltac idle_side :=
  first
    [ reflexivity
    | apply appends_log; solve [ exact I | exact eq_refl ]
    | apply appends_same; reflexivity
    | unfold cancel_kept; simpl; solve [ auto ] ].

Section Cancelled.

Context (env : Env) (rq : Request).

Lemma wait_for_lock_idle n :
  forall i, respects (appends idle) (wait_for_lock env n i).
Proof.
  induction n as [|n IH]; intros i; simpl;
    repeat first [ apply IH | respects_step idle_side ].
Qed.

Lemma setup_idle : respects (appends idle) (run_setup env rq).
Proof.
  unfold run_setup, _setupVdsConnection, _setupRemoteMachineParams,
    _patchConfigForLegacy, patch_item, _prepareGuest.
  repeat first [ apply wait_for_lock_idle | respects_step idle_side ].
Qed.

Lemma setup_cancel_kept : respects cancel_kept (run_setup env rq).
Proof.
  unfold run_setup, _setupVdsConnection, _setupRemoteMachineParams,
    _patchConfigForLegacy, patch_item, _prepareGuest.
  respects_more idle_side.
Qed.

Lemma stop_idle p : respects (appends idle) (stop env p).
Proof. respects_more idle_side. Qed.

Lemma stop_cancel_kept p : respects cancel_kept (stop env p).
Proof. respects_more idle_side. Qed.

Lemma recover_idle msg : respects (appends idle) (_recover env rq msg).
Proof. unfold _recover. respects_more idle_side. Qed.

Lemma finally_idle s : appends idle s (run_finally s).2.
Proof.
  unfold run_finally, bind, get, when, modify, release, ret, del_migrationParams.
  destruct (bool_decide _); simpl;
    destruct (sem_bound _ <=? sem_value _); simpl.
  - exists [(DelMigrationParams, None); (Release, Some (Exception "ValueError: Semaphore released too many times"))].
    simpl. rewrite <- app_assoc. split; [reflexivity|repeat constructor].
  - exists [(DelMigrationParams, None); (Release, None)].
    simpl. rewrite <- app_assoc. split; [reflexivity|repeat constructor].
  - eexists [_]. split; [reflexivity|repeat constructor].
  - eexists [_]. split; [reflexivity|repeat constructor].
Qed.

(** The inner [try] of a run that finds the cancellation flag set. *)
Lemma guarded_cancelled t s :
  _migrationCanceledEvt s = true \/ stop_called env BeforeSlotCheck = true ->
  exists e, (run_guarded env rq t s).1 = Raise e /\
            appends idle s (run_guarded env rq t s).2.
Proof.
  intros Hc.
  unfold run_guarded, try_except_libvirt, run_body, bind.
  pose proof (concurrent_stop_ok env BeforeSlotCheck s) as Hok.
  destruct (respects_concurrent_stop (appends idle) env BeforeSlotCheck
              (stop_idle BeforeSlotCheck) s) as [_ Hidle].
  assert (Hflag : _migrationCanceledEvt (concurrent_stop env BeforeSlotCheck s).2
                  = true).
  { destruct Hc as [Hc|Hc].
    - destruct (respects_concurrent_stop cancel_kept env BeforeSlotCheck
                  (stop_cancel_kept BeforeSlotCheck) s) as [_ Hk].
      apply Hk, Hc.
    - unfold concurrent_stop. rewrite Hc. apply stop_sets_flag. }
  destruct (concurrent_stop env BeforeSlotCheck s) as [rA sA].
  simpl in Hok, Hidle, Hflag. subst rA. simpl. rewrite Hflag. simpl.
  eexists. split; [reflexivity|].
  destruct Hidle as (evs & He & Hf). exists evs. split; auto.
Qed.

End Cancelled.

(** [X19] A run whose cancellation flag is set when it starts, or for which
    [stop()] is called at any time up to the check that follows the
    acquisition of the slot, does nothing of a transfer: it does not write
    [_migrationParams], saves no state, runs no hook, asks nothing of the
    peer or of the hypervisor's migration, and touches no volume. *)
Theorem cancel_before_slot env rq s :
  _migrationCanceledEvt s = true \/ stop_called env BeforeSlotCheck = true ->
  exists new,
    trace (run env rq s).2 = trace s ++ new /\ Forall idle new.
Proof.
  intros Hc. change (appends idle s (run env rq s).2).
  rewrite run_unfold.
  destruct (setup_idle env rq s) as [_ H1].
  destruct (setup_cancel_kept env rq s) as [_ K1].
  destruct (run_setup env rq s) as [[[]|e0|] s1]; simpl in H1, K1.
  - destruct (0 <? sem_value s1); [|exact H1].
    assert (H2 : appends idle s1 (acquired s1)).
    { eexists [_]. split; [reflexivity|repeat constructor]. }
    destruct (guarded_cancelled env rq (time_start env) (acquired s1))
      as (e & He & H3).
    { destruct Hc as [Hc|Hc]; [left; apply K1, Hc|right; exact Hc]. }
    destruct (run_guarded env rq (time_start env) (acquired s1)) as [r3 s3].
    simpl in He, H3. subst r3.
    pose proof (finally_idle s3) as H4.
    pose proof (run_finally_noblock s3) as Hnb.
    destruct (run_finally s3) as [r4 s4]. simpl in H4.
    assert (H5 : forall msg, appends idle s (_recover env rq msg s4).2).
    { intros msg. destruct (recover_idle env rq msg s4) as [_ H5].
      transitivity s1; [exact H1|]. transitivity (acquired s1); [exact H2|].
      transitivity s3; [exact H3|]. transitivity s4; [exact H4|exact H5]. }
    destruct r4 as [[]|e4|]; [apply H5|apply H5|].
    exfalso. eapply Hnb; reflexivity.
  - destruct (recover_idle env rq (str e0) s1) as [_ H5].
    etransitivity; eassumption.
  - exact H1.
Qed.

Lemma cancel_before_slot_witness :
  let env := example_env 1 no_raise early_stop in
  exists new,
    trace (run env remote_request example_state).2 =
      trace example_state ++ new /\ Forall idle new.
Proof.
  apply (cancel_before_slot
           (example_env 1 no_raise early_stop)
           remote_request example_state).
  right. reflexivity.
Defined.

(** [X20] [setMaxOutgoingMigrations(n)] refuses a negative [n]; otherwise a
    run that follows it finds [n] slots, gives all of them back, and blocks
    exactly when [n] is 0 and the preparation returns.  Called while a slot
    is held, it makes the release of that slot fail: the new semaphore is
    full. *)
Theorem setMaxOutgoingMigrations_slots env rq n s :
  (n < 0 -> exists e, setMaxOutgoingMigrations n s = (Raise e, s)) /\
  (0 <= n ->
   let s0 := (setMaxOutgoingMigrations n s).2 in
   let r := run_after_setMax env rq n s in
   sem_value r.2 = n /\ sem_bound r.2 = n /\
   (r.1 = Block <-> n = 0 /\ (run_setup env rq s0).1 = Ok tt) /\
   (0 < sem_value s ->
    (setMax_while_held n s).1 =
      Raise (Exception "ValueError: Semaphore released too many times") /\
    sem_value (setMax_while_held n s).2 = n)).
Proof.
  unfold run_after_setMax, setMax_while_held, setMaxOutgoingMigrations. split.
  - intros Hn. apply Z.ltb_lt in Hn. rewrite Hn. eauto.
  - intros Hn. assert (E : (n <? 0) = false) by (apply Z.ltb_ge; exact Hn).
    cbv zeta. unfold bind. cbv beta. rewrite E. cbn [fst snd].
    set (s0 := set_sem_bound n (set_sem_value n s)).
    destruct (run_spec env rq s0) as ([Hv Hb] & _ & Hblock);
      [simpl; lia|].
    split; [exact Hv|]. split; [exact Hb|]. split.
    + rewrite Hblock. simpl. split; intros [H1 H2]; split; auto; lia.
    + intros Hpos. unfold acquire, release.
      apply Z.ltb_lt in Hpos. rewrite Hpos. simpl.
      rewrite Z.leb_refl. eauto.
Qed.

(** ** The driver: runs in which nothing fails, and a peer that refuses *)

Lemma logs_nil s : logs [] s = s.
Proof. destruct s. unfold logs. simpl. rewrite app_nil_r. reflexivity. Qed.

Lemma logs_log l e s : logs l (log e s) = logs (e :: l) s.
Proof. unfold logs, log. simpl. rewrite <- app_assoc. reflexivity. Qed.

Lemma device_hooks_ok env n : forall i s,
  (forall j, raises env (S_before_device_migrate_source j) = None) ->
  device_hooks env n i s = (Ok tt, logs (hook_entries n i) s).
Proof.
  induction n as [|n IH]; intros i s Hr; simpl.
  - unfold ret. rewrite logs_nil. reflexivity.
  - unfold bind, call, callE. rewrite Hr. rewrite (IH _ _ Hr).
    rewrite logs_log. reflexivity.
Qed.

Global Instance driver_same_preorder : PreOrder driver_same.
Proof.
  split; unfold driver_same.
  - intros s. repeat split.
  - intros s1 s2 s3 (A1 & A2 & A3 & A4 & A5) (B1 & B2 & B3 & B4 & B5).
    repeat split; congruence.
Qed.

Ltac same_side := unfold driver_same; simpl; repeat split; reflexivity.

Lemma setupParams_driver_same env rq :
  respects driver_same (_setupRemoteMachineParams env rq).
Proof.
  unfold _setupRemoteMachineParams, _patchConfigForLegacy, patch_item.
  respects_more same_side.
Qed.

(** What the preparation of a remote migration leaves when it returns. *)
Lemma setup_remote env rq s s1 :
  run_setup env rq s = (Ok tt, s1) ->
  String.eqb (_mode rq) "file" = false ->
  remoteHost s1 = Some (hostPort env).1 /\ destServer s1 = true /\
  lastStatus s1 = "Migration Source"%string /\
  _migrationCanceledEvt s1 = _migrationCanceledEvt s /\
  _monitorThread s1 = _monitorThread s.
Proof.
  intros H Hmode. unfold run_setup in H.
  apply bind_ok in H as ([] & sa & Ha & H).
  apply bind_ok in H as ([] & sb & Hb & H).
  destruct (setupParams_driver_same env rq sa) as [_ Hsame].
  rewrite Hb in Hsame. destruct Hsame as (B1 & B2 & B3 & B4 & _).
  simpl in B1, B2, B3, B4.
  unfold _prepareGuest in H. rewrite Hmode in H. injection H as <-.
  simpl. rewrite B1, B2, B3, B4. clear Hb B1 B2 B3 B4.
  unfold _setupVdsConnection, bind, call, callE, try_except, modify, when in Ha.
  rewrite Hmode in Ha.
  destruct (raises env S_cannonizeHostPort); [discriminate|]. simpl in Ha.
  destruct (raises env S_connect); [discriminate|]. simpl in Ha.
  destruct (raises env S_getVmStats); simpl in Ha;
    [|destruct (getVmStats_code env =? 0); simpl in Ha];
    injection Ha as <-; repeat split.
Qed.

Ltac fields :=
  cbn [status heap _machineParams _preparingMigrationEvt _migrationCanceledEvt
       _monitorThread destServer remoteHost conf lastStatus sem_value sem_bound
       trace set_status set_heap set_machineParams set_preparingMigrationEvt
       set_migrationCanceledEvt set_monitorThread set_destServer set_remoteHost
       set_conf set_lastStatus set_sem_value log logs acquired
       set_migrationParams del_migrationParams write_status fst snd].

Lemma conf_dstqemu_set rq (c : params) :
  match <["_migrationParams" := migrationParams rq]> c !! "_migrationParams" with
  | Some (VDict mp) => mp !! "dstqemu"
  | _ => None
  end = Some (_dstqemu rq).
Proof.
  rewrite lookup_insert_eq. unfold migrationParams.
  rewrite !lookup_insert_ne by discriminate. apply lookup_insert_eq.
Qed.

(** [X21] A remote migration whose preparation returns, in which no call
    raises, nobody calls [stop()], the peer accepts the VM and a slot is
    free, returns; from the acquisition of the slot on it logs exactly
    [remote_success_log]: it writes [_migrationParams], saves the state,
    runs the hooks, creates the VM on the peer, starts the downtime thread
    and the monitor, asks the hypervisor once, cancels the downtime thread,
    sets the VM down, removes [_migrationParams] and releases the slot.
    The status message is ['Migration done'] with progress 100 and the code
    it had after the preparation, the monitor has been told to stop, and
    the VM configuration is the one of the start. *)
Theorem remote_success env rq s :
  String.eqb (_mode rq) "file" = false ->
  (run_setup env rq s).1 = Ok tt ->
  (forall site, raises env site = None) ->
  (forall p, stop_called env p = false) ->
  _migrationCanceledEvt s = false ->
  0 < sem_value s <= sem_bound s ->
  code (migrationCreate_response env) = 0 ->
  display_ok s = true ->
  let s1 := (run_setup env rq s).2 in
  let r := run env rq s in
  r.1 = Ok tt /\
  trace r.2 = trace s1 ++ remote_success_log env rq s /\
  message (read_status r.2) = "Migration done"%string /\
  progress (read_status r.2) = Some 100 /\
  code (read_status r.2) = code (read_status s1) /\
  lastStatus r.2 = "Migration Source"%string /\
  conf r.2 = delete "_migrationParams" (conf s) /\
  _monitorThread r.2 =
    (if monitor_interval env =? 0 then _monitorThread s
     else Some (Monitor.stop (Monitor.__init__ (time_start env)))).
Proof.
  intros Hmode Hsetup Hr Hstop Hflag Hsem Hresp Hdisp s1 r. subst s1 r.
  rewrite run_unfold.
  destruct (setup_benign env rq s) as [_ (Hc1 & [Hv1 Hb1] & _)].
  destruct (run_setup env rq s) as [r0 s1] eqn:Es. simpl in Hsetup. subst r0.
  destruct (setup_remote env rq s s1 Es Hmode) as (Hhost & _ & Hlast & Hfl & Hmon).
  simpl in Hc1, Hv1, Hb1. unfold conf_same in Hc1.
  rewrite Hv1. replace (0 <? sem_value s) with true by (symmetry; apply Z.ltb_lt; lia).
  unfold run_guarded, try_except_libvirt, run_body, run_transfer,
    _startUnderlyingMigration.
  rewrite Hmode.
  unfold _startUnderlyingMigration_remote, _finishSuccessfully, migrate_try,
    migrate_finally, migrateToURI2, concurrent_stop, try_finally, bind, call,
    callE, get, modify, when, ret, raise, _raiseAbortError.
  rewrite Hmode. rewrite !Hstop. rewrite !Hr. fields. rewrite Hfl, Hflag.
  fields.
  rewrite device_hooks_ok by (intros; apply Hr).
  rewrite Hresp. cbn [Z.eqb negb]. fields. rewrite Hhost.
  unfold conf_dstqemu. fields. rewrite conf_dstqemu_set.
  unfold remote_success_log, revives, display_ok in *.
  destruct (monitor_interval env =? 0); cbn [negb]; fields;
    rewrite !(lookup_insert_ne (conf s1)) by discriminate; rewrite Hc1;
    (destruct (conf s !! "display") as [display|]; [|discriminate]);
    (destruct (contains "qxl" display) as [qxl|]; [|discriminate]);
    (destruct (qxl && _); fields; rewrite Hfl, Hflag; cbn [negb]; fields;
     (rewrite (finally_spec _) by (fields; lia));
     rewrite bool_decide_eq_true_2
       by (fields; rewrite lookup_insert_eq; eauto);
     fields; unfold read_status; fields).
  all: split; [reflexivity|]; split; [rewrite <- !app_assoc; reflexivity|].
  all: unfold heap_update; rewrite !Loc_eqb_refl; simpl.
  all: rewrite delete_insert_eq, Hc1; auto 10.
Qed.

Lemma remote_success_witness :
  let env := example_env 1 no_raise no_stop in
  let r := run env remote_request example_state in
  r.1 = Ok tt /\
  trace r.2 = trace (run_setup env remote_request example_state).2 ++
              remote_success_log env remote_request example_state /\
  message (read_status r.2) = "Migration done"%string /\
  progress (read_status r.2) = Some 100 /\
  code (read_status r.2) =
    code (read_status (run_setup env remote_request example_state).2) /\
  lastStatus r.2 = "Migration Source"%string /\
  conf r.2 = delete "_migrationParams" (conf example_state) /\
  _monitorThread r.2 =
    (if monitor_interval env =? 0 then _monitorThread example_state
     else Some (Monitor.stop (Monitor.__init__ (time_start env)))).
Proof.
  apply (remote_success (example_env 1 no_raise no_stop) remote_request
           example_state); try reflexivity.
  simpl. lia.
Defined.

(** [X22] A save to file whose preparation returns, in which no call raises,
    no [stop()] comes before the check of the flag and a slot is free,
    returns; from the acquisition of the slot on it logs exactly
    [file_success_log]: the domain is saved to the volume [_dst] between
    its preparation and its teardown, then the parameter snapshot, without
    its transient keys, is pickled to the volume [_dstparams] between its
    own.  The status message is ['SaveState done'] with progress 100. *)
Theorem file_success env rq s :
  String.eqb (_mode rq) "file" = true ->
  (run_setup env rq s).1 = Ok tt ->
  (forall site, raises env site = None) ->
  stop_called env BeforeSlotCheck = false ->
  _migrationCanceledEvt s = false ->
  0 < sem_value s <= sem_bound s ->
  let s1 := (run_setup env rq s).2 in
  let r := run env rq s in
  r.1 = Ok tt /\
  trace r.2 = trace s1 ++ file_success_log env rq (_machineParams s1) /\
  message (read_status r.2) = "SaveState done"%string /\
  progress (read_status r.2) = Some 100 /\
  code (read_status r.2) = code (read_status s1) /\
  conf r.2 = delete "_migrationParams" (conf s).
Proof.
  intros Hmode Hsetup Hr Hstop Hflag Hsem s1 r. subst s1 r.
  rewrite run_unfold.
  destruct (setup_benign env rq s) as [_ (Hc1 & [Hv1 Hb1] & _)].
  destruct (setup_flag_same env rq s) as [_ Hfl].
  destruct (run_setup env rq s) as [r0 s1] eqn:Es. simpl in Hsetup. subst r0.
  simpl in Hc1, Hv1, Hb1, Hfl. unfold conf_same in Hc1. unfold flag_same in Hfl.
  rewrite Hv1.
  replace (0 <? sem_value s) with true by (symmetry; apply Z.ltb_lt; lia).
  unfold run_guarded, try_except_libvirt, run_body, run_transfer,
    _startUnderlyingMigration.
  rewrite Hmode.
  unfold _startUnderlyingMigration_file, _finishSuccessfully, concurrent_stop,
    try_finally, try_except, bind, call, callE, get, modify, when, ret, raise,
    _raiseAbortError.
  rewrite Hmode. rewrite !Hstop. rewrite !Hr. cbn [negb]. fields.
  rewrite Hfl, Hflag. fields.
  rewrite (finally_spec _) by (fields; lia).
  rewrite bool_decide_eq_true_2 by (fields; rewrite lookup_insert_eq; eauto).
  fields. unfold read_status; fields.
  split; [reflexivity|]. split; [rewrite <- !app_assoc; reflexivity|].
  unfold heap_update; rewrite !Loc_eqb_refl; simpl.
  rewrite delete_insert_eq, Hc1; auto 10.
Qed.

Lemma file_success_witness :
  let env := example_env 1 no_raise no_stop in
  let s1 := (run_setup env file_request example_state).2 in
  let r := run env file_request example_state in
  r.1 = Ok tt /\
  trace r.2 = trace s1 ++ file_success_log env file_request (_machineParams s1) /\
  message (read_status r.2) = "SaveState done"%string /\
  progress (read_status r.2) = Some 100 /\
  code (read_status r.2) = code (read_status s1) /\
  conf r.2 = delete "_migrationParams" (conf example_state).
Proof.
  apply (file_success (example_env 1 no_raise no_stop) file_request
           example_state); try reflexivity.
  simpl. lia.
Defined.

(** [X23] When the peer answers [migrationCreate] with an error, in a run
    in which no call raises, the status becomes the peer's answer itself:
    neither the downtime thread nor the monitor is created and the
    hypervisor is not asked; [_migrationParams] is removed, the slot is
    released, and [_recover] asks the peer to destroy the VM, keeps the
    peer's status because its code is not 0, and sets [lastStatus] to
    ['Up']. *)
Theorem destination_refuses env rq s :
  String.eqb (_mode rq) "file" = false ->
  (run_setup env rq s).1 = Ok tt ->
  (forall site, raises env site = None) ->
  stop_called env BeforeSlotCheck = false ->
  _migrationCanceledEvt s = false ->
  0 < sem_value s <= sem_bound s ->
  code (migrationCreate_response env) <> 0 ->
  let s1 := (run_setup env rq s).2 in
  let r := run env rq s in
  r.1 = Ok tt /\
  trace r.2 = trace s1 ++ refused_log env rq /\
  status r.2 = Response /\
  read_status r.2 = migrationCreate_response env /\
  lastStatus r.2 = "Up"%string /\
  conf r.2 = delete "_migrationParams" (conf s) /\
  _monitorThread r.2 = _monitorThread s.
Proof.
  intros Hmode Hsetup Hr Hstop Hflag Hsem Hresp s1 r. subst s1 r.
  rewrite run_unfold.
  destruct (setup_benign env rq s) as [_ (Hc1 & [Hv1 Hb1] & _)].
  destruct (run_setup env rq s) as [r0 s1] eqn:Es. simpl in Hsetup. subst r0.
  destruct (setup_remote env rq s s1 Es Hmode) as (_ & Hdest & _ & Hfl & Hmon).
  simpl in Hc1, Hv1, Hb1. unfold conf_same in Hc1.
  rewrite Hv1.
  replace (0 <? sem_value s) with true by (symmetry; apply Z.ltb_lt; lia).
  unfold run_guarded, try_except_libvirt, run_body, run_transfer,
    _startUnderlyingMigration.
  rewrite Hmode.
  unfold _startUnderlyingMigration_remote, concurrent_stop, bind, call,
    callE, get, modify, when, ret, raise, _raiseAbortError.
  rewrite !Hstop. rewrite !Hr. fields. rewrite Hfl, Hflag. fields.
  rewrite device_hooks_ok by (intros; apply Hr).
  apply Z.eqb_neq in Hresp. rewrite Hresp. cbn [negb]. fields.
  rewrite (finally_spec _) by (unfold adopt; fields; lia).
  rewrite bool_decide_eq_true_2
    by (unfold adopt; fields; rewrite lookup_insert_eq; eauto).
  unfold _recover, try_except, bind, call, callE, get, modify, when, ret, raise.
  rewrite Hmode, !Hr. unfold read_status, adopt. fields.
  rewrite Hresp. cbn [negb orb]. fields. rewrite Hdest. fields.
  unfold refused_log.
  destruct (String.eqb (_method rq) "online"); cbn [negb]; fields;
    (split; [reflexivity|]); (split; [rewrite <- !app_assoc; reflexivity|]);
    rewrite delete_insert_eq, Hc1; auto 10.
Qed.

Lemma destination_refuses_witness :
  let env := refusing_env in
  let rq := remote_request in
  let s := example_state in
  let s1 := (run_setup env rq s).2 in
  let r := run env rq s in
  r.1 = Ok tt /\
  trace r.2 = trace s1 ++ refused_log env rq /\
  status r.2 = Response /\
  read_status r.2 = migrationCreate_response env /\
  lastStatus r.2 = "Up"%string /\
  conf r.2 = delete "_migrationParams" (conf s) /\
  _monitorThread r.2 = _monitorThread s.
Proof.
  apply (destination_refuses refusing_env remote_request example_state);
    try reflexivity; simpl; try lia; discriminate.
Defined.

(** ** The driver: what the hypervisor is asked *)

Global Instance keeps_ready_preorder env rq : PreOrder (keeps_ready env rq).
Proof.
  split.
  - intros s. split; [auto|reflexivity].
  - intros s1 s2 s3 [A1 B1] [A2 B2]. split; [auto|etransitivity; eauto].
Qed.

Lemma migrates_once_clean env rq evs :
  Forall no_migrate evs -> migrates_once env rq evs.
Proof. intros H. left. exact H. Qed.

Lemma migrates_once_app_l env rq l evs :
  Forall no_migrate l -> migrates_once env rq evs ->
  migrates_once env rq (l ++ evs).
Proof.
  intros Hl [H | (pre & o & post & -> & Hpre & Hpost)].
  - left. apply Forall_app. auto.
  - right. exists (l ++ pre), o, post. rewrite <- app_assoc.
    repeat split; auto. apply Forall_app. auto.
Qed.

Lemma migrates_once_app_r env rq l evs :
  migrates_once env rq evs -> Forall no_migrate l ->
  migrates_once env rq (evs ++ l).
Proof.
  intros [H | (pre & o & post & -> & Hpre & Hpost)] Hl.
  - left. apply Forall_app. auto.
  - right. exists pre, o, (post ++ l). rewrite <- !app_assoc.
    repeat split; auto. apply Forall_app. auto.
Qed.

Section Once.

Context (env : Env) (rq : Request).

Lemma once_clean {A} (m : M A) :
  respects (appends no_migrate) m -> once env rq m.
Proof.
  intros H s. destruct (H s) as [_ (evs & He & Hf)].
  exists evs. split; [exact He|left; exact Hf].
Qed.

Lemma once_bind {A B} (m : M A) (k : A -> M B) :
  respects (appends no_migrate) m -> (forall a, once env rq (k a)) ->
  once env rq (bind m k).
Proof.
  intros Hm Hk s. unfold bind. destruct (Hm s) as [_ (evs & He & Hf)].
  destruct (m s) as [[a|e|] s1]; simpl in *;
    [|exists evs; split; [exact He|left; exact Hf] ..].
  destruct (Hk a s1) as (evs2 & He2 & H2).
  exists (evs ++ evs2). rewrite He2, He, app_assoc. split; [reflexivity|].
  apply migrates_once_app_l; assumption.
Qed.

Lemma once_try_finally {A} (m : M A) f :
  once env rq m -> respects (appends no_migrate) f ->
  once env rq (try_finally m f).
Proof.
  intros Hm Hf s. unfold try_finally. destruct (Hm s) as (evs & He & H).
  destruct (m s) as [[a|e|] s1]; simpl in *; [| |eauto];
    (destruct (Hf s1) as [_ (evs2 & He2 & H2)];
     exists (evs ++ evs2); split;
     [|apply migrates_once_app_r; assumption];
     destruct (f s1) as [[[]|e'|] s2]; simpl in *;
     rewrite He2, He, app_assoc; reflexivity).
Qed.

Lemma once_migrateToURI2 :
  once env rq (migrateToURI2 env (dest_uri env) (migration_uri env rq) (migrate_flags env rq)
                 (migration_max_bandwidth env)).
Proof.
  intros s. unfold migrateToURI2.
  set (s1 := log _ s).
  assert (Hstop : respects (appends no_migrate) (stop env DuringMigrate)).
  { respects_more clean_side. }
  destruct (respects_concurrent_stop _ env DuringMigrate Hstop s1)
    as [_ (evs & He & Hf)].
  exists ([migrate_entry env rq (raises env S_migrateToURI2)] ++ evs).
  split.
  - destruct (raises env S_migrateToURI2); simpl in *; rewrite He;
      subst s1; simpl; rewrite <- app_assoc; reflexivity.
  - right. exists [], (raises env S_migrateToURI2), evs.
    repeat split; auto.
Qed.

Lemma once_migrate_try :
  once env rq (migrate_try env rq (dest_uri env) (migration_uri env rq)).
Proof.
  unfold migrate_try.
  repeat first
    [ apply once_migrateToURI2
    | lazymatch goal with
      | |- forall _, _ => intros ?
      | |- once _ _ (bind _ _) => apply once_bind
      | |- once _ _ (match ?x with _ => _ end) => destruct x
      | |- once _ _ (if ?b then _ else _) => destruct b
      | |- once _ _ (let _ := _ in _) => cbv zeta
      | |- once _ _ _ => apply once_clean
      end
    | respects_more clean_side ].
Qed.

End Once.

Ltac ready_side :=
  unfold keeps_ready, ready, conf_dstqemu; simpl;
  split; [solve [auto] | first [ reflexivity
                               | apply appends_log; reflexivity
                               | apply appends_same; reflexivity ]].

Section OnceFrom.

Context (env : Env) (rq : Request).

Lemma from_once {A} (m : M A) : once env rq m -> once_from env rq m.
Proof. intros H s _. apply H. Qed.

Lemma from_bind {A B} (m : M A) (k : A -> M B) :
  respects (keeps_ready env rq) m -> (forall a, once_from env rq (k a)) ->
  once_from env rq (bind m k).
Proof.
  intros Hm Hk s Hs. unfold bind.
  destruct (Hm s) as [_ [Hready (evs & He & Hf)]].
  destruct (m s) as [[a|e|] s1]; simpl in *;
    [|exists evs; split; [exact He|left; exact Hf] ..].
  destruct (Hk a s1 (Hready Hs)) as (evs2 & He2 & H2).
  exists (evs ++ evs2). rewrite He2, He, app_assoc. split; [reflexivity|].
  apply migrates_once_app_l; assumption.
Qed.

Lemma from_bind_r {A B} (m : M A) (k : A -> M B) :
  once_from env rq m -> (forall a, respects (appends no_migrate) (k a)) ->
  once_from env rq (bind m k).
Proof.
  intros Hm Hk s Hs. unfold bind.
  destruct (Hm s Hs) as (evs & He & H).
  destruct (m s) as [[a|e|] s1]; simpl in *; [|eauto ..].
  destruct (Hk a s1) as [_ (evs2 & He2 & H2)].
  exists (evs ++ evs2). rewrite He2, He, app_assoc. split; [reflexivity|].
  apply migrates_once_app_r; assumption.
Qed.

Lemma from_get {A} (k : State -> M A) :
  (forall s, ready env rq s -> once_from env rq (k s)) ->
  once_from env rq (bind get k).
Proof. intros H s Hs. unfold bind, get. apply (H s Hs s Hs). Qed.

Lemma startUnderlying_file_clean :
  respects (appends no_migrate) (_startUnderlyingMigration_file env rq).
Proof. unfold _startUnderlyingMigration_file. respects_more clean_side. Qed.

Lemma finish_clean : respects (appends no_migrate) (_finishSuccessfully env rq).
Proof. unfold _finishSuccessfully. respects_more clean_side. Qed.

Lemma remote_once t :
  once_from env rq (_startUnderlyingMigration_remote env rq t).
Proof.
  unfold _startUnderlyingMigration_remote.
  do 5 (apply from_bind; [respects_more ready_side|intros _]).
  cbv zeta. destruct (negb _).
  { apply from_once, once_clean. respects_more clean_side. }
  apply from_get. intros s [Hhost Hq]. rewrite Hhost, Hq.
  apply from_once.
  apply once_bind; [respects_more clean_side|intros _].
  apply once_bind; [respects_more clean_side|intros _].
  apply once_try_finally; [apply once_migrate_try|].
  unfold migrate_finally. respects_more clean_side.
Qed.

Lemma transfer_once t : once_from env rq (run_transfer env rq t).
Proof.
  unfold run_transfer.
  apply from_bind; [respects_more ready_side|intros _].
  apply from_bind_r; [|intros _; apply finish_clean].
  unfold _startUnderlyingMigration.
  destruct (String.eqb (_mode rq) "file").
  - apply from_once, once_clean, startUnderlying_file_clean.
  - apply remote_once.
Qed.

End OnceFrom.

Global Instance host_same_preorder : PreOrder host_same.
Proof.
  split; unfold host_same; [intros s | intros s1 s2 s3]; congruence.
Qed.

Lemma stop_host_same env p : respects host_same (stop env p).
Proof. respects_more ltac:(reflexivity). Qed.

Lemma transfer_file_clean env rq t :
  String.eqb (_mode rq) "file" = true ->
  respects (appends no_migrate) (run_transfer env rq t).
Proof.
  intros Hmode. unfold run_transfer, _startUnderlyingMigration.
  rewrite Hmode.
  repeat first [ apply startUnderlying_file_clean | apply finish_clean
               | respects_step clean_side ].
Qed.

(** The inner [try] of a run, entered by a driver that knows the peer when
    the migration is remote. *)
Lemma body_once env rq t s :
  (String.eqb (_mode rq) "file" = false ->
   remoteHost s = Some (hostPort env).1) ->
  exists evs,
    trace (run_body env rq t s).2 = trace s ++ evs /\
    migrates_once env rq evs.
Proof.
  intros Hhost. unfold run_body, bind.
  pose proof (concurrent_stop_ok env BeforeSlotCheck s) as Hok.
  assert (Hstop : respects (appends no_migrate) (stop env BeforeSlotCheck)).
  { respects_more clean_side. }
  destruct (respects_concurrent_stop _ env BeforeSlotCheck Hstop s)
    as [_ (evs & He & Hf)].
  destruct (respects_concurrent_stop _ env BeforeSlotCheck
              (stop_host_same env BeforeSlotCheck) s) as [_ Hh].
  destruct (concurrent_stop env BeforeSlotCheck s) as [rA sA].
  simpl in Hok, He, Hf, Hh. unfold host_same in Hh.
  subst rA. unfold get at 1. cbn [fst snd].
  destruct (_migrationCanceledEvt sA); simpl.
  { exists evs. split; [exact He|left; exact Hf]. }
  destruct (String.eqb (_mode rq) "file") eqn:Hmode.
  - destruct (transfer_file_clean env rq t Hmode (set_migrationParams rq sA))
      as [_ (evs2 & He2 & Hf2)].
    exists (evs ++ [(SetMigrationParams, None)] ++ evs2).
    split.
    + rewrite He2. simpl. rewrite He, <- !app_assoc. reflexivity.
    + left. repeat (apply Forall_app; split); auto. repeat constructor.
  - destruct (transfer_once env rq t (set_migrationParams rq sA))
      as (evs2 & He2 & H2).
    { split; simpl; [rewrite Hh; auto|].
      unfold conf_dstqemu. simpl. apply conf_dstqemu_set. }
    exists (evs ++ [(SetMigrationParams, None)] ++ evs2).
    split.
    + rewrite He2. simpl. rewrite He, <- !app_assoc. reflexivity.
    + apply migrates_once_app_l; [exact Hf|].
      apply migrates_once_app_l; [repeat constructor|exact H2].
Qed.

(** [X24] In any run the hypervisor is asked to migrate at most once, and
    then with the destination URI built from the peer's host name and the
    transport of the configuration, the migration URI of the request's
    [dstqemu] (or else the peer's host), the flags of the request and the
    bandwidth of the configuration. *)
Theorem migrate_asked_once env rq s :
  sem_value s <= sem_bound s ->
  exists new,
    trace (run env rq s).2 = trace s ++ new /\ migrates_once env rq new.
Proof.
  intros Hwf.
  destruct (acquires env rq s) eqn:Hacq.
  - destruct (run_trace_body env rq s Hwf Hacq)
      as (pre & body_evs & tail & Hpre & Htail & Hbody & Ht).
    exists (pre ++ [(Acquire, None)] ++ body_evs ++ tail).
    split; [exact Ht|].
    assert (Hs : (run_setup env rq s).1 = Ok tt).
    { unfold acquires in Hacq.
      destruct ((run_setup env rq s).1) as [[]|e|]; [reflexivity|discriminate ..]. }
    destruct (body_once env rq (time_start env)
                (acquired (run_setup env rq s).2)) as (evs & He & H).
    { intros Hmode. simpl.
      destruct (run_setup env rq s) as [r0 s1] eqn:Es. simpl in Hs. subst r0.
      apply (setup_remote env rq s s1 Es Hmode). }
    rewrite Hbody in He. apply app_inv_head in He. subst evs.
    apply migrates_once_app_l.
    { eapply Forall_impl; [exact Hpre|]. apply benign_no_migrate. }
    apply migrates_once_app_l; [repeat constructor|].
    apply migrates_once_app_r; assumption.
  - destruct (run_spec env rq s Hwf) as (_ & (pre & Hpre & _ & Hlog) & _).
    rewrite Hacq in Hlog. destruct Hlog as (_ & post & Hpost & Ht).
    exists (pre ++ post). split; [exact Ht|]. left.
    apply Forall_app. split; (eapply Forall_impl; [eassumption|]);
      apply benign_no_migrate.
Qed.

Lemma migrate_asked_once_witness :
  exists new,
    trace (run cancelled_env remote_request example_state).2 =
      trace example_state ++ new /\
    migrates_once cancelled_env remote_request new.
Proof.
  apply (migrate_asked_once cancelled_env remote_request example_state).
  simpl. lia.
Defined.
